(** * Financial metric extraction, validation and calculation engine

    A shallow embedding of the extraction / validation / aggregation /
    calculation core of the multi-agent financial analysis platform:

    - [tools/calculator.py]            (FinancialCalculator)
    - [Agents/calculation_agent.py]    (CalculationAgent._group_data_by_period)
    - [Agents/financial_extractor.py]  (FinancialDataValidator, FinancialDataExtractor)
    - [tools/temporal_reasoning.py]    (TemporalReasoningTool.parse_period_reference)
    - [models/schemas.py]              (Quarter, FinancialMetric, FinancialDataPoint)

    Modelling conventions.

    - A Python [float] is modelled by the rational number it denotes
      ([Q], exact arithmetic).  The tests of the modelled code compare a
      value with an integer constant or with another value of the same
      list; the two exceptions, the clamp [max(0.7, 1 - deviation)] and
      [round(., 2)] of the validator, enter a statement only at the midpoint
      and the edges of the bands, where binary64 arithmetic gives the
      same results.
    - A Python [str] is a [string]; a character is its code point below
      256, so the character classes [\d], [\s], [\w] are the ones Python's
      [re] uses on that range.
    - Exceptions are explicit: a computation that can raise returns a
      [Res]; [try]/[except] is [catch].
    - [FinancialCalculator.calculation_history] is threaded explicitly
      through the calculator ([Calc]). *)

From Stdlib Require Import ZArith QArith Qabs Qround Lqa Ascii String List Lia.
From stdpp Require Import base option list gmap sets strings pretty.

Local Open Scope Q_scope.

(** ** The Python runtime, as far as the modelled code uses it *)

Module Py.

Inductive Exn : Set :=
| ZeroDivisionError
| IndexError
| KeyError
| ValueError
| ValidationError.

#[global] Instance Exn_eq_dec : EqDecision Exn.
Proof. solve_decision. Defined.

Inductive Res (A : Type) : Type :=
| Ok (a : A)
| Raise (e : Exn).
Arguments Ok {A} a.
Arguments Raise {A} e.

#[global] Instance Res_ret : MRet Res := fun A a => Ok a.
#[global] Instance Res_bind : MBind Res := fun A B f m =>
  match m with
  | Ok a => f a
  | Raise e => Raise e
  end.

(** [try: body except e: handler] *)
Definition catch {A} (body : Res A) (e : Exn) (handler : Res A) : Res A :=
  match body with
  | Ok a => Ok a
  | Raise e' => if decide (e' = e) then handler else Raise e'
  end.

(** [try: body except Exception: handler] *)
Definition catch_all {A} (body : Res A) (handler : Res A) : Res A :=
  match body with
  | Ok a => Ok a
  | Raise _ => handler
  end.

(** Comparisons on floats: [x == y], [x <= y], [x < y]. *)
Definition eqb (x y : Q) : bool := Qeq_bool x y.
Definition leb (x y : Q) : bool := Qle_bool x y.
Definition ltb (x y : Q) : bool := negb (Qle_bool y x).

(** [x / y] *)
Definition div (x y : Q) : Res Q :=
  if eqb y 0 then Raise ZeroDivisionError else Ok (x / y).

(** [len(l)], used as a number *)
Definition len {A} (l : list A) : Q := inject_Z (Z.of_nat (length l)).

(** [sum(l)]: left to right, starting from [0] *)
Definition sum (l : list Q) : Q := fold_left Qplus l 0.

(** The scan behind [min] and [max]: the candidate [m] is replaced by a
    later item [y] only when [better y m]. *)
Definition scan (better : Q -> Q -> bool) (x : Q) (l : list Q) : Q :=
  fold_left (fun m y => if better y m then y else m) l x.

(** [min(l)]: keeps the first of the least items, [ValueError] on [[]] *)
Definition min (l : list Q) : Res Q :=
  match l with
  | [] => Raise ValueError
  | x :: l' => Ok (scan (fun y m => ltb y m) x l')
  end.

(** [max(l)]: keeps the first of the greatest items *)
Definition max (l : list Q) : Res Q :=
  match l with
  | [] => Raise ValueError
  | x :: l' => Ok (scan (fun y m => ltb m y) x l')
  end.

(** [max(a, b)]: [b] only when it is greater *)
Definition max2 (a b : Q) : Q := if ltb a b then b else a.

(** [l.index(v)]: position of the first item equal to [v] *)
Fixpoint index_from (l : list Q) (v : Q) (i : nat) : Res nat :=
  match l with
  | [] => Raise ValueError
  | x :: l' => if eqb x v then Ok i else index_from l' v (S i)
  end.

Definition index (l : list Q) (v : Q) : Res nat := index_from l v 0.

(** [l[i]] for a non-negative [i] *)
Definition getitem {A} (l : list A) (i : nat) : Res A :=
  match l !! i with
  | Some x => Ok x
  | None => Raise IndexError
  end.

(** [abs(x)] *)
Definition abs (x : Q) : Q := Qabs x.

(** [round(x, 2)]: to the nearest hundredth, a tie goes to the even one *)
Definition round2 (x : Q) : Q :=
  let y := x * 100 in
  let f := Qfloor y in
  let r := y - inject_Z f in
  let k := if ltb r (1 # 2) then f
           else if ltb (1 # 2) r then (f + 1)%Z
           else if Z.even f then f else (f + 1)%Z in
  inject_Z k / 100.

End Py.
Import Py.

(** ** tools/calculator.py *)

Module Calculator.

Record Trend : Type := {
  periods : list string;
  values : list Q;
  mean : Q;
  min_value : Q;
  min_period : string;
  max_value : Q;
  max_period : string;
  growth_rates : list Q;
  average_growth : Q
}.

(** The dictionaries the calculator returns, by their key sets.
    [calculation_type] is the tag of every dictionary but the error one. *)
Inductive CalcResult : Type :=
| ErrorResult (error : string)
| PercentageChange (old_value new_value absolute_change percentage_change : Q)
| Roe (net_income shareholder_equity roe_percentage : Q)
| LoanToDeposit (total_loans total_deposits ldr_percentage : Q)
| Nim (net_interest_income earning_assets nim_percentage : Q)
| TrendAnalysis (t : Trend).

Definition calculation_type (r : CalcResult) : option string :=
  match r with
  | ErrorResult _ => None
  | PercentageChange _ _ _ _ => Some "percentage_change"%string
  | Roe _ _ _ => Some "roe"%string
  | LoanToDeposit _ _ _ => Some "loan_to_deposit_ratio"%string
  | Nim _ _ _ => Some "net_interest_margin"%string
  | TrendAnalysis _ => Some "trend_analysis"%string
  end.

(** A method of [FinancialCalculator]: it may raise, and it reads and
    writes [self.calculation_history]. *)
Definition Calc (A : Type) : Type := list CalcResult -> Res A * list CalcResult.

#[global] Instance Calc_ret : MRet Calc := fun A a h => (Ok a, h).
#[global] Instance Calc_bind : MBind Calc := fun A B f m h =>
  match m h with
  | (Ok a, h') => f a h'
  | (Raise e, h') => (Raise e, h')
  end.

Definition lift {A} (r : Res A) : Calc A := fun h => (r, h).

(** [self.calculation_history.append(result)] *)
Definition history_append (r : CalcResult) : Calc unit :=
  fun h => (Ok tt, h ++ [r]).

Definition calculate_percentage_change (old_value new_value : Q) : Calc CalcResult :=
  if eqb old_value 0 then
    mret (ErrorResult "Cannot calculate percentage change from zero")
  else
    let change := new_value - old_value in
    q ← lift (div change old_value);
    let percentage := q * 100 in
    let result := PercentageChange old_value new_value change percentage in
    _ ← history_append result;
    mret result.

Definition calculate_roe (net_income shareholder_equity : Q) : Calc CalcResult :=
  if eqb shareholder_equity 0 then
    mret (ErrorResult "Cannot calculate ROE with zero equity")
  else
    q ← lift (div net_income shareholder_equity);
    let roe := q * 100 in
    let result := Roe net_income shareholder_equity roe in
    _ ← history_append result;
    mret result.

Definition calculate_loan_to_deposit (total_loans total_deposits : Q) : Calc CalcResult :=
  if eqb total_deposits 0 then
    mret (ErrorResult "Cannot calculate LDR with zero deposits")
  else
    q ← lift (div total_loans total_deposits);
    let ldr := q * 100 in
    let result := LoanToDeposit total_loans total_deposits ldr in
    _ ← history_append result;
    mret result.

Definition calculate_nim (net_interest_income earning_assets : Q) : Calc CalcResult :=
  if eqb earning_assets 0 then
    mret (ErrorResult "Cannot calculate NIM with zero earning assets")
  else
    q ← lift (div net_interest_income earning_assets);
    let nim := q * 100 in
    let result := Nim net_interest_income earning_assets nim in
    _ ← history_append result;
    mret result.

(** The body of [for i in range(1, len(values))]:
    [((values[i] - values[i-1]) / values[i-1]) * 100 if values[i-1] != 0 else 0] *)
Definition growth (values : list Q) (i : nat) : Res Q :=
  prev ← getitem values (i - 1);
  if negb (eqb prev 0) then
    cur ← getitem values i;
    prev' ← getitem values (i - 1);
    prev'' ← getitem values (i - 1);
    q ← div (cur - prev') prev'';
    mret (q * 100)
  else mret 0.

(** The whole loop, appending to [growth_rates] in order. *)
Fixpoint growth_loop (values : list Q) (range : list nat) : Res (list Q) :=
  match range with
  | [] => mret []
  | i :: range' =>
      g ← growth values i;
      gs ← growth_loop values range';
      mret (g :: gs)
  end.

Definition calculate_trend (values : list Q) (periods : list string) : Calc CalcResult :=
  if (length values <? 2)%nat then
    mret (ErrorResult "Need at least 2 values for trend analysis")
  else
    mean ← lift (div (sum values) (len values));
    min_val ← lift (min values);
    max_val ← lift (max values);
    imin ← lift (index values min_val);
    min_period ← lift (getitem periods imin);
    imax ← lift (index values max_val);
    max_period ← lift (getitem periods imax);
    growth_rates ← lift (growth_loop values (seq 1 (length values - 1)));
    average_growth ←
      lift (match growth_rates with
            | [] => mret 0
            | _ :: _ => div (sum growth_rates) (len growth_rates)
            end);
    let result := TrendAnalysis {|
      periods := periods;
      values := values;
      mean := mean;
      min_value := min_val;
      min_period := min_period;
      max_value := max_val;
      max_period := max_period;
      growth_rates := growth_rates;
      average_growth := average_growth
    |} in
    _ ← history_append result;
    mret result.

End Calculator.

(** ** models/schemas.py *)

Module Schemas.

Inductive Quarter : Set := Q1 | Q2 | Q3 | Q4 | ANNUAL.

Definition Quarter_value (q : Quarter) : string :=
  match q with
  | Q1 => "Q1"
  | Q2 => "Q2"
  | Q3 => "Q3"
  | Q4 => "Q4"
  | ANNUAL => "Annual"
  end.

(** [Quarter(s)]: look a member up by its value *)
Definition Quarter_of_value (s : string) : Res Quarter :=
  if decide (s = "Q1"%string) then Ok Q1
  else if decide (s = "Q2"%string) then Ok Q2
  else if decide (s = "Q3"%string) then Ok Q3
  else if decide (s = "Q4"%string) then Ok Q4
  else if decide (s = "Annual"%string) then Ok ANNUAL
  else Raise ValueError.

Inductive FinancialMetric : Set :=
| NET_PROFIT
| NET_INTEREST_INCOME
| TOTAL_ASSETS
| TOTAL_LOANS
| TOTAL_DEPOSITS
| SHAREHOLDER_EQUITY
| ROE
| ROA
| NIM
| LOAN_TO_DEPOSIT
| COST_OF_RISK
| NPL_RATIO.

Definition FinancialMetric_value (m : FinancialMetric) : string :=
  match m with
  | NET_PROFIT => "net_profit"
  | NET_INTEREST_INCOME => "net_interest_income"
  | TOTAL_ASSETS => "total_assets"
  | TOTAL_LOANS => "total_loans"
  | TOTAL_DEPOSITS => "total_deposits"
  | SHAREHOLDER_EQUITY => "shareholder_equity"
  | ROE => "return_on_equity"
  | ROA => "return_on_assets"
  | NIM => "net_interest_margin"
  | LOAN_TO_DEPOSIT => "loan_to_deposit_ratio"
  | COST_OF_RISK => "cost_of_risk"
  | NPL_RATIO => "npl_ratio"
  end.

Definition FinancialMetric_members : list FinancialMetric :=
  [NET_PROFIT; NET_INTEREST_INCOME; TOTAL_ASSETS; TOTAL_LOANS; TOTAL_DEPOSITS;
   SHAREHOLDER_EQUITY; ROE; ROA; NIM; LOAN_TO_DEPOSIT; COST_OF_RISK; NPL_RATIO].

Definition FinancialMetric_lookup (s : string) : option FinancialMetric :=
  find (fun m => bool_decide (FinancialMetric_value m = s)) FinancialMetric_members.

(** [FinancialMetric(s)] *)
Definition FinancialMetric_of_value (s : string) : Res FinancialMetric :=
  match FinancialMetric_lookup s with
  | Some m => Ok m
  | None => Raise ValueError
  end.

#[global] Instance FinancialMetric_eq_dec : EqDecision FinancialMetric.
Proof. solve_decision. Defined.

(** A member hashes and compares as its value. *)
#[global] Instance FinancialMetric_countable : Countable FinancialMetric.
Proof.
  apply (inj_countable FinancialMetric_value FinancialMetric_lookup).
  intros []; reflexivity.
Defined.

(** The fields of [DocumentMetadata] the extraction core reads. *)
Record DocumentMetadata : Type := {
  bank : string;
  year : Z;
  quarter : Quarter;
  currency : string;
  units : string
}.

Record FinancialDataPoint : Type := {
  metric : FinancialMetric;
  value : Q;
  period : string;
  metadata : DocumentMetadata;
  source_page : Z;
  source_section : string;
  confidence : Q
}.

(** [FinancialDataPoint(...)]: pydantic checks
    [confidence: float = Field(ge=0, le=1)] and raises a
    [ValidationError] otherwise. *)
Definition FinancialDataPoint_new (metric : FinancialMetric) (value : Q)
    (period : string) (metadata : DocumentMetadata) (source_page : Z)
    (source_section : string) (confidence : Q) : Res FinancialDataPoint :=
  if leb 0 confidence && leb confidence 1 then
    Ok {| metric := metric; value := value; period := period;
          metadata := metadata; source_page := source_page;
          source_section := source_section; confidence := confidence |}
  else Raise ValidationError.

End Schemas.
Import Schemas.

(** ** Agents/financial_extractor.py: FinancialDataValidator *)

Module Validator.

Definition table_cell_ranges : gmap string (Z * Z) :=
  list_to_map [
    ("net_profit"%string, (1, 1000)%Z);
    ("total_assets"%string, (1, 10000)%Z);
    ("shareholder_equity"%string, (1, 10000)%Z);
    ("total_loans"%string, (1, 10000)%Z);
    ("total_deposits"%string, (1, 10000)%Z);
    ("net_interest_income"%string, (1, 1000)%Z)
  ].

Definition main_financial_ranges : gmap string (Z * Z) :=
  list_to_map [
    ("net_profit"%string, (1000, 20000)%Z);
    ("total_assets"%string, (400000, 1200000)%Z);
    ("shareholder_equity"%string, (80000, 120000)%Z);
    ("total_loans"%string, (200000, 500000)%Z);
    ("total_deposits"%string, (300000, 600000)%Z);
    ("net_interest_income"%string, (1000, 15000)%Z)
  ].

Inductive ValueType : Set := table_cell | main_financial.

(** The dictionary [validate_extraction] returns.  Its free-text entries
    ([note], [issue], [suggestion]) only format the value for the log
    and are not modelled; [value_type] is absent ([None]) where the
    source leaves the key out. *)
Record ValidationResult : Type := {
  is_valid : bool;
  confidence : Q;
  value_type : option ValueType
}.

(** [lo <= value <= hi] for integer bounds *)
Definition between (lo hi : Z) (value : Q) : bool :=
  leb (inject_Z lo) value && leb value (inject_Z hi).

(** FIRST: the table-cell branch; [None] when it does not return. *)
Definition table_cell_branch (metric : string) (value : Q) : option ValidationResult :=
  match table_cell_ranges !! metric with
  | Some (table_min, table_max) =>
      if between table_min table_max value then
        let confidence := if between 1 1000 value then 0.7 else 0.6 in
        Some {| is_valid := true; confidence := confidence;
                value_type := Some table_cell |}
      else None
  | None => None
  end.

(** SECOND: the main-financial branch; [None] when it does not return. *)
Definition main_financial_branch (metric : string) (value : Q)
    : option (Res ValidationResult) :=
  match main_financial_ranges !! metric with
  | Some (main_min, main_max) =>
      if between main_min main_max value then
        Some (median ← div (inject_Z (main_min + main_max)) 2;
              deviation ← div (abs (value - median)) median;
              let confidence := max2 0.7 (1 - deviation) in
              mret {| is_valid := true; confidence := round2 confidence;
                      value_type := Some main_financial |})
      else None
  | None => None
  end.

Definition validate_extraction (metric : string) (value : Q) (year : Z)
    : Res ValidationResult :=
  match main_financial_ranges !! metric with
  | None => mret {| is_valid := true; confidence := 0.7; value_type := None |}
  | Some _ =>
      match table_cell_branch metric value with
      | Some r => mret r
      | None =>
          match main_financial_branch metric value with
          | Some r => r
          | None =>
              mret {| is_valid := false; confidence := 0.1; value_type := None |}
          end
      end
  end.

End Validator.

(** ** Python strings and the [re] character classes, on code points below 256 *)

Module Text.

Definition code (c : ascii) : N := N_of_ascii c.

Definition in_range (lo hi : N) (c : ascii) : bool :=
  ((lo <=? code c) && (code c <=? hi))%N.

(** [\d] *)
Definition is_digit (c : ascii) : bool := in_range 48 57 c.

(** [\s], also what [str.strip()] removes *)
Definition is_space (c : ascii) : bool :=
  in_range 9 13 c || in_range 28 32 c || (code c =? 133)%N || (code c =? 160)%N.

(** [\w]: alphanumeric characters and the underscore *)
Definition is_word (c : ascii) : bool :=
  is_digit c || in_range 65 90 c || in_range 97 122 c || (code c =? 95)%N
  || (code c =? 170)%N || (code c =? 178)%N || (code c =? 179)%N
  || (code c =? 181)%N || (code c =? 185)%N || (code c =? 186)%N
  || in_range 188 190 c || in_range 192 214 c || in_range 216 246 c
  || in_range 248 255 c.

(** [c.lower()] *)
Definition lower_char (c : ascii) : ascii :=
  if in_range 65 90 c || (in_range 192 222 c && negb (code c =? 215)%N)
  then ascii_of_N (code c + 32) else c.

(** [c.upper()], where the result is again a single code point below
    256 (the three others, 181, 223 and 255, are left as they are: no
    comparison in the modelled code can tell the difference, since none
    of them becomes an ASCII character) *)
Definition upper_char (c : ascii) : ascii :=
  if in_range 97 122 c || (in_range 224 254 c && negb (code c =? 247)%N)
  then ascii_of_N (code c - 32) else c.

Fixpoint take_while (p : ascii -> bool) (l : list ascii) : list ascii :=
  match l with
  | c :: l' => if p c then c :: take_while p l' else []
  | [] => []
  end.

Fixpoint drop_while (p : ascii -> bool) (l : list ascii) : list ascii :=
  match l with
  | c :: l' => if p c then drop_while p l' else l
  | [] => []
  end.

Definition chars (s : string) : list ascii := list_ascii_of_string s.

Definition str (l : list ascii) : string := string_of_list_ascii l.

Definition lower (s : string) : string := str (map lower_char (chars s)).

Definition upper (s : string) : string := str (map upper_char (chars s)).

(** [s.strip()] *)
Definition lstrip_chars (l : list ascii) : list ascii := drop_while is_space l.

Definition strip_chars (l : list ascii) : list ascii :=
  rev (lstrip_chars (rev (lstrip_chars l))).

Definition strip (s : string) : string := str (strip_chars (chars s)).

(** [s.startswith(p)] *)
Fixpoint starts_with (p l : list ascii) : bool :=
  match p, l with
  | [], _ => true
  | a :: p', b :: l' => bool_decide (a = b) && starts_with p' l'
  | _ :: _, [] => false
  end.

Definition startswith (s p : string) : bool := starts_with (chars p) (chars s).

(** [p in s] *)
Fixpoint contains_chars (p l : list ascii) : bool :=
  starts_with p l ||
  match l with
  | [] => false
  | _ :: l' => contains_chars p l'
  end.

Definition contains (p s : string) : bool := contains_chars (chars p) (chars s).

(** [s.isdigit()] (on code points below 256: the decimal digits and the
    superscripts one, two and three) *)
Definition isdigit (s : string) : bool :=
  match chars s with
  | [] => false
  | l => forallb (fun c => is_digit c || (code c =? 178)%N || (code c =? 179)%N
                           || (code c =? 185)%N) l
  end.

Definition digit_val (c : ascii) : Z := (Z.of_N (code c) - 48)%Z.

(** The natural number a run of decimal digits denotes. *)
Definition digits_val (l : list ascii) : Z :=
  fold_left (fun n c => (10 * n + digit_val c)%Z) l 0%Z.

(** [int(s)] for a string of word characters, which is all the patterns
    hand to it: decimal digits, with single underscores allowed between
    digits; otherwise [ValueError]. *)
Fixpoint int_digits (l : list ascii) (after_digit : bool) : bool :=
  match l with
  | [] => after_digit
  | c :: l' =>
      if is_digit c then int_digits l' true
      else if (code c =? 95)%N then after_digit && int_digits l' false
      else false
  end.

Definition int (s : string) : Res Z :=
  if int_digits (chars s) false
  then Ok (digits_val (filter (fun c => is_digit c = true) (chars s)))
  else Raise ValueError.

(** [float(s)] for a string of decimal digits and points, which is all
    [re.sub(r'[^\d.]', '', ...)] leaves: digits with at most one point
    and at least one digit; otherwise [ValueError]. *)
Definition float (s : string) : Res Q :=
  let l := chars s in
  let int_part := take_while is_digit l in
  let rest := drop_while is_digit l in
  match rest with
  | [] =>
      match int_part with
      | [] => Raise ValueError
      | _ => Ok (inject_Z (digits_val int_part))
      end
  | dot :: frac =>
      if bool_decide (dot = "."%char) && forallb is_digit frac
         && negb (bool_decide (int_part = []) && bool_decide (frac = []))
      then Ok (inject_Z (digits_val (int_part ++ frac))
               / inject_Z (10 ^ Z.of_nat (length frac)))
      else Raise ValueError
  end.

End Text.

(** ** Agents/financial_extractor.py: FinancialDataExtractor._convert_to_numeric *)

Module Normalizer.
Import Text.

(** [re.sub(r'[^\d.]', '', s)] *)
Definition keep_numeric (s : string) : string :=
  str (filter (fun c => is_digit c || bool_decide (c = "."%char) = true) (chars s)).

Definition _convert_to_numeric (value_str : string) : Res Q :=
  if bool_decide (value_str = ""%string) then mret 0
  else
    catch
      (let cleaned := keep_numeric (strip value_str) in
       if bool_decide (cleaned = ""%string) then mret 0
       else
         value ← float cleaned;
         if contains "trillion" (lower value_str) then
           mret (value * 1000000)
         else if contains "billion" (lower value_str)
                 || contains "bn" (lower value_str) then
           mret (value * 1000)
         else if contains "'000" value_str then
           div value 1000
         else
           mret value)
      ValueError
      (mret 0).

End Normalizer.

(** ** The fragment of Python's [re] the period patterns are written in *)

Module Regex.
Import Text.

(** Concatenation, character classes, greedy repetition of a class and
    capturing groups (not nested, so a group's number is its position). *)
Inductive re : Type :=
| Eps
| Cls (p : ascii -> bool)
| Cat (r1 r2 : re)
| Star (p : ascii -> bool)
| Group (r : re).

Definition captures : Type := list (list ascii).

(** Greedy [p*]: the longest run first, then shorter ones. *)
Fixpoint star {R} (p : ascii -> bool) (s : list ascii)
    (k : list ascii -> option R) : option R :=
  match s with
  | c :: s' =>
      if p c then
        match star p s' k with
        | Some x => Some x
        | None => k s
        end
      else k s
  | [] => k []
  end.

(** The backtracking matcher: [k] continues on the rest of the input
    with the groups closed so far. *)
Fixpoint run {R} (r : re) (s : list ascii) (cs : captures)
    (k : list ascii -> captures -> option R) : option R :=
  match r with
  | Eps => k s cs
  | Cls p =>
      match s with
      | c :: s' => if p c then k s' cs else None
      | [] => None
      end
  | Cat r1 r2 => run r1 s cs (fun s' cs' => run r2 s' cs' k)
  | Star p => star p s (fun s' => k s' cs)
  | Group r1 =>
      run r1 s cs
        (fun s' cs' => k s' (cs' ++ [take (length s - length s') s]))
  end.

(** A match anchored at the start of [s]: its groups and what follows. *)
Definition match_at (r : re) (s : list ascii) : option (captures * list ascii) :=
  run r s [] (fun s' cs => Some (cs, s')).

(** [re.search]: the leftmost match *)
Fixpoint search_chars (r : re) (s : list ascii) : option (captures * list ascii) :=
  match match_at r s with
  | Some m => Some m
  | None =>
      match s with
      | [] => None
      | _ :: s' => search_chars r s'
      end
  end.

(** [re.finditer]: the matches from left to right, not overlapping;
    [skip] counts the characters still covered by the last match. *)
Fixpoint finditer_chars (r : re) (s : list ascii) (skip : nat) : list captures :=
  match skip with
  | S n =>
      match s with
      | [] => []
      | _ :: s' => finditer_chars r s' n
      end
  | O =>
      match match_at r s with
      | Some (cs, rest) =>
          cs :: match s with
                | [] => []
                | _ :: s' => finditer_chars r s' (length s - length rest - 1)
                end
      | None =>
          match s with
          | [] => []
          | _ :: s' => finditer_chars r s' 0
          end
      end
  end.

(** [match.groups()] *)
Definition groups (cs : captures) : list string := map str cs.

Definition search (r : re) (text : string) : option (list string) :=
  match search_chars r (chars text) with
  | Some (cs, _) => Some (groups cs)
  | None => None
  end.

Definition finditer (r : re) (text : string) : list (list string) :=
  map groups (finditer_chars r (chars text) 0).

(** What a successful match is: [Matches r w cs] when the pattern [r]
    matches exactly the text [w], closing the groups [cs] in order. *)
Inductive Matches : re -> list ascii -> captures -> Prop :=
| Matches_eps : Matches Eps [] []
| Matches_cls p c : p c = true -> Matches (Cls p) [c] []
| Matches_cat r1 r2 w1 w2 cs1 cs2 :
    Matches r1 w1 cs1 -> Matches r2 w2 cs2 ->
    Matches (Cat r1 r2) (w1 ++ w2) (cs1 ++ cs2)
| Matches_star p w :
    Forall (fun c => p c = true) w -> Matches (Star p) w []
| Matches_group r w cs :
    Matches r w cs -> Matches (Group r) w (cs ++ [w]).

(** The number of groups of a pattern. *)
Fixpoint group_count (r : re) : nat :=
  match r with
  | Eps | Cls _ | Star _ => 0
  | Cat r1 r2 => group_count r1 + group_count r2
  | Group r1 => group_count r1 + 1
  end.

(** Pattern syntax, under [re.IGNORECASE]: a letter, a word, [\d],
    [\d{4}], [\s*], [\w+] and [Q[1-4]]. *)
Definition lit (c : ascii) : re :=
  Cls (fun x => bool_decide (lower_char x = lower_char c)).

Fixpoint word (l : list ascii) : re :=
  match l with
  | [] => Eps
  | c :: l' => Cat (lit c) (word l')
  end.

Definition digit : re := Cls is_digit.

Definition digit4 : re := Cat digit (Cat digit (Cat digit digit)).

Definition spaces : re := Star is_space.

Definition word_chars : re := Cat (Cls is_word) (Star is_word).

Definition quarter_token : re := Cat (lit "Q") (Cls (in_range 49 52)).

End Regex.

(** ** Period references in a query *)

Module Temporal.
Import Text Regex.

(** *** FinancialDataExtractor._extract_target_periods *)

(** [(Q[1-4])\s*(\d{4})] and [(\d{4})\s*(Q[1-4])] *)
Definition period_patterns : list re := [
  Cat (Group quarter_token) (Cat spaces (Group digit4));
  Cat (Group digit4) (Cat spaces (Group quarter_token))
].

(** The body of [for match in matches]: the period one match adds. *)
Definition period_of_match (match_groups : list string) : option string :=
  match match_groups with
  | [g1; g2] =>
      let quarter := if startswith (upper g1) "Q" then g1 else g2 in
      let year := if startswith (upper g1) "Q" then g2 else g1 in
      Some (year +:+ "_" +:+ upper quarter)
  | _ => None
  end.

(** [periods], as the two loops fill it. *)
Definition found_periods (query : string) : list string :=
  flat_map (fun pattern => omap period_of_match (finditer pattern query))
           period_patterns.

(** [list(set(l))]: the items of [l], each once.  Their order is the one
    in which the hash table of the set yields them; it depends on the
    hashes of the strings, which change from one run of the interpreter
    to the next, and the program does not fix it.  A listing
    [list_of_set] stands for it, and this is what is known of it. *)
Definition lists_the_set (list_of_set : list string -> list string) : Prop :=
  forall l, NoDup (list_of_set l) /\ forall x, x ∈ list_of_set l <-> x ∈ l.

Section TargetPeriods.

Variable list_of_set : list string -> list string.

(** [return list(set(periods))] *)
Definition _extract_target_periods (query : string) : list string :=
  list_of_set (found_periods query).

End TargetPeriods.

(** *** TemporalReasoningTool.parse_period_reference *)

Record pattern : Type := { source : string; compiled : re }.

Definition patterns : list pattern := [
  {| source := "(Q[1-4])\s*(\d{4})";
     compiled := Cat (Group quarter_token) (Cat spaces (Group digit4)) |};
  {| source := "(\d{4})\s*(Q[1-4])";
     compiled := Cat (Group digit4) (Cat spaces (Group quarter_token)) |};
  {| source := "(\w+)\s*quarter\s*(\d{4})";
     compiled := Cat (Group word_chars)
                   (Cat spaces (Cat (word (chars "quarter"))
                      (Cat spaces (Group digit4)))) |};
  {| source := "(\d{4})\s*(\w+)\s*quarter";
     compiled := Cat (Group digit4)
                   (Cat spaces (Cat (Group word_chars)
                      (Cat spaces (word (chars "quarter"))))) |};
  {| source := "(\d{4})\s*annual";
     compiled := Cat (Group digit4) (Cat spaces (word (chars "annual"))) |};
  {| source := "annual\s*(\d{4})";
     compiled := Cat (word (chars "annual")) (Cat spaces (Group digit4)) |}
].

(** The dictionary returned for a recognised reference.  Its [period]
    entry formats the enum member inside an f-string, whose text depends
    on the Python version; it is not modelled. *)
Record PeriodReference : Type := {
  ref_year : Z;
  ref_quarter : Quarter;
  ref_confidence : Q
}.

(** One iteration of [for pattern in patterns] after a match: [Some d]
    is [return d], [None] is [continue] (or falling off the body). *)
Definition handle_match (p : pattern) (match_groups : list string)
    : Res (option PeriodReference) :=
  if contains "annual" (source p) then
    g0 ← getitem match_groups 0;
    year_str ← (if isdigit g0 then mret g0 else getitem match_groups 1);
    catch
      (year ← int year_str;
       mret (Some {| ref_year := year; ref_quarter := ANNUAL;
                     ref_confidence := 0.9 |}))
      ValueError
      (mret None)
  else if (length match_groups =? 2)%nat then
    g0 ← getitem match_groups 0;
    quarter_str ← (if startswith (upper g0) "Q" then mret g0
                   else getitem match_groups 1);
    year_str ← (if startswith (upper g0) "Q" then getitem match_groups 1
                else mret g0);
    catch
      (year ← int year_str;
       quarter ← Quarter_of_value (upper quarter_str);
       mret (Some {| ref_year := year; ref_quarter := quarter;
                     ref_confidence := 0.9 |}))
      ValueError
      (mret None)
  else mret None.

Fixpoint try_patterns (ps : list pattern) (text : string)
    : Res (option PeriodReference) :=
  match ps with
  | [] => mret None
  | p :: ps' =>
      match search (compiled p) text with
      | Some match_groups =>
          r ← handle_match p match_groups;
          match r with
          | Some d => mret (Some d)
          | None => try_patterns ps' text
          end
      | None => try_patterns ps' text
      end
  end.

Definition parse_period_reference (text : string) : Res (option PeriodReference) :=
  try_patterns patterns text.

(** A quarter token the patterns accept: [Q] or [q] directly followed
    by one of the digits 1 to 4. *)
Definition valid_quarter_token (g : list ascii) : Prop :=
  exists q d, g = [q; d] /\ lower_char q = "q"%char /\ in_range 49 52 d = true.

(** The text contains such a token. *)
Fixpoint has_valid_quarter_token (s : list ascii) : bool :=
  match s with
  | q :: s' =>
      match s' with
      | d :: _ =>
          (bool_decide (lower_char q = "q"%char) && in_range 49 52 d)
          || has_valid_quarter_token s'
      | [] => false
      end
  | [] => false
  end.

End Temporal.

(** ** Agents/calculation_agent.py: CalculationAgent._group_data_by_period *)

Module Aggregator.

(** The body of [for dp in data_points]. *)
Definition group_step (grouped : gmap string (gmap FinancialMetric Q))
    (dp : FinancialDataPoint) : gmap string (gmap FinancialMetric Q) :=
  let period := period dp in
  let grouped :=
    match grouped !! period with
    | None => <[period := ∅]> grouped
    | Some _ => grouped
    end in
  alter (fun by_metric => <[metric dp := value dp]> by_metric) period grouped.

Definition _group_data_by_period (data_points : list FinancialDataPoint)
    : gmap string (gmap FinancialMetric Q) :=
  fold_left group_step data_points ∅.

(** [grouped[period][metric]], when both keys are there *)
Definition grouped_value (grouped : gmap string (gmap FinancialMetric Q))
    (period : string) (metric : FinancialMetric) : option Q :=
  by_metric ← grouped !! period; by_metric !! metric.

End Aggregator.

(** ** Agents/financial_extractor.py: FinancialDataExtractor, building data points *)

Module Extractor.
Import Validator Normalizer.

(** The keys of [self.metric_patterns], in order. *)
Definition metric_pattern_names : list string :=
  ["net_profit"; "shareholder_equity"; "total_assets"; "total_loans";
   "total_deposits"]%string.

(** An entry of a chunk's [extracted_metrics] dictionary; a key that is
    missing is [None]. *)
Record TableMetric : Type := {
  tm_value : option Q;
  tm_source : option string;
  tm_confidence : option Q
}.

(** A retrieved chunk, after [cleaned_metadata] has been built; of
    [raw_metadata] the two keys read later are kept. *)
Record Chunk : Type := {
  content : string;
  cleaned_metadata : DocumentMetadata;
  page_number : option Z;
  section_type : option string;
  extracted_metrics : list (string * TableMetric)
}.

(** The period key of a chunk. *)
Definition period_key (md : DocumentMetadata) : string :=
  match quarter md with
  | ANNUAL => pretty (year md) +:+ "_Annual"
  | q => pretty (year md) +:+ "_" +:+ Quarter_value q
  end.

(** The body of [for metric_name, metric_info in extracted_metrics.items()]:
    the data points it appends. *)
Definition table_metric_step (chunk : Chunk) (entry : string * TableMetric)
    : Res (list FinancialDataPoint) :=
  let '(metric_name, metric_info) := entry in
  let value := default 0 (tm_value metric_info) in
  let confidence := default 0.8 (tm_confidence metric_info) in
  validation ← validate_extraction metric_name value (year (cleaned_metadata chunk));
  if is_valid validation then
    catch_all
      (let final_confidence := max2 (Validator.confidence validation) confidence in
       metric ← FinancialMetric_of_value metric_name;
       data_point ← FinancialDataPoint_new metric value
         (pretty (year (cleaned_metadata chunk)) +:+ "_"
            +:+ Quarter_value (quarter (cleaned_metadata chunk)))
         (cleaned_metadata chunk)
         (default 1%Z (page_number chunk))
         (default "table"%string (section_type chunk))
         final_confidence;
       mret [data_point])
      (mret [])
  else mret [].

(** A loop that extends a list by what each iteration builds. *)
Fixpoint concat_results {A B} (f : A -> Res (list B)) (l : list A) : Res (list B) :=
  match l with
  | [] => mret []
  | a :: l' =>
      bs ← f a;
      bs' ← concat_results f l';
      mret (bs ++ bs')
  end.

Definition _extract_metrics_from_table_data (chunk : Chunk)
    : Res (list FinancialDataPoint) :=
  concat_results (table_metric_step chunk) (extracted_metrics chunk).

(** The body of [for match in matches], given [match.group(1)]. *)
Definition text_match_step (chunk : Chunk) (metric_name value_str : string)
    : Res (list FinancialDataPoint) :=
  numeric_value ← _convert_to_numeric value_str;
  if negb (eqb numeric_value 0) && ltb 0 numeric_value then
    validation ← validate_extraction metric_name numeric_value
                   (year (cleaned_metadata chunk));
    if is_valid validation then
      catch_all
        (metric ← FinancialMetric_of_value metric_name;
         data_point ← FinancialDataPoint_new metric numeric_value
           (period_key (cleaned_metadata chunk))
           (cleaned_metadata chunk)
           (default 1%Z (page_number chunk))
           (default "unknown"%string (section_type chunk))
           (Validator.confidence validation);
         mret [data_point])
        (mret [])
    else mret []
  else mret [].

Section Chunk.

(** [matched metric_name content]: for the patterns of
    [self.metric_patterns[metric_name]], in order, the text of group 1
    of every match [re.finditer] yields on [content]. *)
Variable matched : string -> string -> list string.

Definition _extract_metrics_from_chunk (chunk : Chunk)
    : Res (list FinancialDataPoint) :=
  table_metrics ←
    (match extracted_metrics chunk with
     | [] => mret []
     | _ :: _ => _extract_metrics_from_table_data chunk
     end);
  text_metrics ←
    concat_results
      (fun metric_name =>
         concat_results (text_match_step chunk metric_name)
           (matched metric_name (content chunk)))
      metric_pattern_names;
  mret (table_metrics ++ text_metrics).

End Chunk.

End Extractor.

(** ** Notions the properties are stated with *)

Module Spec.
Import Calculator.

(** *** Trends *)

(** The mathematical sum of a list. *)
Definition total (l : list Q) : Q := fold_right Qplus 0 l.

(** The arithmetic mean of a list. *)
Definition average (l : list Q) : Q := total l / inject_Z (Z.of_nat (length l)).

(** [i] is the position of the first least item of [l], which is [m]. *)
Definition first_min_at (l : list Q) (i : nat) (m : Q) : Prop :=
  l !! i = Some m /\
  (forall j v, (j < i)%nat -> l !! j = Some v -> m < v) /\
  (forall v, In v l -> m <= v).

(** [i] is the position of the first greatest item of [l], which is [m]. *)
Definition first_max_at (l : list Q) (i : nat) (m : Q) : Prop :=
  l !! i = Some m /\
  (forall j v, (j < i)%nat -> l !! j = Some v -> v < m) /\
  (forall v, In v l -> v <= m).

(** The growth of one step, in percent; a zero prior value gives 0. *)
Definition step_growth (prev cur g : Q) : Prop :=
  (prev == 0 -> g = 0) /\ (~ prev == 0 -> g = (cur - prev) / prev * 100).

(** [t] is the trend summary of [values] over [periods]. *)
Definition summarises (values : list Q) (periods : list string) (t : Trend) : Prop :=
  Calculator.values t = values /\
  Calculator.periods t = periods /\
  mean t == average values /\
  (exists i, first_min_at values i (min_value t) /\
             periods !! i = Some (min_period t)) /\
  (exists i, first_max_at values i (max_value t) /\
             periods !! i = Some (max_period t)) /\
  length (growth_rates t) = (length values - 1)%nat /\
  (forall i prev cur,
      values !! i = Some prev -> values !! (S i) = Some cur ->
      exists g, growth_rates t !! i = Some g /\ step_growth prev cur g) /\
  average_growth t == average (growth_rates t).

(** *** Values *)



(** *** Periods *)

(** The two patterns of [_extract_target_periods]: a quarter token and a
    four-digit year, in either order, with optional white space between. *)
Definition mention (q d : ascii) (ws year : list ascii) : Prop :=
  Text.lower_char q = "q"%char /\ Text.in_range 49 52 d = true /\
  Forall (fun c => Text.is_space c = true) ws /\
  length year = 4%nat /\ Forall (fun c => Text.is_digit c = true) year.


(** The period a mention stands for. *)
Definition period_text (year : list ascii) (d : ascii) : string :=
  Text.str year +:+ "_" +:+ Text.str ["Q"%char; d].



(** What [handle_match] can return on the groups [cs]: nothing, an
    annual reference, or a quarterly one read from a group that is a
    quarter token. *)
Definition acceptable (cs : Regex.captures) (r : option Temporal.PeriodReference)
    : Prop :=
  r = None \/
  (exists y, r = Some {| Temporal.ref_year := y;
                         Temporal.ref_quarter := ANNUAL;
                         Temporal.ref_confidence := 0.9 |}) \/
  (exists g, In g cs /\ Temporal.valid_quarter_token g).

(** *** Validation *)

(** The three outcomes of the range validator for a modelled metric. *)
Inductive Outcome : Set := table_cell_valid | main_financial_valid | invalid.

Definition outcome (r : Validator.ValidationResult) : option Outcome :=
  match Validator.is_valid r, Validator.value_type r with
  | true, Some Validator.table_cell => Some table_cell_valid
  | true, Some Validator.main_financial => Some main_financial_valid
  | false, _ => Some invalid
  | true, None => None
  end.

(** The midpoint of a band. *)
Definition midpoint (lo hi : Z) : Q := inject_Z (lo + hi) / 2.

(** *** Aggregation *)

(** The policy of the specification for several data points of one
    (period, metric) pair: retain the one of highest confidence, and of
    equally confident ones the most recently added. *)
Definition retained_by_confidence (data_points : list FinancialDataPoint)
    : option FinancialDataPoint :=
  fold_left
    (fun best dp =>
       match best with
       | None => Some dp
       | Some b =>
           if leb (Schemas.confidence b) (Schemas.confidence dp)
           then Some dp else Some b
       end)
    data_points None.

(** The data points of one (period, metric) pair, in the order given. *)
Definition with_key (p : string) (m : FinancialMetric)
    (data_points : list FinancialDataPoint) : list FinancialDataPoint :=
  filter (fun dp => period dp = p /\ metric dp = m) data_points.

End Spec.

(** ** Sample data *)

Module Sample.

Definition fab_2022 : DocumentMetadata :=
  {| bank := "FAB"; year := 2022; quarter := Q1; currency := "AED";
     units := "millions" |}.

(** A data point for (2022_Q1, net_profit). *)
Definition net_profit_2022_Q1 (v c : Q) : FinancialDataPoint :=
  {| metric := NET_PROFIT; value := v; period := "2022_Q1";
     metadata := fab_2022; source_page := 1; source_section := "income_statement";
     Schemas.confidence := c |}.

(** A chunk of the 2022 Q1 statement with the given table metrics and
    no text. *)
Definition table_chunk (metrics : list (string * Extractor.TableMetric))
    : Extractor.Chunk :=
  {| Extractor.content := "";
     Extractor.cleaned_metadata := fab_2022;
     Extractor.page_number := Some 3%Z;
     Extractor.section_type := Some "table"%string;
     Extractor.extracted_metrics := metrics |}.

End Sample.

(** ** tools/temporal_reasoning.py: get_previous_periods and compare_periods *)

Module PeriodTool.

#[global] Instance Quarter_eq_dec : EqDecision Quarter.
Proof. solve_decision. Defined.

(** A period dictionary, by the keys the code reads and writes; a key
    that is missing is [None]. *)
Record PeriodDict : Type := {
  pd_year : option Z;
  pd_quarter : option Quarter;
  pd_period : option string;
  pd_sequence : option Z
}.

(** [d[key]] *)
Definition getkey {A} (entry : option A) : Res A :=
  match entry with
  | Some a => Ok a
  | None => Raise KeyError
  end.

(** [l.index(v)] on a list of strings *)
Fixpoint str_index_from (l : list string) (v : string) (i : nat) : Res nat :=
  match l with
  | [] => Raise ValueError
  | x :: l' => if decide (x = v) then Ok i else str_index_from l' v (S i)
  end.

Definition str_index (l : list string) (v : string) : Res nat :=
  str_index_from l v 0.

(** [range(n)] *)
Definition range (n : Z) : list nat := seq 0 (Z.to_nat n).

Definition quarter_sequence : list string := ["Q4"; "Q3"; "Q2"; "Q1"]%string.

(** [for i in range(n_periods)], from the current year and quarter on. *)
Fixpoint previous_loop (rng : list nat) (current_year : Z)
    (current_quarter : Quarter) : Res (list PeriodDict) :=
  match rng with
  | [] => mret []
  | i :: rng' =>
      current_idx ← str_index quarter_sequence (Quarter_value current_quarter);
      prev ← (if (current_idx =? 3)%nat
              then mret ("Q4"%string, (current_year - 1)%Z)
              else prev_quarter ← getitem quarter_sequence (current_idx + 1);
                   mret (prev_quarter, current_year));
      let prev_quarter := prev.1 in
      let prev_year := prev.2 in
      quarter ← Quarter_of_value prev_quarter;
      let entry := {| pd_year := Some prev_year;
                      pd_quarter := Some quarter;
                      pd_period := Some (pretty prev_year +:+ "_" +:+ prev_quarter);
                      pd_sequence := Some (Z.of_nat i + 1)%Z |} in
      current_quarter' ← Quarter_of_value prev_quarter;
      periods ← previous_loop rng' prev_year current_quarter';
      mret (entry :: periods)
  end.

Definition get_previous_periods (year : Z) (quarter : Quarter) (n_periods : Z)
    : Res (list PeriodDict) :=
  previous_loop (range n_periods) year quarter.

Definition quarter_values : gmap string Z :=
  list_to_map [("Q1"%string, 1%Z); ("Q2"%string, 2%Z); ("Q3"%string, 3%Z);
               ("Q4"%string, 4%Z)].

Definition _get_quarter_difference (q1 q2 : Quarter) : Res Z :=
  v2 ← getkey (quarter_values !! Quarter_value q2);
  v1 ← getkey (quarter_values !! Quarter_value q1);
  mret (v2 - v1)%Z.

Record Comparison : Type := {
  period1 : PeriodDict;
  period2 : PeriodDict;
  relationship : string;
  year_difference : Z;
  quarter_difference : Z
}.

(** ['later' if n > 0 else 'earlier'] *)
Definition direction (n : Z) : string :=
  if (0 <? n)%Z then "later" else "earlier".

Definition compare_periods (period1 period2 : PeriodDict) : Res Comparison :=
  year1 ← getkey (pd_year period1);
  quarter1 ← getkey (pd_quarter period1);
  year2 ← getkey (pd_year period2);
  quarter2 ← getkey (pd_quarter period2);
  relationship ←
    (if (year1 =? year2)%Z then
       if decide (quarter1 = quarter2) then mret "same period"%string
       else
         quarter_diff ← _get_quarter_difference quarter1 quarter2;
         mret ("same year, " +:+ pretty (Z.abs quarter_diff) +:+ " quarter(s) "
                 +:+ direction quarter_diff)
     else
       let year_diff := (year2 - year1)%Z in
       quarter_diff ← _get_quarter_difference quarter1 quarter2;
       let total_quarters_diff := (year_diff * 4 + quarter_diff)%Z in
       mret (pretty (Z.abs year_diff) +:+ " year(s) and "
               +:+ pretty (Z.abs (total_quarters_diff mod 4)) +:+ " quarter(s) "
               +:+ direction total_quarters_diff));
  quarter_difference ← _get_quarter_difference quarter1 quarter2;
  mret {| period1 := period1;
          period2 := period2;
          relationship := relationship;
          year_difference := (year2 - year1)%Z;
          quarter_difference := quarter_difference |}.

(** The place of a quarter in its year, and of a quarterly period on the
    time line, counted in quarters. *)
Definition quarter_ordinal (q : Quarter) : Z :=
  match q with
  | Q1 => 1
  | Q2 => 2
  | Q3 => 3
  | Q4 => 4
  | ANNUAL => 0
  end.

Definition quarter_number (year : Z) (q : Quarter) : Z :=
  (4 * year + quarter_ordinal q)%Z.

(** The dictionary of a quarterly period with its two keys. *)
Definition quarterly (year : Z) (q : Quarter) : PeriodDict :=
  {| pd_year := Some year; pd_quarter := Some q; pd_period := None;
     pd_sequence := None |}.

(** A dictionary with a year and with a quarter of the year. *)
Definition is_quarterly (p : PeriodDict) : Prop :=
  exists y q, pd_year p = Some y /\ pd_quarter p = Some q /\ q <> ANNUAL.

(** The direction word for two quarterly periods in time order. *)
Definition chronological (y1 : Z) (q1 : Quarter) (y2 : Z) (q2 : Quarter) : string :=
  if decide (quarter_number y1 q1 < quarter_number y2 q2)%Z
  then "later" else "earlier".

End PeriodTool.

(** ** Agents/temporal_analyzer.py: TemporalAnalysisAgent *)

From stdpp Require sorting.

Module TemporalAnalyzer.
Import Text Regex Temporal PeriodTool.

(** [a <= b] on strings: by code points, a proper prefix first. *)
Definition str_le (a b : string) : Prop := String.leb a b = true.

#[global] Instance str_le_dec : RelDecision str_le.
Proof. intros a b. unfold str_le. apply _. Defined.

(** [sorted(l)] for a list of strings *)
Definition sorted (l : list string) : list string := sorting.merge_sort str_le l.

(** [d.keys()], in some order *)
Definition keys {V} (d : gmap string V) : list string := (map_to_list d).*1.

(** The body of [for dp in data_points]; the inner key is
    [dp.metric.value]. *)
Definition group_step (grouped : gmap string (gmap string Q))
    (dp : FinancialDataPoint) : gmap string (gmap string Q) :=
  let period := period dp in
  let grouped :=
    match grouped !! period with
    | None => <[period := ∅]> grouped
    | Some _ => grouped
    end in
  alter (fun by_metric => <[FinancialMetric_value (metric dp) := value dp]> by_metric)
        period grouped.

Definition _group_data_by_period (data_points : list FinancialDataPoint)
    : gmap string (gmap string Q) :=
  fold_left group_step data_points ∅.

(** An entry of the list [_extract_temporal_references] returns: the
    dictionary of [parse_period_reference], or
    [{"type": "relative_quarters", "value": n, "direction": "past"}]. *)
Inductive TemporalRef : Type :=
| ExplicitRef (r : PeriodReference)
| RelativeQuarters (value : Z).

(** Pattern syntax without flags: a letter as it is, a word, [\s+], [\d+]. *)
Definition exact (c : ascii) : re := Cls (fun x => bool_decide (x = c)).

Fixpoint exact_word (l : list ascii) : re :=
  match l with
  | [] => Eps
  | c :: l' => Cat (exact c) (exact_word l')
  end.

Definition spaces1 : re := Cat (Cls is_space) (Star is_space).

Definition digits1 : re := Cat (Cls is_digit) (Star is_digit).

(** [last\s+(\d+)\s+quarters?].  The final [s?] matches one [s] or
    nothing, so it decides neither whether nor where the pattern
    matches, nor what group 1 is; it is left out. *)
Definition relative_pattern : re :=
  Cat (exact_word (chars "last"))
    (Cat spaces1 (Cat (Group digits1) (Cat spaces1 (exact_word (chars "quarter"))))).

Definition _extract_temporal_references (query : string) : Res (list TemporalRef) :=
  primary_ref ← parse_period_reference query;
  let temporal_refs :=
    match primary_ref with
    | Some r => [ExplicitRef r]
    | None => []
    end in
  let query_lower := lower query in
  if contains "last" query_lower && contains "quarter" query_lower then
    match search relative_pattern query_lower with
    | Some match_groups =>
        group1 ← getitem match_groups 0;
        n_quarters ← int group1;
        mret (temporal_refs ++ [RelativeQuarters n_quarters])
    | None => mret temporal_refs
    end
  else mret temporal_refs.

Record MetricChange : Type := {
  absolute_change : Q;
  percentage_change : Q;
  trend : string
}.

Record PeriodComparison : Type := {
  cmp_period1 : string;
  cmp_period2 : string;
  cmp_relationship : Comparison;
  metric_changes : gmap string MetricChange
}.

(** [{"period": period}] *)
Definition period_only (period : string) : PeriodDict :=
  {| pd_year := None; pd_quarter := None; pd_period := Some period;
     pd_sequence := None |}.

(** The loop over the common metrics of two periods: the entry of
    [metric_changes] for a metric both have, if it gets one. *)
Definition metric_change (old_val new_val : Q) : option MetricChange :=
  if negb (Py.eqb old_val 0) then
    let percentage_change := (new_val - old_val) / old_val * 100 in
    Some {| absolute_change := new_val - old_val;
            percentage_change := percentage_change;
            trend := if Py.ltb 0 percentage_change then "increasing" else "decreasing" |}
  else None.

Definition common_metric_changes (metrics1 metrics2 : gmap string Q)
    : gmap string MetricChange :=
  merge (fun old new =>
           match old, new with
           | Some old_val, Some new_val => metric_change old_val new_val
           | _, _ => None
           end) metrics1 metrics2.

(** [for i in range(len(periods) - 1)] *)
Fixpoint compare_loop (data_by_period : gmap string (gmap string Q))
    (periods : list string) (rng : list nat) : Res (list PeriodComparison) :=
  match rng with
  | [] => mret []
  | i :: rng' =>
      period1 ← getitem periods i;
      period2 ← getitem periods (i + 1);
      relationship ← compare_periods (period_only period1) (period_only period2);
      metrics1 ← getkey (data_by_period !! period1);
      metrics2 ← getkey (data_by_period !! period2);
      let comparison := {| cmp_period1 := period1;
                           cmp_period2 := period2;
                           cmp_relationship := relationship;
                           metric_changes := common_metric_changes metrics1 metrics2 |} in
      comparisons ← compare_loop data_by_period periods rng';
      mret (comparison :: comparisons)
  end.

Definition _compare_periods (data_by_period : gmap string (gmap string Q))
    : Res (list PeriodComparison) :=
  let periods := sorted (keys data_by_period) in
  compare_loop data_by_period periods (seq 0 (length periods - 1)).

Record MetricTrend : Type := {
  direction : string;
  total_change_percentage : Q;
  periods_analyzed : nat;
  mt_values : list Q;
  mt_periods : list string
}.

(** [for period in periods: if metric in data_by_period[period]: ...]:
    the periods that have the metric, with its values. *)
Definition metric_series (data_by_period : gmap string (gmap string Q))
    (periods : list string) (metric : string) : list (string * Q) :=
  omap (fun period =>
          metrics ← data_by_period !! period;
          v ← metrics !! metric;
          Some (period, v)) periods.

(** The body of the loop over the metrics: the entry [trends[metric]],
    when there is one. *)
Definition metric_trend (data_by_period : gmap string (gmap string Q))
    (periods : list string) (metric : string) : option MetricTrend :=
  let series := metric_series data_by_period periods metric in
  let values := series.*2 in
  let valid_periods := series.*1 in
  match values with
  | first :: _ :: _ =>
      let last := List.last values first in
      let trend_direction :=
        if Py.ltb first last then "upward"
        else if Py.ltb last first then "downward"
        else "stable" in
      let total_change :=
        if negb (Py.eqb first 0) then (last - first) / first * 100 else 0 in
      Some {| direction := trend_direction;
              total_change_percentage := total_change;
              periods_analyzed := length values;
              mt_values := values;
              mt_periods := valid_periods |}
  | _ => None
  end.

(** The union of [set(period_data.keys())] over [data_by_period.values()] *)
Definition all_metrics (data_by_period : gmap string (gmap string Q)) : gset string :=
  map_fold (fun _ period_data metrics => dom period_data ∪ metrics) ∅ data_by_period.

Definition _calculate_metric_trends (data_by_period : gmap string (gmap string Q))
    : gmap string MetricTrend :=
  let periods := sorted (keys data_by_period) in
  set_fold (fun metric trends =>
              match metric_trend data_by_period periods metric with
              | Some t => <[metric := t]> trends
              | None => trends
              end) ∅ (all_metrics data_by_period).

(** [data_by_period[period][metric]], when both keys are there *)
Definition value_at (data_by_period : gmap string (gmap string Q))
    (period metric : string) : option Q :=
  data_by_period !! period ≫= (fun metrics => metrics !! metric).

(** [a < b] on strings *)
Definition str_lt (a b : string) : Prop := str_le a b /\ a <> b.

(** The dictionary [analyze] returns; [seasonal_patterns] is never filled. *)
Record Analysis : Type := {
  period_comparisons : list PeriodComparison;
  trends : gmap string MetricTrend;
  seasonal_patterns : list string;
  query_temporal_context : list TemporalRef
}.

Definition analyze (data_points : list FinancialDataPoint) (query : string)
    : Res Analysis :=
  let data_by_period := _group_data_by_period data_points in
  temporal_refs ← _extract_temporal_references query;
  if (2 <=? size data_by_period)%nat then
    comparisons ← _compare_periods data_by_period;
    mret {| period_comparisons := comparisons;
            trends := _calculate_metric_trends data_by_period;
            seasonal_patterns := [];
            query_temporal_context := temporal_refs |}
  else
    mret {| period_comparisons := [];
            trends := ∅;
            seasonal_patterns := [];
            query_temporal_context := temporal_refs |}.

End TemporalAnalyzer.

(** ** Agents/calculation_agent.py: the calculations of CalculationAgent *)

Module CalcAgent.
Import Text Calculator.

(** [data_by_period] with the order a Python dictionary keeps: the keys
    in the order in which they were first inserted.  The inner
    dictionaries are only looked up by key.
    ([Aggregator._group_data_by_period] is this mapping without the
    order.) *)
Definition Grouped : Type := list (string * gmap FinancialMetric Q).

(** [period in grouped] *)
Definition has_key (grouped : Grouped) (period : string) : bool :=
  bool_decide (period ∈ grouped.*1).

(** [grouped[period][metric] = value], for a key that is there *)
Fixpoint set_value (grouped : Grouped) (period : string) (metric : FinancialMetric)
    (value : Q) : Grouped :=
  match grouped with
  | [] => []
  | (p, by_metric) :: grouped' =>
      if decide (p = period) then (p, <[metric := value]> by_metric) :: grouped'
      else (p, by_metric) :: set_value grouped' period metric value
  end.

(** The body of [for dp in data_points]. *)
Definition group_step (grouped : Grouped) (dp : FinancialDataPoint) : Grouped :=
  let period := period dp in
  let grouped :=
    if has_key grouped period then grouped else grouped ++ [(period, ∅)] in
  set_value grouped period (metric dp) (value dp).

Definition _group_data_by_period (data_points : list FinancialDataPoint) : Grouped :=
  fold_left group_step data_points [].

(** [grouped[period]], when the key is there *)
Definition group_of (grouped : Grouped) (period : string)
    : option (gmap FinancialMetric Q) :=
  snd <$> find (fun item => bool_decide (item.1 = period)) grouped.

(** An entry of the list the agent returns: a dictionary of the
    calculator, as it is or copied with the keys the agent adds. *)
Record Calculation : Type := {
  result : CalcResult;
  calc_metric : option string;
  calc_description : option string;
  calc_periods : option (list string)
}.

Definition plain (r : CalcResult) : Calculation :=
  {| result := r; calc_metric := None; calc_description := None;
     calc_periods := None |}.

(** [roe_result['roe_percentage']] *)
Definition roe_percentage_of (r : CalcResult) : Res Q :=
  match r with
  | Roe _ _ roe_percentage => Ok roe_percentage
  | _ => Raise KeyError
  end.

(** [ldr_result['ldr_percentage']] *)
Definition ldr_percentage_of (r : CalcResult) : Res Q :=
  match r with
  | LoanToDeposit _ _ ldr_percentage => Ok ldr_percentage
  | _ => Raise KeyError
  end.

(** [for period, metrics in data_by_period.items()] of
    [_calculate_roe_trend]: the three lists it fills. *)
Fixpoint roe_loop (items : Grouped)
    : Calc (list Calculation * list Q * list string) :=
  match items with
  | [] => mret ([], [], [])
  | (period, metrics) :: items' =>
      match metrics !! NET_PROFIT, metrics !! SHAREHOLDER_EQUITY with
      | Some net_profit, Some shareholder_equity =>
          roe_result ← calculate_roe net_profit shareholder_equity;
          roe ← lift (roe_percentage_of roe_result);
          rest ← roe_loop items';
          mret (plain roe_result :: rest.1.1, roe :: rest.1.2, period :: rest.2)
      | _, _ => roe_loop items'
      end
  end.

Definition _calculate_roe_trend (data_by_period : Grouped) : Calc (list Calculation) :=
  lists ← roe_loop data_by_period;
  let calculations := lists.1.1 in
  let roe_values := lists.1.2 in
  let periods := lists.2 in
  if (1 <? length roe_values)%nat then
    trend_result ← calculate_trend roe_values periods;
    mret (calculations ++
            [{| result := trend_result;
                calc_metric := Some "roe_trend"%string;
                calc_description := Some "Return on Equity trend analysis"%string;
                calc_periods := None |}])
  else mret calculations.

Fixpoint ldr_loop (items : Grouped)
    : Calc (list Calculation * list Q * list string) :=
  match items with
  | [] => mret ([], [], [])
  | (period, metrics) :: items' =>
      match metrics !! TOTAL_LOANS, metrics !! TOTAL_DEPOSITS with
      | Some total_loans, Some total_deposits =>
          ldr_result ← calculate_loan_to_deposit total_loans total_deposits;
          ldr ← lift (ldr_percentage_of ldr_result);
          rest ← ldr_loop items';
          mret (plain ldr_result :: rest.1.1, ldr :: rest.1.2, period :: rest.2)
      | _, _ => ldr_loop items'
      end
  end.

Definition _calculate_ldr_trend (data_by_period : Grouped) : Calc (list Calculation) :=
  lists ← ldr_loop data_by_period;
  let calculations := lists.1.1 in
  let ldr_values := lists.1.2 in
  let periods := lists.2 in
  if (1 <? length ldr_values)%nat then
    trend_result ← calculate_trend ldr_values periods;
    mret (calculations ++
            [{| result := trend_result;
                calc_metric := Some "ldr_trend"%string;
                calc_description := Some "Loan-to-Deposit ratio trend analysis"%string;
                calc_periods := None |}])
  else mret calculations.

(** [a <= b] on the items of a dictionary: the keys decide, since no two
    items have the same key. *)
Definition item_le (a b : string * gmap FinancialMetric Q) : Prop :=
  TemporalAnalyzer.str_le a.1 b.1.

#[global] Instance item_le_dec : RelDecision item_le.
Proof. intros a b. unfold item_le. apply _. Defined.

(** [sorted(data_by_period.items())] *)
Definition sorted_items (data_by_period : Grouped) : Grouped :=
  sorting.merge_sort item_le data_by_period.

(** [s.replace(old, new)] for single characters *)
Definition replace_char (old new : ascii) (s : string) : string :=
  str (map (fun c => if decide (c = old) then new else c) (chars s)).

(** [s.title()] for ASCII text: a letter is put in upper case after a
    character that is not a letter, in lower case after a letter. *)
Definition is_letter (c : ascii) : bool := in_range 65 90 c || in_range 97 122 c.

Fixpoint title_chars (after_letter : bool) (l : list ascii) : list ascii :=
  match l with
  | [] => []
  | c :: l' =>
      (if is_letter c
       then if after_letter then lower_char c else upper_char c
       else c) :: title_chars (is_letter c) l'
  end.

Definition title (s : string) : string := str (title_chars false (chars s)).

(** [name in metrics] and [metrics[name]] for a string: a member of
    [FinancialMetric] is equal to its value and hashes like it. *)
Definition lookup_name (metrics : gmap FinancialMetric Q) (name : string) : option Q :=
  FinancialMetric_lookup name ≫= fun m => metrics !! m.

(** [for period, metrics in sorted(data_by_period.items()): if name in
    metrics: ...]: the periods that have the metric, with its values. *)
Definition series (data_by_period : Grouped) (name : string) : list (string * Q) :=
  omap (fun item => v ← lookup_name item.2 name; Some (item.1, v))
       (sorted_items data_by_period).

(** [l[-1]] *)
Definition getlast {A} (l : list A) : Res A :=
  match last l with
  | Some a => Ok a
  | None => Raise IndexError
  end.

(** The metric the query names, if any: the first of the four. *)
Definition target_metric_of (query : string) : option string :=
  find (fun metric => contains (replace_char "_" " " metric) (lower query))
       ["net_profit"; "total_assets"; "total_loans"; "total_deposits"]%string.

(** [for i in range(1, len(values))] of [_calculate_growth_rates] *)
Fixpoint sequential_loop (target_metric : string) (values : list Q)
    (periods : list string) (rng : list nat) : Calc (list Calculation) :=
  match rng with
  | [] => mret []
  | i :: rng' =>
      old_value ← lift (getitem values (i - 1));
      new_value ← lift (getitem values i);
      growth_result ← calculate_percentage_change old_value new_value;
      period1 ← lift (getitem periods (i - 1));
      period2 ← lift (getitem periods i);
      rest ← sequential_loop target_metric values periods rng';
      mret ({| result := growth_result;
               calc_metric := Some (target_metric +:+ "_sequential_growth");
               calc_description := None;
               calc_periods := Some [period1; period2] |} :: rest)
  end.

Definition _calculate_growth_rates (data_by_period : Grouped) (query : string)
    : Calc (list Calculation) :=
  match target_metric_of query with
  | Some target_metric =>
      let found := series data_by_period target_metric in
      let values := found.*2 in
      let periods := found.*1 in
      if (2 <=? length values)%nat then
        yoy ←
          (if contains "year" (lower query) && (2 <=? length values)%nat then
             old_value ← lift (getitem values 0);
             new_value ← lift (getlast values);
             growth_result ← calculate_percentage_change old_value new_value;
             period1 ← lift (getitem periods 0);
             period2 ← lift (getlast periods);
             mret [{| result := growth_result;
                      calc_metric := Some (target_metric +:+ "_yoy_growth");
                      calc_description := None;
                      calc_periods := Some [period1; period2] |}]
           else mret []);
        sequential ← sequential_loop target_metric values periods
                       (seq 1 (length values - 1));
        mret (yoy ++ sequential)
      else mret []
  | None => mret []
  end.

Definition key_metrics : list string :=
  ["net_profit"; "total_assets"; "total_loans"; "total_deposits"]%string.

(** [for metric in key_metrics] of [_calculate_comprehensive_trends] *)
Fixpoint trends_loop (data_by_period : Grouped) (metrics : list string)
    : Calc (list Calculation) :=
  match metrics with
  | [] => mret []
  | metric :: metrics' =>
      let found := series data_by_period metric in
      let values := found.*2 in
      let periods := found.*1 in
      calculations ←
        (if (1 <? length values)%nat then
           trend_result ← calculate_trend values periods;
           mret [{| result := trend_result;
                    calc_metric := Some (metric +:+ "_trend");
                    calc_description :=
                      Some (title (replace_char "_" " " metric) +:+ " trend analysis");
                    calc_periods := None |}]
         else mret []);
      rest ← trends_loop data_by_period metrics';
      mret (calculations ++ rest)
  end.

Definition _calculate_comprehensive_trends (data_by_period : Grouped)
    : Calc (list Calculation) :=
  trends_loop data_by_period key_metrics.

Definition perform_calculations (data_points : list FinancialDataPoint)
    (query : string) : Calc (list Calculation) :=
  let data_by_period := _group_data_by_period data_points in
  roe ← (if contains "roe" (lower query) || contains "return on equity" (lower query)
         then _calculate_roe_trend data_by_period else mret []);
  ldr ← (if contains "loan-to-deposit" (lower query) || contains "ldr" (lower query)
         then _calculate_ldr_trend data_by_period else mret []);
  growth ← (if contains "percentage change" (lower query)
               || contains "growth" (lower query)
            then _calculate_growth_rates data_by_period query else mret []);
  trends ← (if contains "trend" (lower query)
            then _calculate_comprehensive_trends data_by_period else mret []);
  mret (roe ++ ldr ++ growth ++ trends).

(** *** Notions the properties of the agent are stated with *)

(** The first occurrences of the items of a list, in order. *)
Fixpoint first_occurrences (seen l : list string) : list string :=
  match l with
  | [] => []
  | x :: l' =>
      if bool_decide (x ∈ seen) then first_occurrences seen l'
      else x :: first_occurrences (x :: seen) l'
  end.

(** The periods that have both metrics, in the order of the dictionary,
    with the two values. *)
Definition with_both (numerator denominator : FinancialMetric) (items : Grouped)
    : list (string * Q * Q) :=
  omap (fun item =>
          n ← item.2 !! numerator;
          d ← item.2 !! denominator;
          Some (item.1, n, d)) items.

(** The ratio in percent. *)
Definition percent (x : string * Q * Q) : Q := x.1.2 / x.2 * 100.

(** The dictionary of the ratio of such a period. *)
Definition ratio_of (ratio : Q -> Q -> Q -> CalcResult) (x : string * Q * Q)
    : CalcResult :=
  ratio x.1.2 x.2 (percent x).

(** The entry the agent adds for a trend. *)
Definition trend_entry (t : Trend) (metric description : string) : Calculation :=
  {| result := TrendAnalysis t;
     calc_metric := Some metric;
     calc_description := Some description;
     calc_periods := None |}.

(** What [calculate_percentage_change] returns. *)
Definition change_result (old_value new_value : Q) : CalcResult :=
  if Py.eqb old_value 0
  then ErrorResult "Cannot calculate percentage change from zero"
  else PercentageChange old_value new_value (new_value - old_value)
         ((new_value - old_value) / old_value * 100).

(** The entry for the growth from one point of a series to another. *)
Definition growth_entry (metric : string) (a b : string * Q) : Calculation :=
  {| result := change_result a.2 b.2;
     calc_metric := Some metric;
     calc_description := None;
     calc_periods := Some [a.1; b.1] |}.

End CalcAgent.

(** ** data_processing/table_metrics.py: TableMetricsExtractor *)

Module TableMetrics.
Import Text.

(** [self.metric_mapping], in the order of its keys *)
Definition metric_mapping : list (string * list string) := [
  ("net_profit", ["net profit"; "profit for the"; "net income"; "profit after"]);
  ("total_assets", ["total assets"; "assets total"]);
  ("total_loans", ["total loans"; "loans and advances"; "net loans"]);
  ("total_deposits", ["total deposits"; "customer deposits"; "deposits"]);
  ("shareholder_equity", ["total equity"; "shareholders equity"; "equity"]);
  ("net_interest_income", ["net interest income"; "interest income net"])
]%string.

(** [re.match(r'^[...]+$', s)] for a character class: a run of characters
    of the class from the start, at least one, up to the end of [s] or
    up to a newline that ends [s]. *)
Definition match_class (p : ascii -> bool) (s : string) : bool :=
  let run := take_while p (chars s) in
  let rest := drop_while p (chars s) in
  negb (bool_decide (run = []))
  && (bool_decide (rest = []) || bool_decide (rest = [ascii_of_N 10])).

(** [[\d,.\-()=]] *)
Definition numeric_class (c : ascii) : bool :=
  is_digit c || bool_decide (c = ","%char) || bool_decide (c = "."%char)
  || bool_decide (c = "-"%char) || bool_decide (c = "("%char)
  || bool_decide (c = ")"%char) || bool_decide (c = "="%char).

(** [[\d,.\s]] *)
Definition value_class (c : ascii) : bool :=
  is_digit c || bool_decide (c = ","%char) || bool_decide (c = "."%char)
  || is_space c.

Definition _is_numeric_only (text : string) : bool :=
  match_class numeric_class (strip text).

(** A cell of a table is a string or [None]. *)
Definition _is_financial_value (cell : option string) : bool :=
  match cell with
  | None => false
  | Some s =>
      if bool_decide (s = ""%string) then false
      else
        let cell_str := strip s in
        if match_class value_class cell_str then
          let cleaned := Normalizer.keep_numeric cell_str in
          if negb (bool_decide (cleaned = ""%string)) && contains "." cleaned then true
          else if negb (bool_decide (cleaned = ""%string))
                  && (3 <=? String.length cleaned)%nat then true
          else false
        else false
  end.

(** [Some value] is [return value] inside the [try], [None] is falling
    through to [return 0.0]. *)
Definition _convert_to_numeric (value_str : string) : Res Q :=
  returned ← catch
               (let cleaned := Normalizer.keep_numeric value_str in
                if negb (bool_decide (cleaned = ""%string)) then
                  value ← float cleaned;
                  mret (Some value)
                else mret None)
               ValueError
               (mret None);
  match returned with
  | Some value => mret value
  | None => mret 0
  end.

(** An entry of the dictionary the extractor returns. *)
Record MetricInfo : Type := {
  value : Q;
  source : string;
  row_description : string;
  confidence : Q
}.

(** The dictionary, with the order of its keys. *)
Definition Metrics : Type := list (string * MetricInfo).

(** [metrics[key] = info]: a new key goes to the end, a key that is
    there keeps its place. *)
Definition set_item (metrics : Metrics) (key : string) (info : MetricInfo) : Metrics :=
  if bool_decide (key ∈ metrics.*1)
  then (fun item => if decide (item.1 = key) then (key, info) else item) <$> metrics
  else metrics ++ [(key, info)].

(** The loop over the first [min(3, len(row))] cells: the description of
    the row, or [""]. *)
Fixpoint find_description (cells : list (option string)) : string :=
  match cells with
  | [] => ""
  | cell :: cells' =>
      match cell with
      | Some s =>
          if negb (bool_decide (s = ""%string)) then
            let cell_text := lower (strip s) in
            if (3 <? String.length cell_text)%nat && negb (_is_numeric_only cell_text)
            then cell_text
            else find_description cells'
          else find_description cells'
      | None => find_description cells'
      end
  end.

(** [for pattern in patterns: if pattern in row_description: ...; break] *)
Definition matches (description : string) (patterns : list string) : bool :=
  existsb (fun pattern => contains pattern description) patterns.

(** [for metric_name, patterns in self.metric_mapping.items()] *)
Definition record_value (table_type description : string) (numeric_value : Q)
    (metrics : Metrics) : Metrics :=
  fold_left
    (fun metrics entry =>
       if matches description entry.2
       then set_item metrics entry.1
              {| value := numeric_value;
                 source := "table_" +:+ table_type;
                 row_description := description;
                 confidence := 0.7 |}
       else metrics)
    metric_mapping metrics.

(** The body of [for col_idx, cell in enumerate(row)]. *)
Definition cell_step (table_type description : string) (metrics : Metrics)
    (cell : option string) : Res Metrics :=
  match cell with
  | Some s =>
      if negb (bool_decide (s = ""%string)) && _is_financial_value cell then
        numeric_value ← _convert_to_numeric s;
        if negb (Py.eqb numeric_value 0) && Py.ltb 0 numeric_value
        then mret (record_value table_type description numeric_value metrics)
        else mret metrics
      else mret metrics
  | None => mret metrics
  end.

Fixpoint cells_loop (table_type description : string) (metrics : Metrics)
    (cells : list (option string)) : Res Metrics :=
  match cells with
  | [] => mret metrics
  | cell :: cells' =>
      metrics' ← cell_step table_type description metrics cell;
      cells_loop table_type description metrics' cells'
  end.

(** The body of [for row_idx, row in enumerate(table_data)]. *)
Definition row_step (table_type : string) (metrics : Metrics)
    (row : list (option string)) : Res Metrics :=
  match row with
  | [] => mret metrics
  | _ :: _ =>
      let description := find_description (take 3 row) in
      if bool_decide (description = ""%string) then mret metrics
      else cells_loop table_type description metrics row
  end.

Fixpoint rows_loop (table_type : string) (metrics : Metrics)
    (rows : list (list (option string))) : Res Metrics :=
  match rows with
  | [] => mret metrics
  | row :: rows' =>
      metrics' ← row_step table_type metrics row;
      rows_loop table_type metrics' rows'
  end.

Definition extract_metrics_from_table_data (table_data : list (list (option string)))
    (table_type : string) : Res Metrics :=
  if bool_decide (table_data = []) || (length table_data <? 2)%nat then mret []
  else rows_loop table_type [] table_data.

(** *** Notions the properties are stated with *)

(** The entry of [extracted_metrics] a chunk carries for an entry of the
    extractor. *)
Definition as_table_metric (info : MetricInfo) : Extractor.TableMetric :=
  {| Extractor.tm_value := Some (value info);
     Extractor.tm_source := Some (source info);
     Extractor.tm_confidence := Some (confidence info) |}.

(** The values of the cells of a row that are recorded: those of the
    cells that look like a financial value and convert to a positive
    number. *)
Definition recorded_value (cell : option string) : option Q :=
  match cell with
  | Some s =>
      if negb (bool_decide (s = ""%string)) && _is_financial_value cell then
        match _convert_to_numeric s with
        | Ok v => if negb (Py.eqb v 0) && Py.ltb 0 v then Some v else None
        | Raise _ => None
        end
      else None
  | None => None
  end.

(** [metrics[key]], when the key is there *)
Definition item_of (metrics : Metrics) (key : string) : option MetricInfo :=
  snd <$> find (fun item => bool_decide (item.1 = key)) metrics.

(** What the extractor can put under a key: a positive value of a row
    whose description has one of the patterns of that metric. *)
Definition produced (table_type : string) (item : string * MetricInfo) : Prop :=
  (exists patterns,
     (item.1, patterns) ∈ metric_mapping /\
     matches (row_description item.2) patterns = true) /\
  0 < value item.2 /\
  confidence item.2 = 0.7 /\
  source item.2 = "table_" +:+ table_type.

End TableMetrics.

(** ** Agents/orchestrator.py: the query classifier and the routing *)

Module Orchestrator.
Import Text.

Inductive QueryType : Set :=
| SINGLE_FACT
| MULTI_HOP
| CALCULATION
| TEMPORAL_COMPARISON
| RISK_ANALYSIS
| TREND_ANALYSIS.

(** [any(word in text for word in words)] *)
Definition any_in (words : list string) (text : string) : bool :=
  existsb (fun word => contains word text) words.

Definition classify (query : string) : QueryType :=
  let query_lower := lower query in
  if any_in ["calculate"; "ratio"; "percentage"; "growth rate"] query_lower
  then CALCULATION
  else if any_in ["trend"; "over time"; "last"; "previous"] query_lower
  then TREND_ANALYSIS
  else if any_in ["compare"; "vs"; "versus"; "difference"] query_lower
  then TEMPORAL_COMPARISON
  else if any_in ["risk"; "factors"; "challenges"] query_lower
  then RISK_ANALYSIS
  else if any_in ["how"; "why"; "explain"; "factors"] query_lower
  then MULTI_HOP
  else SINGLE_FACT.

(** The fields of [WorkflowState] the routing reads. *)
Record WorkflowState : Type := {
  query : string;
  query_type : option QueryType;
  error : option string;
  iteration_count : Z
}.

(** The truth value of an [Optional[str]] *)
Definition truthy (s : option string) : bool :=
  match s with
  | Some s => negb (bool_decide (s = ""%string))
  | None => false
  end.

Definition route_after_extraction (state : WorkflowState) : string :=
  match query_type state with
  | Some CALCULATION | Some TREND_ANALYSIS => "calculations"
  | Some TEMPORAL_COMPARISON => "temporal"
  | Some RISK_ANALYSIS => "risks"
  | _ => "synthesis"
  end.

Definition final_validation (state : WorkflowState) : string :=
  if truthy (error state) || (3 <=? iteration_count state)%Z then "approve"
  else if negb (truthy (error state)) then "approve" else "retry".

(** [classify_query]: the state after the first node. *)
Definition classify_query (state : WorkflowState) : WorkflowState :=
  {| query := query state;
     query_type := Some (classify (query state));
     error := error state;
     iteration_count := iteration_count state |}.

End Orchestrator.

(** ** Agents/financial_extractor.py: FinancialDataExtractor._clean_pages_value *)

Module Pages.
Import Text.

(** A value of the [pages] entry of the metadata: [None], a string, an
    integer, or something else, which the code passes on as it is. *)
Inductive PagesValue : Type :=
| PNone
| PStr (s : string)
| PInt (n : Z)
| POther (repr : string).

Definition _clean_pages_value (pages_value : PagesValue) : Res PagesValue :=
  match pages_value with
  | PNone => mret PNone
  | PStr s =>
      if bool_decide (s = ""%string) then mret PNone
      else if isdigit s then n ← int s; mret (PInt n)
      else mret (PStr s)
  | other => mret other
  end.

(** The validator of [DocumentMetadata.pages] in models/schemas.py. *)
Definition validate_pages (v : PagesValue) : Res PagesValue :=
  match v with
  | PStr s =>
      if bool_decide (s = ""%string) then mret PNone
      else if isdigit s then n ← int s; mret (PInt n)
      else mret (PStr s)
  | PNone => mret PNone
  | other => mret other
  end.

End Pages.

(** ** Agents/validation_agent.py: ValidationAgent *)

Module ValidationAgent.
Import Text Calculator CalcAgent.

(** A formatted string, by its parts: text, a float put into it and a
    list of strings put into it.  (How a float and a list are printed
    is not modelled.) *)
Inductive Fragment : Type :=
| Str (s : string)
| Num (x : Q)
| Items (l : list string).

Definition Message : Type := list Fragment.

(** [self.validation_rules] *)
Definition validation_rules : gmap string (Q -> bool) :=
  list_to_map [
    ("net_profit_margin"%string, fun x => Py.leb 0 x && Py.leb x 100);
    ("roe"%string, fun x => Py.leb (-100) x && Py.leb x 100);
    ("loan_to_deposit_ratio"%string, fun x => Py.leb 0 x && Py.leb x 200);
    ("percentage_change"%string, fun x => Py.leb (-1000) x && Py.leb x 1000)
  ].

(** An entry of a list of checks. *)
Record Check : Type := {
  check : string;
  passed : bool;
  message : Message
}.

(** The dictionary [_validate_data_points] and [_validate_calculations]
    build; [warnings] is a key only where the code sets it. *)
Record Validation : Type := {
  is_valid : bool;
  errors : list Message;
  warnings : option (list Message);
  checks : list Check
}.

(** [validation["is_valid"] = False; validation["errors"].append(error)] *)
Definition reject (validation : Validation) (error : Message) : Validation :=
  {| is_valid := false;
     errors := errors validation ++ [error];
     warnings := warnings validation;
     checks := checks validation |}.

(** [validation["checks"].append(c)] *)
Definition add_check (validation : Validation) (c : Check) : Validation :=
  {| is_valid := is_valid validation;
     errors := errors validation;
     warnings := warnings validation;
     checks := checks validation ++ [c] |}.

(** The body of [for dp in data_points] of [_validate_data_points]. *)
Definition range_step (validation : Validation) (dp : FinancialDataPoint)
    : Validation :=
  let name := FinancialMetric_value (metric dp) in
  let check_name := name +:+ "_range" in
  match validation_rules !! name with
  | Some accepts =>
      let is_valid := accepts (Schemas.value dp) in
      let validation :=
        add_check validation
          {| check := check_name;
             passed := is_valid;
             message :=
               if is_valid
               then [Str (name +:+ " value "); Num (Schemas.value dp);
                     Str " is within valid range"]
               else [Str (name +:+ " value "); Num (Schemas.value dp);
                     Str " is outside expected range"] |} in
      if negb is_valid
      then reject validation [Str ("Invalid " +:+ name +:+ ": "); Num (Schemas.value dp)]
      else validation
  | None => validation
  end.

Definition _validate_data_points (data_points : list FinancialDataPoint)
    : Validation :=
  match data_points with
  | [] =>
      {| is_valid := false;
         errors := [[Str "No data points extracted"]];
         warnings := None;
         checks := [{| check := "data_points_exist";
                       passed := false;
                       message := [Str "No financial data points were extracted"] |}] |}
  | _ :: _ =>
      let low_confidence_points :=
        List.filter (fun dp => Py.ltb (Schemas.confidence dp) 0.5) data_points in
      let validation :=
        match low_confidence_points with
        | [] => {| is_valid := true; errors := []; warnings := None; checks := [] |}
        | _ :: _ =>
            {| is_valid := true;
               errors := [];
               warnings :=
                 Some [[Str (pretty (length low_confidence_points)
                               +:+ " data points have low confidence")]];
               checks :=
                 [{| check := "data_confidence";
                     passed := true;
                     message :=
                       [Str ("Found " +:+ pretty (length low_confidence_points)
                               +:+ " low confidence data points")] |}] |}
        end in
      let validation := fold_left range_step data_points validation in
      add_check validation
        {| check := "data_points_validation";
           passed := is_valid validation;
           message := [Str ("Validated " +:+ pretty (length data_points)
                              +:+ " data points")] |}
  end.

(** ['error' in calc] and [calc['error']] *)
Definition error_of (calc : Calculation) : option string :=
  match result calc with
  | ErrorResult error => Some error
  | _ => None
  end.

(** [calc.get('calculation_type', 'unknown')] *)
Definition calc_type_of (calc : Calculation) : string :=
  default "unknown"%string (calculation_type (result calc)).

(** [calc.get('percentage_change')] and [calc.get('roe_percentage')] *)
Definition percentage_change_of (calc : Calculation) : option Q :=
  match result calc with
  | PercentageChange _ _ _ percentage_change => Some percentage_change
  | _ => None
  end.

Definition roe_of (calc : Calculation) : option Q :=
  match result calc with
  | Roe _ _ roe_percentage => Some roe_percentage
  | _ => None
  end.

(** [self.validation_rules[name]] *)
Definition rule (name : string) : Res (Q -> bool) :=
  match validation_rules !! name with
  | Some r => Ok r
  | None => Raise KeyError
  end.

(** A value of a dictionary put into a formatted string: [None] when the
    key is missing. *)
Definition shown (x : option Q) : Fragment :=
  match x with
  | Some x => Num x
  | None => Str "None"
  end.

(** The body of [for i, calc in enumerate(calculations)]. *)
Definition calculation_step (validation : Validation) (i : nat) (calc : Calculation)
    : Res Validation :=
  let calc_type := calc_type_of calc in
  match error_of calc with
  | Some error =>
      mret (reject validation
              [Str ("Calculation " +:+ pretty (i + 1)%nat +:+ " error: " +:+ error)])
  | None =>
      validation ←
        (if bool_decide (calc_type = "percentage_change"%string) then
           accepts ← rule "percentage_change";
           if negb (accepts (default 0 (percentage_change_of calc)))
           then mret (reject validation
                        [Str "Invalid percentage change: ";
                         shown (percentage_change_of calc)])
           else mret validation
         else if bool_decide (calc_type = "roe"%string) then
           accepts ← rule "roe";
           if negb (accepts (default 0 (roe_of calc)))
           then mret (reject validation
                        [Str "Invalid ROE: "; shown (roe_of calc)])
           else mret validation
         else mret validation);
      mret (add_check validation
              {| check := "calculation_" +:+ pretty (i + 1)%nat;
                 passed := bool_decide (error_of calc = None);
                 message := [Str ("Calculation " +:+ calc_type +:+ " validated")] |})
  end.

Fixpoint calculations_loop (validation : Validation) (i : nat)
    (calculations : list Calculation) : Res Validation :=
  match calculations with
  | [] => mret validation
  | calc :: calculations' =>
      validation ← calculation_step validation i calc;
      calculations_loop validation (S i) calculations'
  end.

Definition _validate_calculations (calculations : list Calculation)
    : Res Validation :=
  match calculations with
  | [] =>
      mret {| is_valid := true;
              errors := [];
              warnings := None;
              checks :=
                [{| check := "calculations_exist";
                    passed := true;
                    message :=
                      [Str "No calculations to validate (may be acceptable for some queries)"]
                  |}] |}
  | _ :: _ =>
      calculations_loop
        {| is_valid := true; errors := []; warnings := None; checks := [] |}
        0 calculations
  end.

(** The dictionary [_validate_answer_completeness] returns. *)
Record Completeness : Type := {
  c_warnings : list Message;
  c_checks : list Check
}.

Definition financial_terms : list string :=
  ["profit"; "growth"; "ratio"; "quarter"; "year"; "percent"]%string.

Definition _validate_answer_completeness (answer : string) : Completeness :=
  let length_part :=
    if (String.length (strip answer) <? 50)%nat then
      {| c_warnings := [[Str "Answer appears very brief"]];
         c_checks := [{| check := "answer_length"; passed := false;
                         message := [Str "Answer is very short"] |}] |}
    else
      {| c_warnings := [];
         c_checks := [{| check := "answer_length"; passed := true;
                         message := [Str "Answer has sufficient length"] |}] |} in
  let found_terms :=
    List.filter (fun term => contains term (lower answer)) financial_terms in
  if (2 <=? length found_terms)%nat then
    {| c_warnings := c_warnings length_part;
       c_checks := c_checks length_part ++
         [{| check := "financial_terminology"; passed := true;
             message := [Str "Answer contains relevant financial terms: ";
                         Items found_terms] |}] |}
  else
    {| c_warnings := c_warnings length_part ++ [[Str "Answer may lack financial context"]];
       c_checks := c_checks length_part ++
         [{| check := "financial_terminology"; passed := false;
             message := [Str "Limited financial terminology in answer"] |}] |}.

(** [min(1.0, x)]: [x] only when it is smaller.  (The score is a
    quotient of two counts, scaled and rounded; what is stated about it
    are its bounds and its values when all or none of the checks have
    passed, which do not depend on how the quotient is rounded.) *)
Definition min2 (a b : Q) : Q := if Py.ltb b a then b else a.

Definition _calculate_confidence_score (validation_checks : list Check) : Res Q :=
  match validation_checks with
  | [] => mret 0.5
  | _ :: _ =>
      let passed_checks := List.filter passed validation_checks in
      let total_checks := length validation_checks in
      if (total_checks =? 0)%nat then mret 0.5
      else
        base_score ← div (len passed_checks) (len validation_checks);
        let critical_checks :=
          List.filter (fun c => contains "data_points" (check c)) validation_checks in
        let base_score :=
          if negb (bool_decide (critical_checks = [])) && forallb passed critical_checks
          then min2 1 (base_score * 1.2)
          else base_score in
        mret (round2 base_score)
  end.

(** The dictionary [validate] returns. *)
Record ValidationResult : Type := {
  r_is_valid : bool;
  r_errors : list Message;
  r_warnings : list Message;
  r_confidence_score : Q;
  r_validation_checks : list Check
}.

Definition validate (answer : string) (data_points : list FinancialDataPoint)
    (calculations : list Calculation) : Res ValidationResult :=
  let data_validation := _validate_data_points data_points in
  calc_validation ← _validate_calculations calculations;
  let answer_validation := _validate_answer_completeness answer in
  let validation_checks :=
    checks data_validation ++ checks calc_validation ++ c_checks answer_validation in
  confidence_score ← _calculate_confidence_score validation_checks;
  mret {| r_is_valid := is_valid data_validation && is_valid calc_validation;
          r_errors :=
            (if is_valid data_validation then [] else errors data_validation)
            ++ (if is_valid calc_validation then [] else errors calc_validation);
          r_warnings := c_warnings answer_validation;
          r_confidence_score := confidence_score;
          r_validation_checks := validation_checks |}.

(** *** Notions the properties are stated with *)

(** The range test of a data point: only the loan-to-deposit ratio has
    a rule under the name of its metric. *)
Definition in_expected_range (dp : FinancialDataPoint) : Prop :=
  metric dp = LOAN_TO_DEPOSIT -> 0 <= Schemas.value dp /\ Schemas.value dp <= 200.

(** What [_validate_calculations] accepts. *)
Definition acceptable_calculation (calc : Calculation) : Prop :=
  match result calc with
  | ErrorResult _ => False
  | PercentageChange _ _ _ x => -1000 <= x /\ x <= 1000
  | Roe _ _ x => -100 <= x /\ x <= 100
  | _ => True
  end.

End ValidationAgent.

(** * Properties *)

Import Calculator Spec.

(** ** Numbers *)

Lemma eqb_true (x y : Q) : eqb x y = true <-> x == y.
Proof. apply Qeq_bool_iff. Qed.

Lemma eqb_false (x y : Q) : eqb x y = false <-> ~ x == y.
Proof.
  rewrite <- eqb_true. destruct (eqb x y); split; congruence.
Qed.

Lemma leb_true (x y : Q) : leb x y = true <-> x <= y.
Proof. apply Qle_bool_iff. Qed.

Lemma ltb_true (x y : Q) : ltb x y = true <-> x < y.
Proof.
  unfold ltb. rewrite negb_true_iff, <- not_true_iff_false, Qle_bool_iff.
  split; [apply Qnot_le_lt | apply Qlt_not_le].
Qed.

Lemma ltb_false (x y : Q) : ltb x y = false <-> y <= x.
Proof.
  unfold ltb. rewrite negb_false_iff. apply Qle_bool_iff.
Qed.

Lemma div_ok (x y : Q) : ~ y == 0 -> div x y = Ok (x / y).
Proof.
  intros Hy. unfold div. apply eqb_false in Hy. now rewrite Hy.
Qed.

Lemma len_nonzero {A} (l : list A) : l <> [] -> ~ len l == 0.
Proof.
  intros Hl. unfold len, Qeq. simpl. destruct l; [congruence | simpl length; lia].
Qed.

Lemma sum_from (l : list Q) (a : Q) : fold_left Qplus l a == a + total l.
Proof.
  revert a. induction l as [|x l IH]; intros a; simpl.
  - ring.
  - rewrite IH. ring.
Qed.

Lemma sum_total (l : list Q) : sum l == total l.
Proof. unfold sum. rewrite sum_from. ring. Qed.

(** ** [min], [max] and [index] pick the first extremal item *)

Section FirstBest.

Variable better : Q -> Q -> bool.
Variable before : Q -> Q -> Prop.
Hypothesis better_spec : forall y m, better y m = true <-> before y m.
Hypothesis before_trans : forall x y z, before x y -> before y z -> before x z.
Hypothesis before_keeps : forall x y z, before x y -> ~ before z y -> before x z.
Hypothesis before_differs : forall x y, before x y -> ~ x == y.

Lemma scan_first (x : Q) (l : list Q) :
  exists i,
    (x :: l) !! i = Some (scan better x l) /\
    (forall j v, (j < i)%nat -> (x :: l) !! j = Some v -> before (scan better x l) v) /\
    (forall v, In v (x :: l) -> ~ before v (scan better x l)).
Proof.
  induction l as [|y l IH] using rev_ind.
  - exists 0%nat. simpl. split; [reflexivity|]. split.
    + intros j v Hj. lia.
    + intros v [<-|[]] Hb. apply before_differs in Hb. now apply Hb.
  - destruct IH as (i & Hi & Hbefore & Hall).
    unfold scan in *. rewrite fold_left_app. simpl.
    set (m := fold_left _ l x) in *.
    destruct (better y m) eqn:Hb.
    + apply better_spec in Hb.
      exists (length (x :: l)). split; [|split].
      * change (x :: l ++ [y]) with ((x :: l) ++ [y]).
        rewrite lookup_app_r by lia. now rewrite Nat.sub_diag.
      * intros j v Hj Hv.
        change (x :: l ++ [y]) with ((x :: l) ++ [y]) in Hv.
        rewrite lookup_app_l in Hv by exact Hj.
        apply (before_keeps y m v Hb). apply Hall.
        apply list_elem_of_In. eapply list_elem_of_lookup_2; eauto.
      * intros v Hv Hvy.
        apply (in_app_or (x :: l) [y] v) in Hv. destruct Hv as [Hv|[<-|[]]].
        -- apply (Hall v Hv). eapply before_trans; eauto.
        -- apply before_differs in Hvy. now apply Hvy.
    + exists i. split; [|split].
      * change (x :: l ++ [y]) with ((x :: l) ++ [y]).
        rewrite lookup_app_l; [exact Hi|]. eapply lookup_lt_Some; eauto.
      * intros j v Hj Hv. apply (Hbefore j v Hj).
        change (x :: l ++ [y]) with ((x :: l) ++ [y]) in Hv.
        rewrite lookup_app_l in Hv; [exact Hv|].
        apply lookup_lt_Some in Hi. lia.
      * intros v Hv.
        apply (in_app_or (x :: l) [y] v) in Hv. destruct Hv as [Hv|[<-|[]]].
        -- now apply Hall.
        -- intros Hvm. apply better_spec in Hvm. congruence.
Qed.

End FirstBest.

Lemma index_from_first (l : list Q) (v : Q) (k i : nat) (x : Q) :
  l !! i = Some x -> x == v ->
  (forall j y, (j < i)%nat -> l !! j = Some y -> ~ y == v) ->
  index_from l v k = Ok (k + i)%nat.
Proof.
  revert k i. induction l as [|a l IH]; intros k i Hi Hx Hbefore.
  - discriminate.
  - simpl. destruct i as [|i].
    + simpl in Hi. injection Hi as ->. apply eqb_true in Hx. rewrite Hx.
      f_equal. lia.
    + assert (Ha : eqb a v = false).
      { apply eqb_false. apply (Hbefore 0%nat a); [lia | reflexivity]. }
      rewrite Ha. rewrite (IH (S k) i); [f_equal; lia | exact Hi | exact Hx |].
      intros j y Hj Hy. apply (Hbefore (S j) y); [lia | exact Hy].
Qed.

(** [min(values)] is the least item and [values.index] of it is the
    position of its first occurrence. *)
Lemma min_index_first (values : list Q) :
  values <> [] ->
  exists m i,
    Py.min values = Ok m /\ index values m = Ok i /\ first_min_at values i m.
Proof.
  destruct values as [|x l]; [congruence|]. intros _.
  destruct (scan_first (fun y m => ltb y m) Qlt) with (x := x) (l := l)
    as (i & Hi & Hbefore & Hall).
  - intros y m. apply ltb_true.
  - intros a b c. apply Qlt_trans.
  - intros a b c Hab Hcb. apply Qnot_lt_le in Hcb. eapply Qlt_le_trans; eauto.
  - intros a b Hab Heq. rewrite Heq in Hab. now apply Qlt_irrefl in Hab.
  - eexists _, i. split; [reflexivity|]. split; [|split; [exact Hi|split]].
    + apply (index_from_first _ _ 0%nat i _ Hi); [reflexivity|].
      intros j y Hj Hy Heq. specialize (Hbefore j y Hj Hy).
      rewrite Heq in Hbefore. now apply Qlt_irrefl in Hbefore.
    + exact Hbefore.
    + intros v Hv. apply Qnot_lt_le. now apply Hall.
Qed.

Lemma max_index_first (values : list Q) :
  values <> [] ->
  exists m i,
    Py.max values = Ok m /\ index values m = Ok i /\ first_max_at values i m.
Proof.
  destruct values as [|x l]; [congruence|]. intros _.
  destruct (scan_first (fun y m => ltb m y) (fun y m => m < y))
    with (x := x) (l := l) as (i & Hi & Hbefore & Hall).
  - intros y m. apply ltb_true.
  - intros a b c Hab Hbc. eapply Qlt_trans; eauto.
  - intros a b c Hab Hcb. apply Qnot_lt_le in Hcb. eapply Qle_lt_trans; eauto.
  - intros a b Hab Heq. rewrite Heq in Hab. now apply Qlt_irrefl in Hab.
  - eexists _, i. split; [reflexivity|]. split; [|split; [exact Hi|split]].
    + apply (index_from_first _ _ 0%nat i _ Hi); [reflexivity|].
      intros j y Hj Hy Heq. specialize (Hbefore j y Hj Hy). simpl in Hbefore.
      rewrite Heq in Hbefore. now apply Qlt_irrefl in Hbefore.
    + exact Hbefore.
    + intros v Hv. apply Qnot_lt_le. now apply Hall.
Qed.

(** The first least item and the first greatest item have one position. *)
Lemma first_min_unique (l : list Q) (i j : nat) (m n : Q) :
  first_min_at l i m -> first_min_at l j n -> i = j.
Proof.
  intros (Hi & Hbi & Hai) (Hj & Hbj & Haj).
  assert (Hmn : m <= n).
  { apply Hai, list_elem_of_In. eapply list_elem_of_lookup_2; eauto. }
  assert (Hnm : n <= m).
  { apply Haj, list_elem_of_In. eapply list_elem_of_lookup_2; eauto. }
  destruct (Nat.lt_trichotomy i j) as [Hlt|[Heq|Hlt]]; [|exact Heq|]; exfalso.
  - specialize (Hbj i m Hlt Hi). apply (Qlt_irrefl m).
    eapply Qle_lt_trans; eauto.
  - specialize (Hbi j n Hlt Hj). apply (Qlt_irrefl n).
    eapply Qle_lt_trans; eauto.
Qed.

Lemma first_max_unique (l : list Q) (i j : nat) (m n : Q) :
  first_max_at l i m -> first_max_at l j n -> i = j.
Proof.
  intros (Hi & Hbi & Hai) (Hj & Hbj & Haj).
  assert (Hmn : n <= m).
  { apply Hai, list_elem_of_In. eapply list_elem_of_lookup_2; eauto. }
  assert (Hnm : m <= n).
  { apply Haj, list_elem_of_In. eapply list_elem_of_lookup_2; eauto. }
  destruct (Nat.lt_trichotomy i j) as [Hlt|[Heq|Hlt]]; [|exact Heq|]; exfalso.
  - specialize (Hbj i m Hlt Hi). apply (Qlt_irrefl m).
    eapply Qlt_le_trans; eauto.
  - specialize (Hbi j n Hlt Hj). apply (Qlt_irrefl n).
    eapply Qlt_le_trans; eauto.
Qed.

(** ** The growth-rate loop *)

Lemma growth_step (values : list Q) (i : nat) (prev cur : Q) :
  values !! (i - 1)%nat = Some prev -> values !! i = Some cur ->
  exists g, growth values i = Ok g /\ step_growth prev cur g.
Proof.
  intros Hprev Hcur. unfold growth, getitem. rewrite Hprev. simpl.
  destruct (eqb prev 0) eqn:Hz; simpl.
  - exists 0. split; [reflexivity|]. apply eqb_true in Hz. split; [easy|tauto].
  - rewrite Hcur. simpl. apply eqb_false in Hz. rewrite (div_ok _ _ Hz). simpl.
    eexists. split; [reflexivity|]. split; [tauto|easy].
Qed.

Lemma growth_loop_spec (values : list Q) (range : list nat) :
  (forall i, In i range -> (1 <= i < length values)%nat) ->
  exists gs,
    growth_loop values range = Ok gs /\ length gs = length range /\
    forall k i, range !! k = Some i ->
      exists prev cur g,
        values !! (i - 1)%nat = Some prev /\ values !! i = Some cur /\
        gs !! k = Some g /\ step_growth prev cur g.
Proof.
  induction range as [|i range IH]; intros Hrange.
  - exists []. split; [reflexivity|]. split; [reflexivity|]. intros k i Hk. discriminate.
  - destruct IH as (gs & Hgs & Hlen & Hitems).
    { intros j Hj. apply Hrange. now right. }
    destruct (Hrange i (or_introl eq_refl)) as [Hi1 Hi2].
    destruct (lookup_lt_is_Some_2 values (i - 1)) as [prev Hprev]; [lia|].
    destruct (lookup_lt_is_Some_2 values i) as [cur Hcur]; [lia|].
    destruct (growth_step values i prev cur Hprev Hcur) as (g & Hg & Hstep).
    exists (g :: gs). simpl. rewrite Hg. simpl. rewrite Hgs. simpl.
    split; [reflexivity|]. split; [now rewrite Hlen|].
    intros [|k] j Hk.
    + injection Hk as <-. exists prev, cur, g. auto.
    + apply (Hitems k j Hk).
Qed.

(** ** [calculate_trend] on lists it can index *)

Lemma calculate_trend_ok (values : list Q) (periods : list string)
    (h : list CalcResult) :
  (2 <= length values)%nat -> (length values <= length periods)%nat ->
  exists t,
    calculate_trend values periods h = (Ok (TrendAnalysis t), h ++ [TrendAnalysis t]) /\
    summarises values periods t.
Proof.
  intros H2 Hlen.
  assert (Hne : values <> []) by (destruct values; simpl in *; [lia | congruence]).
  destruct (min_index_first values Hne) as (mn & imin & Hmin & Himin & Hfmin).
  destruct (max_index_first values Hne) as (mx & imax & Hmax & Himax & Hfmax).
  destruct (lookup_lt_is_Some_2 periods imin) as [pmin Hpmin].
  { destruct Hfmin as [Hl _]. apply lookup_lt_Some in Hl. lia. }
  destruct (lookup_lt_is_Some_2 periods imax) as [pmax Hpmax].
  { destruct Hfmax as [Hl _]. apply lookup_lt_Some in Hl. lia. }
  destruct (growth_loop_spec values (seq 1 (length values - 1)))
    as (gs & Hgs & Hgslen & Hgsitems).
  { intros i Hi. apply in_seq in Hi. lia. }
  rewrite length_seq in Hgslen.
  assert (Hgne : gs <> []) by (destruct gs; simpl in *; [lia | congruence]).
  eexists. split.
  - unfold calculate_trend.
    destruct (Nat.ltb_spec (length values) 2) as [|_]; [lia|].
    unfold mbind, Calc_bind, lift, history_append, mret, Calc_ret.
    rewrite (div_ok _ _ (len_nonzero values Hne)), Hmin, Hmax, Himin, Himax.
    unfold getitem. rewrite Hpmin, Hpmax, Hgs.
    destruct gs as [|g gs']; [congruence|].
    rewrite (div_ok _ _ (len_nonzero (g :: gs') Hgne)). reflexivity.
  - unfold summarises. simpl. repeat split.
    + unfold average, len. now rewrite sum_total.
    + exists imin. split; [exact Hfmin | exact Hpmin].
    + exists imax. split; [exact Hfmax | exact Hpmax].
    + exact Hgslen.
    + intros i prev cur Hprev Hcur.
      assert (Hi : (S i < length values)%nat) by (eapply lookup_lt_Some; eauto).
      destruct (Hgsitems i (S i)) as (prev' & cur' & g & Hp & Hc & Hg & Hstep).
      { rewrite lookup_seq. split; [reflexivity | lia]. }
      replace (S i - 1)%nat with i in Hp by lia.
      rewrite Hprev in Hp. rewrite Hcur in Hc.
      injection Hp as <-. injection Hc as <-. exists g. auto.
    + destruct gs as [|g gs']; [congruence|].
      unfold average, len. now rewrite sum_total.
Qed.

(** [calculate_trend] on a [periods] list that ends before the position
    of the minimum or of the maximum. *)
Lemma calculate_trend_raises (values : list Q) (periods : list string)
    (h : list CalcResult) :
  (2 <= length values)%nat ->
  (exists i m, first_min_at values i m /\ (length periods <= i)%nat) \/
  (exists i m, first_max_at values i m /\ (length periods <= i)%nat) ->
  calculate_trend values periods h = (Raise IndexError, h).
Proof.
  intros H2 Hshort.
  assert (Hne : values <> []) by (destruct values; simpl in *; [lia | congruence]).
  destruct (min_index_first values Hne) as (mn & imin & Hmin & Himin & Hfmin).
  destruct (max_index_first values Hne) as (mx & imax & Hmax & Himax & Hfmax).
  unfold calculate_trend.
  destruct (Nat.ltb_spec (length values) 2) as [|_]; [lia|].
  unfold mbind, Calc_bind, lift.
  rewrite (div_ok _ _ (len_nonzero values Hne)), Hmin, Hmax, Himin.
  unfold getitem.
  destruct (periods !! imin) as [pmin|] eqn:Hpmin; [|reflexivity].
  rewrite Himax.
  destruct (periods !! imax) as [pmax|] eqn:Hpmax; [|reflexivity].
  exfalso. apply lookup_lt_Some in Hpmin, Hpmax.
  destruct Hshort as [(i & m & Hf & Hi)|(i & m & Hf & Hi)].
  - rewrite (first_min_unique values i imin m mn Hf Hfmin) in Hi. lia.
  - rewrite (first_max_unique values i imax m mx Hf Hfmax) in Hi. lia.
Qed.

(** ** Claims about the calculator *)

(** C5: with a zero denominator (old value, equity, deposits, earning
    assets) each of the four calculations returns the error dictionary
    with its message, leaves the history alone and raises nothing; with
    any other denominator it returns the numeric result, [new - old] and
    [(new - old) / old * 100] for the percentage change and
    [numerator / denominator * 100] for the three ratios, and records
    it in the history. *)
Theorem C5_zero_denominator_is_an_error_result
    (numerator denominator : Q) (h : list CalcResult) :
  (denominator == 0 ->
     calculate_percentage_change denominator numerator h
       = (Ok (ErrorResult "Cannot calculate percentage change from zero"), h) /\
     calculate_roe numerator denominator h
       = (Ok (ErrorResult "Cannot calculate ROE with zero equity"), h) /\
     calculate_loan_to_deposit numerator denominator h
       = (Ok (ErrorResult "Cannot calculate LDR with zero deposits"), h) /\
     calculate_nim numerator denominator h
       = (Ok (ErrorResult "Cannot calculate NIM with zero earning assets"), h)) /\
  (~ denominator == 0 ->
     (let r := PercentageChange denominator numerator (numerator - denominator)
                 ((numerator - denominator) / denominator * 100) in
      calculate_percentage_change denominator numerator h = (Ok r, h ++ [r])) /\
     (let r := Roe numerator denominator (numerator / denominator * 100) in
      calculate_roe numerator denominator h = (Ok r, h ++ [r])) /\
     (let r := LoanToDeposit numerator denominator (numerator / denominator * 100) in
      calculate_loan_to_deposit numerator denominator h = (Ok r, h ++ [r])) /\
     (let r := Nim numerator denominator (numerator / denominator * 100) in
      calculate_nim numerator denominator h = (Ok r, h ++ [r]))).
Proof.
  unfold calculate_percentage_change, calculate_roe, calculate_loan_to_deposit,
    calculate_nim.
  split; intros Hd.
  - apply eqb_true in Hd. rewrite Hd. repeat split.
  - unfold mbind, Calc_bind, lift, history_append, mret, Calc_ret.
    rewrite !(div_ok _ _ Hd). apply eqb_false in Hd. rewrite Hd.
    repeat split.
Qed.

Lemma C5_witness :
  calculate_percentage_change 0 5120 []
    = (Ok (ErrorResult "Cannot calculate percentage change from zero"), []) /\
  calculate_roe 5120 110992 []
    = (Ok (Roe 5120 110992 (5120 / 110992 * 100)),
       [Roe 5120 110992 (5120 / 110992 * 100)]).
Proof.
  split.
  - apply (C5_zero_denominator_is_an_error_result 5120 0 []). reflexivity.
  - apply (C5_zero_denominator_is_an_error_result 5120 110992 []). discriminate.
Defined.

(** C6: for at least two values and a list of periods that is not
    shorter (parallel lists in particular), [calculate_trend] returns
    the arithmetic mean, the minimum and the maximum with the
    period at their first occurrence, one growth rate per step
    ([(values[i] - values[i-1]) / values[i-1] * 100], and 0 after a zero
    value) and the arithmetic mean of these rates as [average_growth];
    with fewer than two values it returns the error dictionary. *)
Theorem C6_trend_summary (values : list Q) (periods : list string)
    (h : list CalcResult) :
  ((2 <= length values)%nat -> (length values <= length periods)%nat ->
   exists t,
     calculate_trend values periods h
       = (Ok (TrendAnalysis t), h ++ [TrendAnalysis t]) /\
     summarises values periods t) /\
  ((length values < 2)%nat ->
   calculate_trend values periods h
     = (Ok (ErrorResult "Need at least 2 values for trend analysis"), h)).
Proof.
  split.
  - intros H2 Hlen. apply calculate_trend_ok; [exact H2 | exact Hlen].
  - intros Hlt. unfold calculate_trend.
    destruct (Nat.ltb_spec (length values) 2) as [_|]; [reflexivity | lia].
Qed.

(** The example of the claim: [Trend([100, 200, 150], [p1, p2, p3])]. *)
Lemma C6_witness :
  exists t,
    calculate_trend [100; 200; 150] ["p1"; "p2"; "p3"]%string []
      = (Ok (TrendAnalysis t), [TrendAnalysis t]) /\
    summarises [100; 200; 150] ["p1"; "p2"; "p3"]%string t /\
    min_period t = "p1"%string /\ max_period t = "p2"%string /\
    growth_rates t = [(200 - 100) / 100 * 100; (150 - 200) / 200 * 100] /\
    average_growth t == 37.5.
Proof.
  destruct (C6_trend_summary [100; 200; 150] ["p1"; "p2"; "p3"]%string [])
    as [Hok _].
  destruct Hok as (t & Hrun & Hsum); [simpl; lia | simpl; lia |].
  exists t. split; [exact Hrun|]. split; [exact Hsum|].
  vm_compute in Hrun. injection Hrun as <-.
  repeat split.
Defined.

(** C10: [calculate_trend] does not compare the lengths of its two
    lists.  With at least two values it returns a result whenever
    [periods] is at least as long as [values]; when [periods] ends
    before the position of the minimum or of the maximum, the lookup of
    that period raises [IndexError], which the function does not catch:
    so for every empty [periods], and for [values = [1, 2]] with
    [periods = []]. *)
Theorem C10_trend_periods_are_not_checked :
  (forall values periods h,
     (2 <= length values)%nat -> (length values <= length periods)%nat ->
     exists t, calculate_trend values periods h
                 = (Ok (TrendAnalysis t), h ++ [TrendAnalysis t])) /\
  (forall values periods h,
     (2 <= length values)%nat ->
     (exists i m, first_min_at values i m /\ (length periods <= i)%nat) \/
     (exists i m, first_max_at values i m /\ (length periods <= i)%nat) ->
     calculate_trend values periods h = (Raise IndexError, h)) /\
  (forall values h,
     (2 <= length values)%nat ->
     calculate_trend values [] h = (Raise IndexError, h)) /\
  calculate_trend [1; 2] [] [] = (Raise IndexError, []).
Proof.
  split; [|split; [|split]].
  - intros values periods h H2 Hlen.
    destruct (calculate_trend_ok values periods h H2 Hlen) as (t & Ht & _).
    now exists t.
  - apply calculate_trend_raises.
  - intros values h H2. apply calculate_trend_raises; [exact H2|].
    assert (Hne : values <> []) by (destruct values; simpl in *; [lia | congruence]).
    destruct (min_index_first values Hne) as (mn & imin & _ & _ & Hfmin).
    left. exists imin, mn. split; [exact Hfmin | simpl; lia].
  - reflexivity.
Qed.

Lemma C10_witness :
  (exists t, calculate_trend [1; 2] ["2022_Q1"; "2022_Q2"]%string []
               = (Ok (TrendAnalysis t), [TrendAnalysis t])) /\
  calculate_trend [1; 3; 2] ["2022_Q1"]%string [] = (Raise IndexError, []) /\
  calculate_trend [1; 2; 3] [] [] = (Raise IndexError, []).
Proof.
  destruct C10_trend_periods_are_not_checked as (Hok & Hshort & Hempty & _).
  split; [|split].
  - apply (Hok [1; 2] ["2022_Q1"; "2022_Q2"]%string []); simpl; lia.
  - apply (Hshort [1; 3; 2] ["2022_Q1"]%string []); [simpl; lia|].
    right. exists 1%nat, 3. split; [|simpl; lia].
    split; [reflexivity|]. split.
    + intros j v Hj Hv. assert (j = 0)%nat as -> by lia.
      injection Hv as <-. reflexivity.
    + intros v [<-|[<-|[<-|[]]]]; discriminate.
  - apply (Hempty [1; 2; 3] []). simpl; lia.
Defined.

(** ** Claims about the aggregator *)

Import Aggregator Sample.

Lemma grouped_value_step (grouped : gmap string (gmap FinancialMetric Q))
    (dp : FinancialDataPoint) (p : string) (m : FinancialMetric) :
  grouped_value (group_step grouped dp) p m =
    if decide (period dp = p /\ metric dp = m) then Some (value dp)
    else grouped_value grouped p m.
Proof.
  unfold grouped_value, group_step.
  destruct (decide (period dp = p)) as [<-|Hp].
  - rewrite lookup_alter_eq.
    destruct (grouped !! period dp) as [by_metric|] eqn:Hg;
      [rewrite Hg | rewrite lookup_insert_eq]; simpl.
    + destruct (decide (metric dp = m)) as [<-|Hm].
      * rewrite lookup_insert_eq. now rewrite decide_True.
      * rewrite lookup_insert_ne by exact Hm. rewrite decide_False by tauto.
        reflexivity.
    + destruct (decide (metric dp = m)) as [<-|Hm].
      * rewrite lookup_insert_eq. now rewrite decide_True.
      * rewrite lookup_insert_ne by exact Hm. rewrite decide_False by tauto.
        reflexivity.
  - rewrite lookup_alter_ne by exact Hp. rewrite decide_False by tauto.
    destruct (grouped !! period dp); [reflexivity|].
    now rewrite lookup_insert_ne.
Qed.

(** C1, as the code has it: the mapping holds, for every (period,
    metric) pair, the value of the last data point of the list with that
    pair, whatever the confidences are (and nothing for a pair no data
    point has). *)
Theorem C1_last_seen_value_is_kept (data_points : list FinancialDataPoint)
    (p : string) (m : FinancialMetric) :
  grouped_value (_group_data_by_period data_points) p m
    = value <$> last (with_key p m data_points).
Proof.
  unfold _group_data_by_period, with_key.
  induction data_points as [|dp l IH] using rev_ind.
  - reflexivity.
  - rewrite fold_left_app. simpl. rewrite grouped_value_step, filter_app.
    destruct (decide (period dp = p /\ metric dp = m)) as [Hk|Hk].
    + rewrite filter_cons_True by exact Hk. rewrite filter_nil, last_snoc. reflexivity.
    + rewrite filter_cons_False by exact Hk. rewrite filter_nil, app_nil_r. exact IH.
Qed.

(** C1, as stated, fails: of two data points with confidences 0.8 and
    0.6, in this order, the mapping keeps the value of the second, the
    less confident one. *)
Lemma C1_counterexample :
  let data_points := [net_profit_2022_Q1 5120 0.8; net_profit_2022_Q1 900 0.6] in
  length (with_key "2022_Q1" NET_PROFIT data_points) = 2%nat /\
  value <$> retained_by_confidence (with_key "2022_Q1" NET_PROFIT data_points)
    = Some 5120 /\
  grouped_value (_group_data_by_period data_points) "2022_Q1" NET_PROFIT
    = Some 900 /\
  grouped_value (_group_data_by_period data_points) "2022_Q1" NET_PROFIT
    <> value <$> retained_by_confidence (with_key "2022_Q1" NET_PROFIT data_points).
Proof.
  vm_compute. repeat split. discriminate.
Qed.

(** In the order of the specification's example, confidences 0.6 and
    then 0.8, the last data point is also the more confident one. *)
Lemma aggregator_keeps_later_of_two :
  grouped_value
    (_group_data_by_period [net_profit_2022_Q1 900 0.6; net_profit_2022_Q1 5120 0.8])
    "2022_Q1" NET_PROFIT = Some 5120.
Proof.
  vm_compute. reflexivity.
Qed.

(** ** Claims about the range validator *)

Import Validator.

Lemma between_true (lo hi : Z) (v : Q) :
  between lo hi v = true <-> inject_Z lo <= v /\ v <= inject_Z hi.
Proof.
  unfold between. rewrite andb_true_iff, !leb_true. reflexivity.
Qed.

Lemma leb_false (x y : Q) : leb x y = false <-> y < x.
Proof.
  unfold leb. rewrite <- not_true_iff_false, Qle_bool_iff.
  split; [apply Qnot_le_lt | apply Qlt_not_le].
Qed.

Lemma between_false (lo hi : Z) (v : Q) :
  between lo hi v = false <-> v < inject_Z lo \/ inject_Z hi < v.
Proof.
  unfold between. rewrite andb_false_iff, !leb_false. reflexivity.
Qed.

(** The six modelled metrics and their two bands. *)
Lemma modelled_metric (metric : string) (mlo mhi : Z) :
  main_financial_ranges !! metric = Some (mlo, mhi) ->
  (metric, mlo, mhi) = ("net_profit"%string, 1000, 20000)%Z \/
  (metric, mlo, mhi) = ("total_assets"%string, 400000, 1200000)%Z \/
  (metric, mlo, mhi) = ("shareholder_equity"%string, 80000, 120000)%Z \/
  (metric, mlo, mhi) = ("total_loans"%string, 200000, 500000)%Z \/
  (metric, mlo, mhi) = ("total_deposits"%string, 300000, 600000)%Z \/
  (metric, mlo, mhi) = ("net_interest_income"%string, 1000, 15000)%Z.
Proof.
  intros H. unfold main_financial_ranges in H.
  apply elem_of_list_to_map_2 in H.
  repeat (apply elem_of_cons in H as [H|H];
          [injection H as -> -> ->; tauto|]).
  now apply elem_of_nil in H.
Qed.

Lemma validate_table_cell (metric : string) (tlo thi : Z) (v : Q) (year : Z) :
  is_Some (main_financial_ranges !! metric) ->
  table_cell_ranges !! metric = Some (tlo, thi) ->
  between tlo thi v = true ->
  validate_extraction metric v year =
    Ok {| is_valid := true;
          confidence := if between 1 1000 v then 0.7 else 0.6;
          value_type := Some table_cell |}.
Proof.
  intros [b Hm] Ht Hin. unfold validate_extraction, table_cell_branch.
  now rewrite Hm, Ht, Hin.
Qed.

Lemma validate_main_financial (metric : string) (tlo thi mlo mhi : Z) (v : Q)
    (year : Z) :
  main_financial_ranges !! metric = Some (mlo, mhi) ->
  table_cell_ranges !! metric = Some (tlo, thi) ->
  between tlo thi v = false -> between mlo mhi v = true ->
  (mlo + mhi)%Z <> 0%Z ->
  validate_extraction metric v year =
    Ok {| is_valid := true;
          confidence :=
            round2 (max2 0.7 (1 - abs (v - midpoint mlo mhi) / midpoint mlo mhi));
          value_type := Some main_financial |}.
Proof.
  intros Hm Ht Hout Hin Hne.
  unfold validate_extraction, table_cell_branch, main_financial_branch.
  rewrite Hm, Ht, Hout, Hin. unfold midpoint.
  rewrite (div_ok _ 2) by discriminate. simpl.
  rewrite div_ok; [reflexivity|].
  unfold Qeq, Qdiv, Qmult, Qinv, inject_Z. simpl. lia.
Qed.

Lemma validate_invalid (metric : string) (tlo thi mlo mhi : Z) (v : Q) (year : Z) :
  main_financial_ranges !! metric = Some (mlo, mhi) ->
  table_cell_ranges !! metric = Some (tlo, thi) ->
  between tlo thi v = false -> between mlo mhi v = false ->
  validate_extraction metric v year =
    Ok {| is_valid := false; confidence := 0.1; value_type := None |}.
Proof.
  intros Hm Ht Hout Hout'.
  unfold validate_extraction, table_cell_branch, main_financial_branch.
  now rewrite Hm, Ht, Hout, Hout'.
Qed.

(** C2, as the code has it: for every modelled metric the midpoint of
    the main-financial band is valid with confidence 1.0, and each edge
    of the band is valid with confidence 0.7, except for
    shareholder_equity, whose edges get 0.8 (the band 80000..120000 is
    narrow: 1 - 20000/100000 is above the clamp). *)
Theorem C2_midpoint_and_edge_confidence (metric : string) (lo hi year : Z) :
  main_financial_ranges !! metric = Some (lo, hi) ->
  (exists r, validate_extraction metric (midpoint lo hi) year = Ok r /\
             is_valid r = true /\ value_type r = Some main_financial /\
             confidence r == 1) /\
  (forall edge, edge = lo \/ edge = hi ->
     exists r, validate_extraction metric (inject_Z edge) year = Ok r /\
               is_valid r = true /\
               confidence r ==
                 if decide (metric = "shareholder_equity"%string) then 0.8 else 0.7).
Proof.
  intros H. apply modelled_metric in H.
  destruct H as [H|[H|[H|[H|[H|H]]]]]; injection H as -> -> ->;
    (split; [|intros edge [->| ->]]); eexists;
    (split; [vm_compute; reflexivity|]); repeat split.
Qed.

Lemma C2_witness :
  (exists r, validate_extraction "net_profit" (midpoint 1000 20000) 2022 = Ok r /\
             is_valid r = true /\ value_type r = Some main_financial /\
             confidence r == 1) /\
  (exists r, validate_extraction "net_profit" 20000 2022 = Ok r /\
             is_valid r = true /\ confidence r == 0.7).
Proof.
  destruct (C2_midpoint_and_edge_confidence "net_profit" 1000 20000 2022 eq_refl)
    as [Hmid Hedge].
  split; [exact Hmid|].
  exact (Hedge 20000%Z (or_intror eq_refl)).
Defined.

(** C2, as stated, fails: both edges of the shareholder_equity band get
    confidence 0.8, not 0.7. *)
Lemma C2_counterexample :
  main_financial_ranges !! "shareholder_equity"%string = Some (80000, 120000)%Z /\
  (exists r, validate_extraction "shareholder_equity" 80000 2022 = Ok r /\
             value_type r = Some main_financial /\
             confidence r == 0.8 /\ ~ confidence r == 0.7) /\
  (exists r, validate_extraction "shareholder_equity" 120000 2022 = Ok r /\
             value_type r = Some main_financial /\
             confidence r == 0.8 /\ ~ confidence r == 0.7).
Proof.
  split; [reflexivity|].
  split; eexists; (split; [vm_compute; reflexivity|]); repeat split;
    discriminate.
Qed.

Lemma table_cell_band (metric : string) (mlo mhi tlo thi : Z) :
  main_financial_ranges !! metric = Some (mlo, mhi) ->
  table_cell_ranges !! metric = Some (tlo, thi) ->
  tlo = 1%Z /\
  ((thi = 1000%Z /\ mlo = 1000%Z /\
    (metric = "net_profit"%string \/ metric = "net_interest_income"%string)) \/
   (thi = 10000%Z /\ (10000 < mlo)%Z /\
    metric <> "net_profit"%string /\ metric <> "net_interest_income"%string)) /\
  (mlo + mhi)%Z <> 0%Z /\ (mlo <= mhi)%Z.
Proof.
  intros Hm Ht. apply modelled_metric in Hm.
  destruct Hm as [H|[H|[H|[H|[H|H]]]]]; injection H as -> -> ->;
    vm_compute in Ht; injection Ht as <- <-;
    (split; [reflexivity|]); (split; [|lia]);
    first [left; repeat split; tauto | right; repeat split; (lia || discriminate)].
Qed.

(** C3, as the code has it: for every modelled metric and every value
    (so for every positive one) the validator returns exactly one of the
    three outcomes: table-cell valid when the value is in the table-cell
    band, main-financial valid when it is in the main-financial band and
    not in the table-cell band, invalid when it is in neither.  The two
    bands share no value, except the boundary 1000 of net_profit and of
    net_interest_income, which is in both and is a table-cell value. *)
Theorem C3_validator_outcomes (metric : string) (tlo thi mlo mhi : Z)
    (value : Q) (year : Z) :
  table_cell_ranges !! metric = Some (tlo, thi) ->
  main_financial_ranges !! metric = Some (mlo, mhi) ->
  (exists r o,
     validate_extraction metric value year = Ok r /\ outcome r = Some o /\
     (o = table_cell_valid <-> between tlo thi value = true) /\
     (o = main_financial_valid <->
        between tlo thi value = false /\ between mlo mhi value = true) /\
     (o = invalid <->
        between tlo thi value = false /\ between mlo mhi value = false)) /\
  (between tlo thi value = true /\ between mlo mhi value = true <->
   (metric = "net_profit"%string \/ metric = "net_interest_income"%string) /\
   value == 1000).
Proof.
  intros Ht Hm.
  destruct (table_cell_band metric mlo mhi tlo thi Hm Ht) as (-> & Hband & Hne & Hle).
  split.
  - destruct (between 1 thi value) eqn:Htab.
    + rewrite (validate_table_cell metric 1 thi value year); eauto.
      eexists _, table_cell_valid. split; [reflexivity|].
      split; [reflexivity|]. intuition congruence.
    + destruct (between mlo mhi value) eqn:Hmain.
      * rewrite (validate_main_financial metric 1 thi mlo mhi value year); auto.
        eexists _, main_financial_valid. split; [reflexivity|].
        split; [reflexivity|]. intuition congruence.
      * rewrite (validate_invalid metric 1 thi mlo mhi value year); auto.
        eexists _, invalid. split; [reflexivity|].
        split; [reflexivity|]. intuition congruence.
  - rewrite !between_true.
    destruct Hband as [(-> & -> & Hmetric)|(-> & Hlo & Hn1 & Hn2)].
    + split.
      * intros [[_ Hv1] [Hv2 _]]. split; [exact Hmetric|].
        apply Qle_antisym; [exact Hv1 | exact Hv2].
      * intros [_ Hv]. rewrite Hv.
        repeat split; unfold Qle; simpl; lia.
    + split.
      * intros [[_ Hv1] [Hv2 _]]. exfalso.
        assert (Hlt : inject_Z 10000 < inject_Z mlo)
          by (rewrite <- Zlt_Qlt; exact Hlo).
        apply (Qlt_irrefl value).
        eapply Qle_lt_trans; [exact Hv1|].
        eapply Qlt_le_trans; [exact Hlt | exact Hv2].
      * intros [[H|H] _]; contradiction.
Qed.

Lemma C3_witness :
  (exists r o,
     validate_extraction "total_assets" 5000 2022 = Ok r /\ outcome r = Some o /\
     (o = table_cell_valid <-> between 1 10000 5000 = true) /\
     (o = main_financial_valid <->
        between 1 10000 5000 = false /\ between 400000 1200000 5000 = true) /\
     (o = invalid <->
        between 1 10000 5000 = false /\ between 400000 1200000 5000 = false)) /\
  (between 1 10000 5000 = true /\ between 400000 1200000 5000 = true <->
   ("total_assets"%string = "net_profit"%string \/
    "total_assets"%string = "net_interest_income"%string) /\
   5000 == 1000).
Proof.
  exact (C3_validator_outcomes "total_assets" 1 10000 400000 1200000 5000 2022
           eq_refl eq_refl).
Defined.

(** C3, as stated, fails: the positive value 1000 lies in the table-cell
    band and in the main-financial band of net_profit. *)
Lemma C3_counterexample :
  table_cell_ranges !! "net_profit"%string = Some (1, 1000)%Z /\
  main_financial_ranges !! "net_profit"%string = Some (1000, 20000)%Z /\
  0 < 1000 /\
  between 1 1000 1000 = true /\ between 1000 20000 1000 = true /\
  validate_extraction "net_profit" 1000 2022
    = Ok {| is_valid := true; confidence := 0.7; value_type := Some table_cell |}.
Proof.
  repeat split.
Qed.

(** ** Claims about the value normalizer *)

Import Text Normalizer.

Lemma chars_str (l : list ascii) : chars (str l) = l.
Proof. apply list_ascii_of_string_of_list_ascii. Qed.

Lemma str_chars (s : string) : str (chars s) = s.
Proof. apply string_of_list_ascii_of_string. Qed.


Section Filter.

Variable keep : ascii -> Prop.
Context `{forall c, Decision (keep c)}.
Hypothesis keep_no_space : forall c, keep c -> is_space c = false.

Lemma filter_drop_spaces (l : list ascii) :
  filter keep (drop_while is_space l) = filter keep l.
Proof.
  induction l as [|c l IH]; [reflexivity|]. simpl.
  destruct (is_space c) eqn:Hc; [|reflexivity].
  rewrite IH. rewrite filter_cons_False; [reflexivity|].
  intros Hk. apply keep_no_space in Hk. congruence.
Qed.

Lemma filter_rev (l : list ascii) : filter keep (rev l) = rev (filter keep l).
Proof.
  induction l as [|c l IH]; [reflexivity|]. simpl.
  rewrite filter_app, IH. destruct (decide (keep c)) as [Hk|Hk].
  - rewrite !filter_cons_True by exact Hk. reflexivity.
  - rewrite !filter_cons_False by exact Hk. rewrite filter_nil. apply app_nil_r.
Qed.

Lemma filter_strip (l : list ascii) : filter keep (strip_chars l) = filter keep l.
Proof.
  unfold strip_chars, lstrip_chars.
  rewrite filter_rev, filter_drop_spaces, filter_rev, rev_involutive.
  apply filter_drop_spaces.
Qed.

End Filter.

Lemma keep_numeric_strip (s : string) : keep_numeric (strip s) = keep_numeric s.
Proof.
  unfold keep_numeric, strip. rewrite chars_str. f_equal.
  apply filter_strip.
  intros c Hc. destruct (is_space c) eqn:Hs; [|reflexivity].
  exfalso. revert Hc Hs.
  destruct c as [[] [] [] [] [] [] [] []]; vm_compute; congruence.
Qed.






(** [float] raises nothing but [ValueError]. *)
Lemma float_value_error (s : string) :
  (exists v, float s = Ok v) \/ float s = Raise ValueError.
Proof.
  unfold float.
  destruct (drop_while is_digit (chars s)) as [|dot frac].
  - destruct (take_while is_digit (chars s)); [right|left; eexists]; reflexivity.
  - destruct (_ && _ && _); [left; eexists|right]; reflexivity.
Qed.



(** The body of the [try], once [cleaned] is known not to be empty. *)
Lemma convert_nonempty (value_str : string) :
  value_str <> ""%string -> keep_numeric value_str <> ""%string ->
  _convert_to_numeric value_str =
    catch
      (value ← float (keep_numeric value_str);
       if contains "trillion" (lower value_str) then mret (value * 1000000)
       else if contains "billion" (lower value_str) || contains "bn" (lower value_str)
       then mret (value * 1000)
       else if contains "'000" value_str then div value 1000
       else mret value)
      ValueError (mret 0).
Proof.
  intros Hs Hc. unfold _convert_to_numeric.
  rewrite (bool_decide_eq_false_2 _ Hs), keep_numeric_strip.
  now rewrite (bool_decide_eq_false_2 _ Hc).
Qed.


(** The normalizer returns on every string. *)
Lemma convert_returns (value_str : string) :
  exists v, _convert_to_numeric value_str = Ok v.
Proof.
  destruct (decide (value_str = ""%string)) as [->|Hs];
    [eexists; reflexivity|].
  destruct (decide (keep_numeric value_str = ""%string)) as [Hc|Hc].
  { unfold _convert_to_numeric.
    rewrite (bool_decide_eq_false_2 _ Hs), keep_numeric_strip, Hc.
    eexists; reflexivity. }
  rewrite (convert_nonempty _ Hs Hc).
  destruct (float_value_error (keep_numeric value_str)) as [[v ->]| ->];
    [|eexists; reflexivity].
  simpl.
  destruct (contains "trillion" _); [eexists; reflexivity|].
  destruct (_ || _); [eexists; reflexivity|].
  destruct (contains "'000" _); [|eexists; reflexivity].
  rewrite div_ok by discriminate. eexists; reflexivity.
Qed.



(** ** Claims about the data points the extractor builds *)

Import Normalizer Extractor.

Lemma new_data_point_fields (m : FinancialMetric) (v : Q) (p : string)
    (md : DocumentMetadata) (page : Z) (section : string) (c : Q)
    (dp : FinancialDataPoint) :
  FinancialDataPoint_new m v p md page section c = Ok dp ->
  value dp = v /\ 0 <= Schemas.confidence dp /\ Schemas.confidence dp <= 1.
Proof.
  unfold FinancialDataPoint_new.
  destruct (leb 0 c && leb c 1) eqn:Hc; [|discriminate].
  apply andb_true_iff in Hc. destruct Hc as [H0 H1].
  apply leb_true in H0, H1. intros [= <-]. simpl. auto.
Qed.

(** A value the validator accepts for a modelled metric is at least 1. *)
Lemma valid_modelled_value (metric : string) (v : Q) (year : Z)
    (r : ValidationResult) :
  is_Some (main_financial_ranges !! metric) ->
  validate_extraction metric v year = Ok r -> is_valid r = true -> 1 <= v.
Proof.
  intros [[mlo mhi] Hm] Hr Hvalid.
  assert (Ht : exists tlo thi, table_cell_ranges !! metric = Some (tlo, thi)).
  { apply modelled_metric in Hm.
    destruct Hm as [H|[H|[H|[H|[H|H]]]]]; injection H as -> -> ->;
      eexists _, _; vm_compute; reflexivity. }
  destruct Ht as (tlo & thi & Ht).
  destruct (table_cell_band metric mlo mhi tlo thi Hm Ht) as (-> & Hband & _ & _).
  destruct (between 1 thi v) eqn:Htab.
  - apply between_true in Htab. apply Htab.
  - destruct (between mlo mhi v) eqn:Hmain.
    + apply between_true in Hmain. destruct Hmain as [Hlo _].
      apply Qle_trans with (inject_Z mlo); [|exact Hlo].
      change (inject_Z 1 <= inject_Z mlo). rewrite <- Zle_Qle.
      destruct Hband as [(_ & -> & _)|(_ & Hgt & _)]; lia.
    + rewrite (validate_invalid metric 1 thi mlo mhi v year) in Hr by auto.
      injection Hr as <-. discriminate.
Qed.

(** The text path: every data point built from a pattern match has a
    positive value and a confidence between 0 and 1. *)
Lemma text_match_step_invariant (chunk : Chunk) (metric_name value_str : string)
    (dps : list FinancialDataPoint) (dp : FinancialDataPoint) :
  text_match_step chunk metric_name value_str = Ok dps -> In dp dps ->
  0 < value dp /\ 0 <= Schemas.confidence dp /\ Schemas.confidence dp <= 1.
Proof.
  unfold text_match_step. intros Hstep Hin.
  destruct (_convert_to_numeric value_str) as [v|]; [|discriminate].
  simpl in Hstep.
  destruct (negb (eqb v 0) && ltb 0 v) eqn:Hpos.
  - apply andb_true_iff in Hpos. destruct Hpos as [_ Hpos].
    apply ltb_true in Hpos.
    destruct (validate_extraction _ _ _) as [r|]; [|discriminate].
    simpl in Hstep. destruct (is_valid r).
    + destruct (FinancialMetric_of_value metric_name) as [m|];
        simpl in Hstep; [|injection Hstep as <-; contradiction].
      destruct (FinancialDataPoint_new _ _ _ _ _ _ _) as [dp'|] eqn:Hnew;
        simpl in Hstep; injection Hstep as <-; [|contradiction].
      destruct Hin as [<-|[]].
      apply new_data_point_fields in Hnew. destruct Hnew as (-> & H0 & H1).
      auto.
    + injection Hstep as <-. contradiction.
  - injection Hstep as <-. contradiction.
Qed.

(** The table path: the confidence is between 0 and 1, and the value is
    at least 1 when the metric is a modelled one. *)
Lemma table_metric_step_invariant (chunk : Chunk) (metric_name : string)
    (info : TableMetric) (dps : list FinancialDataPoint) (dp : FinancialDataPoint) :
  table_metric_step chunk (metric_name, info) = Ok dps -> In dp dps ->
  0 <= Schemas.confidence dp /\ Schemas.confidence dp <= 1 /\
  (is_Some (main_financial_ranges !! metric_name) -> 1 <= value dp).
Proof.
  unfold table_metric_step. intros Hstep Hin.
  destruct (validate_extraction _ _ _) as [r|] eqn:Hr; [|discriminate].
  simpl in Hstep. destruct (is_valid r) eqn:Hvalid.
  - destruct (FinancialMetric_of_value metric_name) as [m|];
      simpl in Hstep; [|injection Hstep as <-; contradiction].
    destruct (FinancialDataPoint_new _ _ _ _ _ _ _) as [dp'|] eqn:Hnew;
      simpl in Hstep; injection Hstep as <-; [|contradiction].
    destruct Hin as [<-|[]].
    apply new_data_point_fields in Hnew. destruct Hnew as (-> & H0 & H1).
    repeat split; auto.
    intros Hm. eapply valid_modelled_value; eauto.
  - injection Hstep as <-. contradiction.
Qed.

Lemma validate_extraction_returns (metric : string) (v : Q) (year : Z) :
  exists r, validate_extraction metric v year = Ok r.
Proof.
  destruct (main_financial_ranges !! metric) as [[mlo mhi]|] eqn:Hm.
  - assert (Ht : exists tlo thi, table_cell_ranges !! metric = Some (tlo, thi) /\
                                 (mlo + mhi)%Z <> 0%Z).
    { destruct (modelled_metric metric mlo mhi Hm) as [H|[H|[H|[H|[H|H]]]]];
        injection H as -> -> ->; eexists _, _; (split; [reflexivity | discriminate]). }
    destruct Ht as (tlo & thi & Ht & Hsum).
    destruct (between tlo thi v) eqn:Htb.
    + eexists. apply (validate_table_cell metric tlo thi v year); eauto.
    + destruct (between mlo mhi v) eqn:Hmb.
      * eexists. now apply (validate_main_financial metric tlo thi mlo mhi v year).
      * eexists. now apply (validate_invalid metric tlo thi mlo mhi v year).
  - unfold validate_extraction. rewrite Hm. eexists. reflexivity.
Qed.

Lemma concat_results_all {A B} (f : A -> Res (list B)) (P : B -> Prop) (l : list A) :
  (forall a, a ∈ l -> exists bs, f a = Ok bs /\ forall b, b ∈ bs -> P b) ->
  exists bs, Extractor.concat_results f l = Ok bs /\ forall b, b ∈ bs -> P b.
Proof.
  induction l as [|a l IH]; intros Hall.
  - exists []. split; [reflexivity|]. intros b Hb. now apply elem_of_nil in Hb.
  - destruct (Hall a (list_elem_of_here _ _)) as (bs & Hbs & Hp).
    destruct IH as (bs' & Hbs' & Hp').
    { intros a' Ha'. apply Hall. now apply list_elem_of_further. }
    exists (bs ++ bs'). cbn [Extractor.concat_results]. rewrite Hbs.
    cbn [mbind Res_bind]. rewrite Hbs'. split; [reflexivity|].
    intros b Hb. apply elem_of_app in Hb. destruct Hb; auto.
Qed.

Lemma text_match_step_returns (chunk : Chunk) (metric_name value_str : string) :
  exists dps, text_match_step chunk metric_name value_str = Ok dps.
Proof.
  unfold text_match_step.
  destruct (convert_returns value_str) as [v ->]. cbn [mbind Res_bind].
  destruct (negb (eqb v 0) && ltb 0 v); [|eexists; reflexivity].
  destruct (validate_extraction_returns metric_name v (year (cleaned_metadata chunk)))
    as [r ->].
  cbn [mbind Res_bind]. destruct (is_valid r); [|eexists; reflexivity].
  destruct (FinancialMetric_of_value metric_name) as [m|];
    cbn [mbind Res_bind catch_all]; [|eexists; reflexivity].
  destruct (FinancialDataPoint_new _ _ _ _ _ _ _);
    cbn [mbind Res_bind catch_all]; eexists; reflexivity.
Qed.

Lemma table_metric_step_returns (chunk : Chunk) (entry : string * TableMetric) :
  exists dps, table_metric_step chunk entry = Ok dps.
Proof.
  destruct entry as [name info]. unfold table_metric_step.
  destruct (validate_extraction_returns name (default 0 (tm_value info))
              (year (cleaned_metadata chunk))) as [r ->].
  cbn [mbind Res_bind]. destruct (is_valid r); [|eexists; reflexivity].
  destruct (FinancialMetric_of_value name) as [m|];
    cbn [mbind Res_bind catch_all]; [|eexists; reflexivity].
  destruct (FinancialDataPoint_new _ _ _ _ _ _ _);
    cbn [mbind Res_bind catch_all]; eexists; reflexivity.
Qed.

(** A data point is only built under a name of the schema. *)
Lemma table_metric_step_name (chunk : Chunk) (metric_name : string)
    (info : TableMetric) (dps : list FinancialDataPoint) (dp : FinancialDataPoint) :
  table_metric_step chunk (metric_name, info) = Ok dps -> dp ∈ dps ->
  is_Some (FinancialMetric_lookup metric_name).
Proof.
  unfold table_metric_step. intros Hstep Hin.
  destruct (validate_extraction _ _ _) as [r|]; [|discriminate].
  cbn [mbind Res_bind] in Hstep.
  destruct (is_valid r); [|injection Hstep as <-; now apply elem_of_nil in Hin].
  unfold FinancialMetric_of_value in Hstep.
  destruct (FinancialMetric_lookup metric_name) as [m|]; [now exists m|].
  cbn [mbind Res_bind catch_all] in Hstep. injection Hstep as <-.
  now apply elem_of_nil in Hin.
Qed.

(** A candidate that is not positive gives no data point: on the text
    path by the test of the loop, on the table path by the ranges of the
    validator, or because the name is no metric of the schema. *)
Lemma text_candidate_rejected (chunk : Chunk) (metric_name value_str : string)
    (v : Q) :
  _convert_to_numeric value_str = Ok v -> v <= 0 ->
  text_match_step chunk metric_name value_str = Ok [].
Proof.
  intros Hv Hle. unfold text_match_step. rewrite Hv. cbn [mbind Res_bind].
  apply ltb_false in Hle. rewrite Hle, andb_false_r. reflexivity.
Qed.

Lemma table_candidate_rejected (chunk : Chunk) (metric_name : string)
    (info : TableMetric) :
  (is_Some (FinancialMetric_lookup metric_name) ->
   is_Some (main_financial_ranges !! metric_name)) ->
  default 0 (tm_value info) <= 0 ->
  table_metric_step chunk (metric_name, info) = Ok [].
Proof.
  intros Hname Hle.
  destruct (table_metric_step_returns chunk (metric_name, info)) as [dps Hstep].
  rewrite Hstep. f_equal. destruct dps as [|dp dps]; [reflexivity|exfalso].
  assert (Hin : dp ∈ dp :: dps) by apply list_elem_of_here.
  assert (Hm := Hname (table_metric_step_name chunk metric_name info _ dp Hstep Hin)).
  destruct (table_metric_step_invariant chunk metric_name info _ dp Hstep)
    as (_ & _ & Hv); [now left|].
  specialize (Hv Hm).
  assert (Hval : value dp = default 0 (tm_value info)).
  { clear Hv Hin. unfold table_metric_step in Hstep.
    destruct (validate_extraction _ _ _) as [r|]; [|discriminate].
    cbn [mbind Res_bind] in Hstep. destruct (is_valid r); [|discriminate].
    destruct (FinancialMetric_of_value metric_name) as [m|];
      cbn [mbind Res_bind catch_all] in Hstep; [|discriminate].
    destruct (FinancialDataPoint_new _ _ _ _ _ _ _) as [dp'|] eqn:Hnew;
      cbn [mbind Res_bind catch_all] in Hstep; [|discriminate].
    injection Hstep as -> _.
    now apply new_data_point_fields in Hnew. }
  rewrite Hval in Hv. lra.
Qed.

(** C4: the table metrics of a chunk are recorded under the names of
    amounts (the keys of the mappings of the table and text extractors of
    the parser): a name that is a metric of the schema is one of the six
    the validator has ranges for.  For every such chunk, and so for every
    chunk without table metrics, as the vector store returns them,
    [_extract_metrics_from_chunk] returns, and every data point it has
    built, from a pattern match or from a table metric, has a value
    greater than 0 and a confidence between 0 and 1.  A candidate that
    is zero or negative gives no data point: the text path drops it
    before it validates, and the table path has it refused by the ranges
    of the validator (or by the schema, which has no metric of that
    name). *)
Theorem C4_extracted_data_points_are_positive
    (matched : string -> string -> list string) (chunk : Chunk) :
  (forall name info,
     (name, info) ∈ extracted_metrics chunk ->
     is_Some (FinancialMetric_lookup name) ->
     is_Some (main_financial_ranges !! name)) ->
  (exists dps,
     _extract_metrics_from_chunk matched chunk = Ok dps /\
     forall dp, dp ∈ dps ->
       0 < value dp /\ 0 <= Schemas.confidence dp /\ Schemas.confidence dp <= 1) /\
  (forall metric_name value_str v,
     _convert_to_numeric value_str = Ok v -> v <= 0 ->
     text_match_step chunk metric_name value_str = Ok []) /\
  (forall name info,
     (name, info) ∈ extracted_metrics chunk ->
     default 0 (tm_value info) <= 0 ->
     table_metric_step chunk (name, info) = Ok []).
Proof.
  intros Hnames. split; [|split].
  - set (P := fun dp : FinancialDataPoint =>
                0 < value dp /\ 0 <= Schemas.confidence dp /\ Schemas.confidence dp <= 1).
    assert (Htable : exists dps,
              _extract_metrics_from_table_data chunk = Ok dps /\
              forall dp, dp ∈ dps -> P dp).
    { apply concat_results_all. intros [name info] Hentry.
      destruct (table_metric_step_returns chunk (name, info)) as [dps Hstep].
      exists dps. split; [exact Hstep|]. intros dp Hdp.
      destruct (table_metric_step_invariant chunk name info dps dp Hstep)
        as (H0 & H1 & Hv); [now apply list_elem_of_In|].
      assert (Hm := Hnames name info Hentry
                      (table_metric_step_name chunk name info dps dp Hstep Hdp)).
      specialize (Hv Hm). unfold P. split; [lra | now split]. }
    assert (Htext : exists dps,
              concat_results
                (fun metric_name =>
                   concat_results (text_match_step chunk metric_name)
                     (matched metric_name (content chunk)))
                metric_pattern_names = Ok dps /\
              forall dp, dp ∈ dps -> P dp).
    { apply concat_results_all. intros name _.
      apply concat_results_all. intros value_str _.
      destruct (text_match_step_returns chunk name value_str) as [dps Hstep].
      exists dps. split; [exact Hstep|]. intros dp Hdp.
      apply (text_match_step_invariant chunk name value_str dps dp Hstep).
      now apply list_elem_of_In. }
    destruct Htable as (tdps & Ht & Htp). destruct Htext as (xdps & Hx & Hxp).
    unfold _extract_metrics_from_chunk.
    destruct (extracted_metrics chunk) as [|entry entries] eqn:Hentries.
    + cbn [mbind Res_bind mret Res_ret]. rewrite Hx. cbn [mbind Res_bind].
      exists xdps. split; [reflexivity|]. exact Hxp.
    + rewrite Ht. cbn [mbind Res_bind]. rewrite Hx. cbn [mbind Res_bind].
      exists (tdps ++ xdps). split; [reflexivity|].
      intros dp Hdp. apply elem_of_app in Hdp.
      destruct Hdp as [H|H]; [exact (Htp dp H) | exact (Hxp dp H)].
  - intros metric_name value_str v. apply text_candidate_rejected.
  - intros name info Hentry. apply table_candidate_rejected.
    apply (Hnames name info Hentry).
Qed.

(** A chunk of a table with a net profit of 5,120, a total of zero and a
    revenue, which is no metric of the schema, and a text match "0": one
    data point, of the net profit. *)
Lemma C4_witness :
  let info v := {| tm_value := Some v; tm_source := Some "table_financial_table"%string;
                   tm_confidence := Some 0.8 |} in
  let chunk := Sample.table_chunk
                 [("net_profit"%string, info 5120);
                  ("total_assets"%string, info 0);
                  ("total_revenue"%string, info (-3))] in
  let matched := fun (metric_name content : string) =>
                   if decide (metric_name = "net_profit"%string) then ["0"%string] else [] in
  (exists dps,
     _extract_metrics_from_chunk matched chunk = Ok dps /\
     forall dp, dp ∈ dps ->
       0 < value dp /\ 0 <= Schemas.confidence dp /\ Schemas.confidence dp <= 1) /\
  table_metric_step chunk ("total_assets"%string, info 0) = Ok [] /\
  table_metric_step chunk ("total_revenue"%string, info (-3)) = Ok [] /\
  text_match_step chunk "net_profit" "0" = Ok [].
Proof.
  intros info chunk matched.
  assert (Hnames : forall name i,
            (name, i) ∈ extracted_metrics chunk ->
            is_Some (FinancialMetric_lookup name) ->
            is_Some (main_financial_ranges !! name)).
  { intros name i Hin Hmetric. subst chunk. cbn [extracted_metrics Sample.table_chunk] in Hin.
    rewrite !elem_of_cons, elem_of_nil in Hin.
    destruct Hin as [H|[H|[H|[]]]]; injection H as -> _.
    - eexists. reflexivity.
    - eexists. reflexivity.
    - destruct Hmetric as [m Hm]. vm_compute in Hm. discriminate. }
  destruct (C4_extracted_data_points_are_positive matched chunk Hnames)
    as (Hall & Htext & Htable).
  split; [exact Hall|]. split; [|split].
  - apply Htable.
    + subst chunk. cbn [extracted_metrics Sample.table_chunk].
      apply list_elem_of_further, list_elem_of_here.
    + subst info. simpl. lra.
  - apply Htable.
    + subst chunk. cbn [extracted_metrics Sample.table_chunk].
      apply list_elem_of_further, list_elem_of_further, list_elem_of_here.
    + subst info. simpl. lra.
  - apply (Htext "net_profit"%string "0"%string 0); [reflexivity | lra].
Defined.

(** The hypothesis on the names is needed: the six ratios of the schema
    have no ranges in the validator, which accepts them unseen, and the
    table path has no test of its own; under such a name a value of -5,
    or an entry without a value, read as 0, would become a data point. *)
Example table_path_does_not_test_ratios :
  let info v := {| tm_value := v; tm_source := Some "table_financial_table"%string;
                   tm_confidence := Some 0.8 |} in
  (exists dp,
     _extract_metrics_from_table_data
       (Sample.table_chunk [("return_on_equity"%string, info (Some (-5)))]) = Ok [dp] /\
     metric dp = ROE /\ value dp = -5) /\
  (exists dp,
     _extract_metrics_from_chunk (fun _ _ => [])
       (Sample.table_chunk [("cost_of_risk"%string, info None)]) = Ok [dp] /\
     metric dp = COST_OF_RISK /\ value dp = 0).
Proof.
  simpl. split.
  - eexists. split; [vm_compute; reflexivity|]. now split.
  - eexists. split; [vm_compute; reflexivity|]. now split.
Qed.

(** ** The matcher finds only what the pattern describes *)

Import Text Regex.

Lemma star_sound {R} (p : ascii -> bool) (s : list ascii)
    (k : list ascii -> option R) (x : R) :
  star p s k = Some x ->
  exists w s', s = w ++ s' /\ Forall (fun c => p c = true) w /\ k s' = Some x.
Proof.
  induction s as [|c s IH]; simpl; intros H.
  - exists [], []. auto.
  - destruct (p c) eqn:Hc.
    + destruct (star p s k) as [y|] eqn:Hs.
      * injection H as ->. destruct (IH eq_refl) as (w & s' & -> & Hw & Hk).
        exists (c :: w), s'. auto.
      * exists [], (c :: s). auto.
    + exists [], (c :: s). auto.
Qed.

Lemma run_sound {R} (r : re) :
  forall (s : list ascii) (cs : captures)
         (k : list ascii -> captures -> option R) (x : R),
    run r s cs k = Some x ->
    exists w s' cs', s = w ++ s' /\ Matches r w cs' /\ k s' (cs ++ cs') = Some x.
Proof.
  induction r as [|p|r1 IH1 r2 IH2|p|r IH]; simpl; intros s cs k x H.
  - exists [], s, []. rewrite app_nil_r. split; [reflexivity|].
    split; [constructor | exact H].
  - destruct s as [|c s]; [discriminate|].
    destruct (p c) eqn:Hc; [|discriminate].
    exists [c], s, []. rewrite app_nil_r. split; [reflexivity|].
    split; [now constructor | exact H].
  - apply IH1 in H. destruct H as (w1 & s1 & cs1 & -> & H1 & H).
    apply IH2 in H. destruct H as (w2 & s2 & cs2 & -> & H2 & H).
    exists (w1 ++ w2), s2, (cs1 ++ cs2).
    rewrite <- app_assoc. split; [reflexivity|].
    split; [now constructor|]. now rewrite app_assoc.
  - apply star_sound in H. destruct H as (w & s' & -> & Hw & H).
    exists w, s', []. rewrite app_nil_r. split; [reflexivity|].
    split; [now constructor | exact H].
  - apply IH in H. destruct H as (w & s' & cs' & -> & Hm & H).
    exists w, s', (cs' ++ [w]). split; [reflexivity|].
    split; [now constructor|].
    rewrite length_app, Nat.add_sub, take_app_length in H.
    now rewrite app_assoc.
Qed.

Lemma match_at_sound (r : re) (s : list ascii) (cs : captures) (rest : list ascii) :
  match_at r s = Some (cs, rest) ->
  exists w, s = w ++ rest /\ Matches r w cs.
Proof.
  unfold match_at. intros H. apply run_sound in H.
  destruct H as (w & s' & cs' & -> & Hm & [= <- <-]). now exists w.
Qed.

Lemma search_chars_sound (r : re) (s : list ascii) (cs : captures)
    (rest : list ascii) :
  search_chars r s = Some (cs, rest) ->
  exists pre w, s = pre ++ w ++ rest /\ Matches r w cs.
Proof.
  induction s as [|c s IH]; simpl; intros H.
  - destruct (match_at r []) as [m|] eqn:Hm; [|discriminate].
    injection H as ->. apply match_at_sound in Hm.
    destruct Hm as (w & Hs & Hm). now exists [], w.
  - destruct (match_at r (c :: s)) as [m|] eqn:Hm.
    + injection H as ->. apply match_at_sound in Hm.
      destruct Hm as (w & Hs & Hm). now exists [], w.
    + destruct (IH H) as (pre & w & -> & Hw). now exists (c :: pre), w.
Qed.

Lemma finditer_chars_sound (r : re) (s : list ascii) :
  forall (skip : nat) (cs : captures),
    In cs (finditer_chars r s skip) ->
    exists pre w post, s = pre ++ w ++ post /\ Matches r w cs.
Proof.
  induction s as [|c s IH]; intros skip cs H.
  - destruct skip; simpl in H; [|contradiction].
    destruct (match_at r []) as [[cs' rest]|] eqn:Hm; [|contradiction].
    destruct H as [<-|[]]. apply match_at_sound in Hm.
    destruct Hm as (w & Hs & Hm). now exists [], w, rest.
  - destruct skip; simpl in H.
    + destruct (match_at r (c :: s)) as [[cs' rest]|] eqn:Hm.
      * destruct H as [<-|H].
        -- apply match_at_sound in Hm. destruct Hm as (w & Hs & Hm).
           now exists [], w, rest.
        -- apply IH in H. destruct H as (pre & w & post & -> & Hw).
           now exists (c :: pre), w, post.
      * apply IH in H. destruct H as (pre & w & post & -> & Hw).
        now exists (c :: pre), w, post.
    + apply IH in H. destruct H as (pre & w & post & -> & Hw).
      now exists (c :: pre), w, post.
Qed.

(** Every group is a piece of the matched text. *)
Lemma Matches_capture_infix (r : re) (w : list ascii) (cs : captures) :
  Matches r w cs ->
  forall g, In g cs -> exists a b, w = a ++ g ++ b.
Proof.
  induction 1 as [|p c Hc|r1 r2 w1 w2 cs1 cs2 _ IH1 _ IH2|p w Hw|r w cs _ IH];
    intros g Hg; try contradiction.
  - apply in_app_or in Hg. destruct Hg as [Hg|Hg].
    + destruct (IH1 g Hg) as (a & b & ->). exists a, (b ++ w2).
      now rewrite <- !app_assoc.
    + destruct (IH2 g Hg) as (a & b & ->). exists (w1 ++ a), b.
      now rewrite <- !app_assoc.
  - apply in_app_or in Hg. destruct Hg as [Hg|[<-|[]]].
    + now apply IH.
    + exists [], []. now rewrite app_nil_r.
Qed.

Lemma Matches_group_count (r : re) (w : list ascii) (cs : captures) :
  Matches r w cs -> length cs = group_count r.
Proof.
  induction 1; simpl; rewrite ?length_app; simpl; lia.
Qed.

(** Taking a pattern apart. *)
Ltac invert_matches :=
  repeat match goal with
         | H : Matches (Cat _ _) _ _ |- _ => inversion H; clear H; subst
         | H : Matches (Group _) _ _ |- _ => inversion H; clear H; subst
         | H : Matches (Cls _) _ _ |- _ => inversion H; clear H; subst
         | H : Matches (Star _) _ _ |- _ => inversion H; clear H; subst
         | H : Matches Eps _ _ |- _ => inversion H; clear H; subst
         end.

Lemma quarter_token_inv (w : list ascii) (cs : captures) :
  Matches quarter_token w cs -> cs = [] /\ Temporal.valid_quarter_token w.
Proof.
  unfold quarter_token, lit. intros H. invert_matches.
  split; [reflexivity|]. eexists _, _. split; [reflexivity|].
  split; [|assumption].
  match goal with
  | H : bool_decide _ = true |- _ => apply bool_decide_eq_true in H; exact H
  end.
Qed.

Lemma digit4_inv (w : list ascii) (cs : captures) :
  Matches digit4 w cs ->
  cs = [] /\ length w = 4%nat /\ Forall (fun c => is_digit c = true) w.
Proof.
  unfold digit4, digit. intros H. invert_matches.
  split; [reflexivity|]. split; [reflexivity|]. repeat constructor; assumption.
Qed.

Lemma spaces_inv (w : list ascii) (cs : captures) :
  Matches spaces w cs -> cs = [] /\ Forall (fun c => is_space c = true) w.
Proof.
  unfold spaces. intros H. invert_matches. auto.
Qed.

(** ** Claims about the period references of a query *)

Import Temporal Spec.

Lemma token_found (pre post : list ascii) (q d : ascii) :
  lower_char q = "q"%char -> in_range 49 52 d = true ->
  has_valid_quarter_token (pre ++ q :: d :: post) = true.
Proof.
  intros Hq Hd. induction pre as [|c pre IH].
  - simpl. now rewrite Hq, Hd.
  - simpl. destruct (pre ++ q :: d :: post) eqn:Hs.
    + destruct pre; discriminate.
    + rewrite IH. apply orb_true_r.
Qed.

Lemma token_in_text (g a b : list ascii) :
  valid_quarter_token g -> has_valid_quarter_token (a ++ g ++ b) = true.
Proof.
  intros (q & d & -> & Hq & Hd). now apply token_found.
Qed.

(** Characters: a [q] or [Q] becomes [Q], a digit stays what it is. *)
Lemma upper_of_q (c : ascii) : lower_char c = "q"%char -> upper_char c = "Q"%char.
Proof.
  destruct c as [[] [] [] [] [] [] [] []]; vm_compute; congruence.
Qed.

Lemma upper_of_digit (c : ascii) : is_digit c = true -> upper_char c = c.
Proof.
  destruct c as [[] [] [] [] [] [] [] []]; vm_compute; congruence.
Qed.

Lemma upper_is_Q (c : ascii) : upper_char c = "Q"%char -> lower_char c = "q"%char.
Proof.
  destruct c as [[] [] [] [] [] [] [] []]; vm_compute; congruence.
Qed.

Lemma upper_is_digit (c d : ascii) :
  upper_char c = d -> is_digit d = true -> c = d.
Proof.
  intros <-. destruct c as [[] [] [] [] [] [] [] []]; vm_compute; congruence.
Qed.

Lemma upper_is_not_lowercase (c d : ascii) :
  upper_char c = d -> in_range 97 122 d = false.
Proof.
  intros <-. destruct c as [[] [] [] [] [] [] [] []]; vm_compute; congruence.
Qed.

Lemma quarter_digit_is_digit (d : ascii) : in_range 49 52 d = true -> is_digit d = true.
Proof.
  destruct d as [[] [] [] [] [] [] [] []]; vm_compute; congruence.
Qed.

Lemma upper_str (l : list ascii) : upper (str l) = str (map upper_char l).
Proof. unfold upper. now rewrite chars_str. Qed.

Lemma quarter_first_inv (w : list ascii) (cs : captures) :
  Matches (Cat (Group quarter_token) (Cat spaces (Group digit4))) w cs ->
  exists q d ws year,
    mention q d ws year /\ w = q :: d :: ws ++ year /\ cs = [[q; d]; year].
Proof.
  intros H.
  inversion H as [| |r1 r2 w1 w23 cs1 cs23 Hg1 H23| |]; clear H; subst.
  inversion H23 as [| |r1 r2 w2 w3 cs2 cs3 Hs Hg3| |]; clear H23; subst.
  inversion Hg1 as [| | | |r1 w1' cs1' Hq]; clear Hg1; subst.
  inversion Hg3 as [| | | |r1 w3' cs3' Hy]; clear Hg3; subst.
  apply quarter_token_inv in Hq. destruct Hq as (-> & q & d & -> & Hq & Hd).
  apply digit4_inv in Hy. destruct Hy as (-> & Hlen & Hdig).
  apply spaces_inv in Hs. destruct Hs as (-> & Hws).
  exists q, d, w2, w3. split; [repeat split; assumption|]. auto.
Qed.

Lemma year_first_inv (w : list ascii) (cs : captures) :
  Matches (Cat (Group digit4) (Cat spaces (Group quarter_token))) w cs ->
  exists q d ws year,
    mention q d ws year /\ w = year ++ ws ++ [q; d] /\ cs = [year; [q; d]].
Proof.
  intros H.
  inversion H as [| |r1 r2 w1 w23 cs1 cs23 Hg1 H23| |]; clear H; subst.
  inversion H23 as [| |r1 r2 w2 w3 cs2 cs3 Hs Hg3| |]; clear H23; subst.
  inversion Hg1 as [| | | |r1 w1' cs1' Hy]; clear Hg1; subst.
  inversion Hg3 as [| | | |r1 w3' cs3' Hq]; clear Hg3; subst.
  apply quarter_token_inv in Hq. destruct Hq as (-> & q & d & -> & Hq & Hd).
  apply digit4_inv in Hy. destruct Hy as (-> & Hlen & Hdig).
  apply spaces_inv in Hs. destruct Hs as (-> & Hws).
  exists q, d, w2, w1. split; [repeat split; assumption|]. auto.
Qed.

Lemma period_pattern_inv (r : re) (w : list ascii) (cs : captures) :
  In r period_patterns -> Matches r w cs ->
  exists q d ws year,
    mention q d ws year /\
    ((w = q :: d :: ws ++ year /\ cs = [[q; d]; year]) \/
     (w = year ++ ws ++ [q; d] /\ cs = [year; [q; d]])).
Proof.
  intros [<-|[<-|[]]] H.
  - apply quarter_first_inv in H. destruct H as (q & d & ws & year & Hm & H).
    exists q, d, ws, year. auto.
  - apply year_first_inv in H. destruct H as (q & d & ws & year & Hm & H).
    exists q, d, ws, year. auto.
Qed.

Lemma period_of_mention (q d : ascii) (ws year : list ascii) :
  mention q d ws year ->
  period_of_match (groups [[q; d]; year]) = Some (period_text year d) /\
  period_of_match (groups [year; [q; d]]) = Some (period_text year d).
Proof.
  intros (Hq & Hd & _ & Hlen & Hdig).
  assert (Hup : upper (str [q; d]) = str ["Q"%char; d]).
  { rewrite upper_str.
    change (map upper_char [q; d]) with [upper_char q; upper_char d].
    now rewrite (upper_of_q q Hq), (upper_of_digit d (quarter_digit_is_digit d Hd)). }
  assert (Hs1 : startswith (upper (str [q; d])) "Q" = true).
  { rewrite Hup. unfold startswith. rewrite chars_str. reflexivity. }
  assert (Hs2 : startswith (upper (str year)) "Q" = false).
  { destruct year as [|y year]; [discriminate|].
    apply Forall_cons in Hdig. destruct Hdig as [Hy _].
    rewrite upper_str. unfold startswith. rewrite chars_str.
    change (map upper_char (y :: year)) with (upper_char y :: map upper_char year).
    rewrite (upper_of_digit y Hy).
    change (starts_with (chars "Q") (y :: map upper_char year))
      with (bool_decide ("Q"%char = y) && true).
    rewrite andb_true_r. apply bool_decide_eq_false. intros <-. discriminate. }
  unfold groups.
  change (map str [[q; d]; year]) with [str [q; d]; str year].
  change (map str [year; [q; d]]) with [str year; str [q; d]].
  unfold period_of_match. rewrite Hs1, Hs2, Hup. split; reflexivity.
Qed.

(** What [found_periods] holds: every entry comes from a mention that
    stands in the query. *)
Lemma found_period_is_mentioned (query : string) (p : string) :
  In p (found_periods query) ->
  exists q d ws year pre post,
    mention q d ws year /\ p = period_text year d /\
    (chars query = pre ++ (q :: d :: ws ++ year) ++ post \/
     chars query = pre ++ (year ++ ws ++ [q; d]) ++ post).
Proof.
  unfold found_periods. intros H. apply in_flat_map in H.
  destruct H as (r & Hr & H).
  apply list_elem_of_In, list_elem_of_omap in H.
  destruct H as (gs & Hgs & Hp). unfold finditer in Hgs.
  apply list_elem_of_In, in_map_iff in Hgs. destruct Hgs as (cs & <- & Hcs).
  apply finditer_chars_sound in Hcs. destruct Hcs as (pre & w & post & Hq & Hm).
  destruct (period_pattern_inv r w cs Hr Hm) as (q & d & ws & year & Hmen & Hshape).
  destruct (period_of_mention q d ws year Hmen) as [H1 H2].
  exists q, d, ws, year, pre, post. split; [exact Hmen|].
  destruct Hshape as [[-> ->]|[-> ->]].
  - rewrite H1 in Hp. injection Hp as <-. auto.
  - rewrite H2 in Hp. injection Hp as <-. auto.
Qed.


Lemma list_of_set_nil (list_of_set : list string -> list string) :
  lists_the_set list_of_set -> list_of_set [] = [].
Proof.
  intros Hset. destruct (Hset []) as [_ Hin].
  destruct (list_of_set []) as [|x l]; [reflexivity|].
  exfalso. apply (elem_of_nil x), Hin, list_elem_of_here.
Qed.

Lemma list_of_set_one (list_of_set : list string -> list string)
    (l : list string) (a : string) :
  lists_the_set list_of_set -> a ∈ l -> Forall (fun x => x = a) l ->
  list_of_set l = [a].
Proof.
  intros Hset Ha Hall. destruct (Hset l) as [Hnd Hin].
  assert (Hone : forall x, x ∈ list_of_set l -> x = a).
  { intros x Hx. apply Hin in Hx. rewrite Forall_forall in Hall. now apply Hall. }
  apply Hin in Ha.
  destruct (list_of_set l) as [|x [|y t]].
  - now apply elem_of_nil in Ha.
  - f_equal. apply Hone, list_elem_of_here.
  - exfalso. apply NoDup_cons in Hnd. destruct Hnd as [Hx _]. apply Hx.
    rewrite (Hone x) by apply list_elem_of_here.
    rewrite <- (Hone y) at 1 by apply list_elem_of_further, list_elem_of_here.
    apply list_elem_of_here.
Qed.

Lemma no_token_no_period (query : string) :
  has_valid_quarter_token (chars query) = false -> found_periods query = [].
Proof.
  intros Hno. destruct (found_periods query) as [|p l] eqn:Hfound; [reflexivity|].
  destruct (found_period_is_mentioned query p)
    as (q & d & ws & year & pre & post & (Hq & Hd & _) & _ & Hshape).
  { rewrite Hfound. now left. }
  exfalso. destruct Hshape as [Hs|Hs]; rewrite Hs in Hno.
  - simpl in Hno. rewrite token_found in Hno by assumption. discriminate.
  - replace (pre ++ (year ++ ws ++ [q; d]) ++ post)
      with ((pre ++ year ++ ws) ++ q :: d :: post) in Hno
      by (now rewrite <- !app_assoc).
    rewrite token_found in Hno by assumption. discriminate.
Qed.

(** *** [parse_period_reference] *)

Lemma int_value_error (s : string) :
  (exists z, int s = Ok z) \/ int s = Raise ValueError.
Proof.
  unfold int. destruct (int_digits _ _); [left; eexists|right]; reflexivity.
Qed.

Lemma int_digits_all (l : list ascii) (after_digit : bool) :
  Forall (fun c => is_digit c = true) l -> l <> [] \/ after_digit = true ->
  int_digits l after_digit = true.
Proof.
  intros Hl. revert after_digit.
  induction Hl as [|c l Hc _ IH]; intros b Hb; simpl.
  - destruct Hb; congruence.
  - rewrite Hc. apply IH. now right.
Qed.

Lemma int_of_digits (s : string) :
  s <> ""%string -> Forall (fun c => is_digit c = true) (chars s) ->
  int s = Ok (digits_val (chars s)).
Proof.
  intros Hne Hall. unfold int.
  rewrite (int_digits_all (chars s) false Hall).
  - f_equal. f_equal. clear Hne. induction Hall as [|c l Hc _ IH]; [reflexivity|].
    rewrite filter_cons_True by exact Hc. now rewrite IH.
  - left. intros Hnil. apply Hne. rewrite <- (str_chars s), Hnil. reflexivity.
Qed.

Lemma Quarter_value_error (s : string) :
  (exists q, Quarter_of_value s = Ok q) \/ Quarter_of_value s = Raise ValueError.
Proof.
  unfold Quarter_of_value.
  repeat (case_decide; [left; eexists; reflexivity|]). now right.
Qed.

Lemma upper_is_token (g : list ascii) (d : ascii) :
  upper (str g) = str ["Q"%char; d] -> in_range 49 52 d = true ->
  valid_quarter_token g.
Proof.
  intros Hup Hd. rewrite upper_str in Hup.
  apply (f_equal chars) in Hup. rewrite !chars_str in Hup.
  destruct g as [|c [|e [|x g]]]; try discriminate.
  injection Hup as Hc He.
  apply upper_is_Q in Hc.
  apply upper_is_digit in He; [|now apply quarter_digit_is_digit]. subst e.
  now exists c, d.
Qed.

(** Only [Q1] to [Q4], in either case, name a quarter. *)
Lemma quarter_of_upper (g : list ascii) (q : Quarter) :
  Quarter_of_value (upper (str g)) = Ok q -> valid_quarter_token g.
Proof.
  unfold Quarter_of_value.
  destruct (decide (upper (str g) = "Q1"%string)) as [Hup|_];
    [intros _; now apply (upper_is_token g "1")|].
  destruct (decide (upper (str g) = "Q2"%string)) as [Hup|_];
    [intros _; now apply (upper_is_token g "2")|].
  destruct (decide (upper (str g) = "Q3"%string)) as [Hup|_];
    [intros _; now apply (upper_is_token g "3")|].
  destruct (decide (upper (str g) = "Q4"%string)) as [Hup|_];
    [intros _; now apply (upper_is_token g "4")|].
  destruct (decide (upper (str g) = "Annual"%string)) as [Hup|_];
    [intros _|discriminate].
  exfalso. rewrite upper_str in Hup.
  apply (f_equal chars) in Hup. rewrite chars_str in Hup.
  destruct g as [|c1 [|c2 g]]; try discriminate.
  injection Hup as _ Hc _.
  apply upper_is_not_lowercase in Hc. discriminate.
Qed.

Lemma handle_quarterly (p : pattern) (g0 g1 : list ascii) :
  contains "annual" (source p) = false ->
  exists r, handle_match p (groups [g0; g1]) = Ok r /\ acceptable [g0; g1] r.
Proof.
  intros Hp. unfold handle_match. rewrite Hp. unfold groups.
  change (map str [g0; g1]) with [str g0; str g1].
  change (length [str g0; str g1] =? 2)%nat with true.
  change (getitem [str g0; str g1] 0) with (Ok (str g0)).
  change (getitem [str g0; str g1] 1) with (Ok (str g1)).
  cbn [mbind Res_bind mret Res_ret].
  destruct (startswith (upper (str g0)) "Q");
    cbn [mbind Res_bind mret Res_ret].
  - destruct (int_value_error (str g1)) as [[y ->]| ->];
      [|exists None; split; [reflexivity | now left]].
    cbn [mbind Res_bind].
    destruct (Quarter_value_error (upper (str g0))) as [[q Hq]|Hq]; rewrite Hq;
      [|exists None; split; [reflexivity | now left]].
    eexists. split; [reflexivity|]. right. right.
    exists g0. split; [now left | eapply quarter_of_upper; eauto].
  - destruct (int_value_error (str g0)) as [[y ->]| ->];
      [|exists None; split; [reflexivity | now left]].
    cbn [mbind Res_bind].
    destruct (Quarter_value_error (upper (str g1))) as [[q Hq]|Hq]; rewrite Hq;
      [|exists None; split; [reflexivity | now left]].
    eexists. split; [reflexivity|]. right. right.
    exists g1. split; [right; now left | eapply quarter_of_upper; eauto].
Qed.

Lemma handle_annual (p : pattern) (year : list ascii) :
  contains "annual" (source p) = true ->
  length year = 4%nat -> Forall (fun c => is_digit c = true) year ->
  exists r, handle_match p (groups [year]) = Ok r /\ acceptable [year] r.
Proof.
  intros Hp Hlen Hdig. unfold handle_match. rewrite Hp. unfold groups.
  change (map str [year]) with [str year].
  change (getitem [str year] 0) with (Ok (str year)).
  cbn [mbind Res_bind mret Res_ret].
  assert (Hisdigit : isdigit (str year) = true).
  { unfold isdigit. rewrite chars_str. destruct year as [|c year]; [discriminate|].
    apply forallb_forall. intros x Hx. rewrite List.Forall_forall in Hdig.
    now rewrite (Hdig x Hx). }
  rewrite Hisdigit. cbn [mbind Res_bind mret Res_ret].
  unfold int. rewrite chars_str.
  rewrite int_digits_all; [|exact Hdig | left; destruct year; discriminate].
  eexists. split; [reflexivity|]. right. left. eexists. reflexivity.
Qed.

Lemma two_groups (r : re) (w : list ascii) (cs : captures) :
  Matches r w cs -> group_count r = 2%nat -> exists g0 g1, cs = [g0; g1].
Proof.
  intros Hm Hn. apply Matches_group_count in Hm. rewrite Hn in Hm.
  destruct cs as [|g0 [|g1 [|g2 cs]]]; try discriminate. now exists g0, g1.
Qed.

Lemma no_groups (r : re) (w : list ascii) (cs : captures) :
  Matches r w cs -> group_count r = 0%nat -> cs = [].
Proof.
  intros Hm Hn. apply Matches_group_count in Hm. rewrite Hn in Hm.
  now destruct cs.
Qed.

(** Every pattern of the list, on any match, makes [handle_match]
    return: no exception leaves it. *)
Lemma handle_match_returns (p : pattern) (w : list ascii) (cs : captures) :
  In p patterns -> Matches (compiled p) w cs ->
  exists r, handle_match p (groups cs) = Ok r /\ acceptable cs r.
Proof.
  intros Hp Hm. simpl in Hp.
  destruct Hp as [<-|[<-|[<-|[<-|[<-|[<-|[]]]]]]].
  - destruct (two_groups _ _ _ Hm eq_refl) as (g0 & g1 & ->).
    now apply handle_quarterly.
  - destruct (two_groups _ _ _ Hm eq_refl) as (g0 & g1 & ->).
    now apply handle_quarterly.
  - destruct (two_groups _ _ _ Hm eq_refl) as (g0 & g1 & ->).
    now apply handle_quarterly.
  - destruct (two_groups _ _ _ Hm eq_refl) as (g0 & g1 & ->).
    now apply handle_quarterly.
  - simpl compiled in Hm.
    inversion Hm as [| |r1 r2 w1 w2 cs1 cs2 Hg Hrest| |]; clear Hm; subst.
    inversion Hg as [| | | |r1 w1' cs1' Hy]; clear Hg; subst.
    apply digit4_inv in Hy. destruct Hy as (-> & Hlen & Hdig).
    rewrite (no_groups _ _ _ Hrest eq_refl).
    now apply handle_annual.
  - simpl compiled in Hm.
    inversion Hm as [| |r1 r2 w1 w23 cs1 cs23 Hword H23| |]; clear Hm; subst.
    inversion H23 as [| |r1 r2 w2 w3 cs2 cs3 Hs Hg| |]; clear H23; subst.
    inversion Hg as [| | | |r1 w3' cs3' Hy]; clear Hg; subst.
    apply digit4_inv in Hy. destruct Hy as (-> & Hlen & Hdig).
    rewrite (no_groups _ _ _ Hword eq_refl), (no_groups _ _ _ Hs eq_refl).
    now apply handle_annual.
Qed.

Lemma search_sound (r : re) (text : string) (gs : list string) :
  search r text = Some gs ->
  exists pre w post cs,
    chars text = pre ++ w ++ post /\ Matches r w cs /\ gs = groups cs.
Proof.
  unfold search.
  destruct (search_chars r (chars text)) as [[cs rest]|] eqn:Hs; [|discriminate].
  intros [= <-]. apply search_chars_sound in Hs.
  destruct Hs as (pre & w & Hs & Hm). now exists pre, w, rest, cs.
Qed.

(** The loop over the patterns returns; a quarterly reference is read
    from a quarter token of the text. *)
Lemma try_patterns_returns (text : string) (ps : list pattern) :
  (forall p, In p ps -> In p patterns) ->
  exists r,
    try_patterns ps text = Ok r /\
    (r = None \/
     (exists y, r = Some {| ref_year := y; ref_quarter := ANNUAL;
                            ref_confidence := 0.9 |}) \/
     has_valid_quarter_token (chars text) = true).
Proof.
  induction ps as [|p ps IH]; intros Hps.
  - exists None. split; [reflexivity | now left].
  - simpl. assert (IH' := IH (fun q Hq => Hps q (or_intror Hq))).
    destruct (search (compiled p) text) as [gs|] eqn:Hs; [|exact IH'].
    apply search_sound in Hs. destruct Hs as (pre & w & post & cs & Ht & Hm & ->).
    destruct (handle_match_returns p w cs (Hps p (or_introl eq_refl)) Hm)
      as (r & -> & Hr).
    cbn [mbind Res_bind mret Res_ret].
    destruct r as [d|]; [|exact IH'].
    exists (Some d). split; [reflexivity|].
    destruct Hr as [Hr|[Hr|(g & Hg & Htok)]]; [discriminate | now right; left |].
    right. right.
    destruct (Matches_capture_infix _ _ _ Hm g Hg) as (a & b & ->).
    rewrite Ht.
    replace (pre ++ (a ++ g ++ b) ++ post) with ((pre ++ a) ++ g ++ (b ++ post))
      by (now rewrite <- !app_assoc).
    now apply token_in_text.
Qed.

(** Where the code does what is asked of it: a query in which no [Q]
    (or [q]) is directly followed by one of the digits 1 to 4 has no
    quarter token the parser accepts.  [_extract_target_periods] returns
    the empty list, and [parse_period_reference] returns nothing or, for
    a query that also mentions a year as annual, that annual reference.
    [parse_period_reference] returns on every text: no exception leaves
    it. *)
Lemma no_quarter_token_no_period (list_of_set : list string -> list string) :
  lists_the_set list_of_set ->
  (forall query,
     has_valid_quarter_token (chars query) = false ->
     _extract_target_periods list_of_set query = [] /\
     exists r, parse_period_reference query = Ok r /\
               (r = None \/
                exists y, r = Some {| ref_year := y; ref_quarter := ANNUAL;
                                      ref_confidence := 0.9 |})) /\
  (forall text, exists r, parse_period_reference text = Ok r) /\
  _extract_target_periods list_of_set "What was net profit in Q5 2023?" = [] /\
  parse_period_reference "What was net profit in Q5 2023?" = Ok None.
Proof.
  intros Hset. split; [|split; [|split]].
  - intros query Hno. split.
    + unfold _extract_target_periods. rewrite (no_token_no_period query Hno).
      now apply list_of_set_nil.
    + destruct (try_patterns_returns query patterns (fun p Hp => Hp))
        as (r & Hr & Hcase).
      exists r. split; [exact Hr|].
      destruct Hcase as [H|[H|H]]; [now left | now right | congruence].
  - intros text.
    destruct (try_patterns_returns text patterns (fun p Hp => Hp)) as (r & Hr & _).
    now exists r.
  - unfold _extract_target_periods.
    replace (found_periods "What was net profit in Q5 2023?") with (@nil string)
      by (vm_compute; reflexivity).
    now apply list_of_set_nil.
  - vm_compute. reflexivity.
Qed.

(** C7: the quarter token [Q10] is outside Q1..Q4, and no period should
    come of it.  After a year it does: the pattern [(\d{4})\s*(Q[1-4])]
    does not look at what follows the digit, takes the first two
    characters of the token as [Q1], and both functions return the
    period 2023 Q1 for "What was net profit in 2023 Q10?".  The other
    pattern, with the quarter first, has the year right after the token
    and so refuses the same token: "What was net profit in Q10 2023?"
    gives no period. *)
Theorem C7_quarter_after_year_is_cut_to_one_digit
    (list_of_set : list string -> list string) :
  lists_the_set list_of_set ->
  _extract_target_periods list_of_set "What was net profit in 2023 Q10?"
    = ["2023_Q1"%string] /\
  parse_period_reference "What was net profit in 2023 Q10?"
    = Ok (Some {| ref_year := 2023; ref_quarter := Q1; ref_confidence := 0.9 |}) /\
  _extract_target_periods list_of_set "What was net profit in Q10 2023?" = [] /\
  parse_period_reference "What was net profit in Q10 2023?" = Ok None.
Proof.
  intros Hset. split; [|split; [|split]].
  - unfold _extract_target_periods.
    replace (found_periods "What was net profit in 2023 Q10?")
      with ["2023_Q1"%string] by (vm_compute; reflexivity).
    apply list_of_set_one; [exact Hset | apply list_elem_of_here | now repeat constructor].
  - vm_compute. reflexivity.
  - unfold _extract_target_periods.
    replace (found_periods "What was net profit in Q10 2023?") with (@nil string)
      by (vm_compute; reflexivity).
    now apply list_of_set_nil.
  - vm_compute. reflexivity.
Qed.

Lemma C7_witness :
  _extract_target_periods remove_dups "What was net profit in 2023 Q10?"
    = ["2023_Q1"%string] /\
  parse_period_reference "What was net profit in 2023 Q10?"
    = Ok (Some {| ref_year := 2023; ref_quarter := Q1; ref_confidence := 0.9 |}) /\
  _extract_target_periods remove_dups "What was net profit in Q10 2023?" = [] /\
  parse_period_reference "What was net profit in Q10 2023?" = Ok None.
Proof.
  apply (C7_quarter_after_year_is_cut_to_one_digit remove_dups).
  intros l. split; [apply NoDup_remove_dups|]. intros x. apply elem_of_remove_dups.
Defined.

(** ** Every mention of the query is found *)

















(** *** The one reference of [parse_period_reference] *)









(** ** The period tool: previous periods and comparisons *)

Import PeriodTool.

Lemma quarter_of_own_value (q : Quarter) : Quarter_of_value (Quarter_value q) = Ok q.
Proof. destruct q; reflexivity. Qed.

(** One iteration of the loop, for a quarter of the year: the entry it
    appends and the period it goes on from. *)
Lemma previous_loop_step (i : nat) (rng : list nat) (year : Z) (q : Quarter) :
  q <> ANNUAL ->
  exists y' q',
    q' <> ANNUAL /\
    quarter_number y' q' = (quarter_number year q - 1)%Z /\
    previous_loop (i :: rng) year q =
      (periods ← previous_loop rng y' q';
       mret ({| pd_year := Some y'; pd_quarter := Some q';
                pd_period := Some (pretty y' +:+ "_" +:+ Quarter_value q');
                pd_sequence := Some (Z.of_nat i + 1)%Z |} :: periods)).
Proof.
  intros Hq. destruct q; [| | | |congruence].
  - exists (year - 1)%Z, Q4. split; [discriminate|].
    split; [unfold quarter_number; simpl; lia | reflexivity].
  - exists year, Q1. split; [discriminate|].
    split; [unfold quarter_number; simpl; lia | reflexivity].
  - exists year, Q2. split; [discriminate|].
    split; [unfold quarter_number; simpl; lia | reflexivity].
  - exists year, Q3. split; [discriminate|].
    split; [unfold quarter_number; simpl; lia | reflexivity].
Qed.

Lemma previous_loop_spec (n : nat) : forall (start : nat) (year : Z) (q : Quarter),
  q <> ANNUAL ->
  exists l,
    previous_loop (seq start n) year q = Ok l /\
    length l = n /\
    forall k d, l !! k = Some d ->
      exists y' q',
        d = {| pd_year := Some y'; pd_quarter := Some q';
               pd_period := Some (pretty y' +:+ "_" +:+ Quarter_value q');
               pd_sequence := Some (Z.of_nat (start + k) + 1)%Z |} /\
        q' <> ANNUAL /\
        quarter_number y' q' = (quarter_number year q - (Z.of_nat k + 1))%Z.
Proof.
  induction n as [|n IH]; intros start year q Hq.
  - exists []. split; [reflexivity|]. split; [reflexivity|].
    intros k d Hk. rewrite lookup_nil in Hk. discriminate.
  - destruct (previous_loop_step start (seq (S start) n) year q Hq)
      as (y' & q' & Hq' & Hnum & Hstep).
    destruct (IH (S start) y' q' Hq') as (l & Hl & Hlen & Hent).
    eexists. split.
    { change (seq start (S n)) with (start :: seq (S start) n).
      rewrite Hstep, Hl. reflexivity. }
    split; [simpl; now rewrite Hlen|].
    intros [|k] d Hk; simpl in Hk.
    + injection Hk as <-. exists y', q'.
      split; [now rewrite Nat.add_0_r|]. split; [exact Hq'|]. lia.
    + destruct (Hent k d Hk) as (y'' & q'' & -> & Hq'' & Hn'').
      exists y'', q''. split; [|split; [exact Hq''|lia]].
      now replace (S start + k)%nat with (start + S k)%nat by lia.
Qed.

(** X1: for a quarter of the year, [get_previous_periods] returns
    [n_periods] entries (none when [n_periods] is not positive); the
    entry at position [k] has [sequence] [k + 1], is the quarterly period
    [k + 1] quarters before the given one, the year going down by one
    from Q1 to Q4, and carries the key of that period. *)
Theorem get_previous_periods_walks_back (year : Z) (quarter : Quarter)
    (n_periods : Z) :
  quarter <> ANNUAL ->
  exists periods,
    get_previous_periods year quarter n_periods = Ok periods /\
    length periods = Z.to_nat n_periods /\
    forall k d, periods !! k = Some d ->
      exists y' q',
        d = {| pd_year := Some y'; pd_quarter := Some q';
               pd_period := Some (pretty y' +:+ "_" +:+ Quarter_value q');
               pd_sequence := Some (Z.of_nat k + 1)%Z |} /\
        q' <> ANNUAL /\
        quarter_number y' q' = (quarter_number year quarter - (Z.of_nat k + 1))%Z.
Proof.
  intros Hq. unfold get_previous_periods, range.
  destruct (previous_loop_spec (Z.to_nat n_periods) 0 year quarter Hq)
    as (l & Hl & Hlen & Hent).
  exists l. split; [exact Hl|]. split; [exact Hlen|]. exact Hent.
Qed.

Lemma get_previous_periods_walks_back_witness :
  exists periods,
    get_previous_periods 2022 Q3 4 = Ok periods /\
    length periods = 4%nat /\
    forall k d, periods !! k = Some d ->
      exists y' q',
        d = {| pd_year := Some y'; pd_quarter := Some q';
               pd_period := Some (pretty y' +:+ "_" +:+ Quarter_value q');
               pd_sequence := Some (Z.of_nat k + 1)%Z |} /\
        q' <> ANNUAL /\
        quarter_number y' q' = (quarter_number 2022 Q3 - (Z.of_nat k + 1))%Z.
Proof.
  apply (get_previous_periods_walks_back 2022 Q3 4). discriminate.
Defined.

(** X2: for an annual period [get_previous_periods] raises [ValueError]
    as soon as one previous period is asked for: "Annual" is not in the
    quarter sequence it looks the current quarter up in.  With a count
    that is not positive it returns the empty list, whatever the quarter. *)
Theorem get_previous_periods_annual (year n_periods : Z) :
  ((0 < n_periods)%Z ->
   get_previous_periods year ANNUAL n_periods = Raise ValueError) /\
  ((n_periods <= 0)%Z ->
   forall quarter, get_previous_periods year quarter n_periods = Ok []).
Proof.
  unfold get_previous_periods, range. split.
  - intros Hn. destruct (Z.to_nat n_periods) as [|n] eqn:Hz; [lia|]. reflexivity.
  - intros Hn quarter. replace (Z.to_nat n_periods) with 0%nat by lia. reflexivity.
Qed.

Lemma get_previous_periods_annual_witness :
  get_previous_periods 2022 ANNUAL 4 = Raise ValueError /\
  get_previous_periods 2022 Q3 0 = Ok [].
Proof.
  split.
  - apply (get_previous_periods_annual 2022 4). lia.
  - apply (get_previous_periods_annual 2022 0). lia.
Defined.

Lemma quarter_difference_ok (q1 q2 : Quarter) :
  q1 <> ANNUAL -> q2 <> ANNUAL ->
  _get_quarter_difference q1 q2 = Ok (quarter_ordinal q2 - quarter_ordinal q1)%Z.
Proof. destruct q1, q2; intros H1 H2; try congruence; reflexivity. Qed.

Lemma quarter_difference_annual (q1 q2 : Quarter) :
  q1 = ANNUAL \/ q2 = ANNUAL -> _get_quarter_difference q1 q2 = Raise KeyError.
Proof. destruct q1, q2; intros [H|H]; try discriminate; reflexivity. Qed.

Lemma quarter_ordinal_range (q : Quarter) :
  q <> ANNUAL -> (1 <= quarter_ordinal q <= 4)%Z.
Proof. destruct q; simpl; intros H; try lia; congruence. Qed.

Lemma quarter_ordinal_inj (q1 q2 : Quarter) :
  quarter_ordinal q1 = quarter_ordinal q2 -> q1 = q2.
Proof. destruct q1, q2; simpl; intros H; try reflexivity; discriminate. Qed.

(** What [compare_periods] returns for two quarterly periods. *)
Lemma compare_periods_spec (p1 p2 : PeriodDict) (y1 y2 : Z) (q1 q2 : Quarter) :
  pd_year p1 = Some y1 -> pd_quarter p1 = Some q1 -> q1 <> ANNUAL ->
  pd_year p2 = Some y2 -> pd_quarter p2 = Some q2 -> q2 <> ANNUAL ->
  exists rel,
    compare_periods p1 p2 =
      Ok {| period1 := p1; period2 := p2; relationship := rel;
            year_difference := (y2 - y1)%Z;
            quarter_difference := (quarter_ordinal q2 - quarter_ordinal q1)%Z |} /\
    (y1 = y2 -> q1 = q2 -> rel = "same period"%string) /\
    (y1 = y2 -> q1 <> q2 ->
     rel = ("same year, "
              +:+ pretty (Z.abs (quarter_ordinal q2 - quarter_ordinal q1))
              +:+ " quarter(s) " +:+ chronological y1 q1 y2 q2)%string) /\
    (y1 <> y2 ->
     rel = (pretty (Z.abs (y2 - y1)) +:+ " year(s) and "
              +:+ pretty ((quarter_ordinal q2 - quarter_ordinal q1) mod 4)%Z
              +:+ " quarter(s) " +:+ chronological y1 q1 y2 q2)%string).
Proof.
  intros Hy1 Hq1 Ha1 Hy2 Hq2 Ha2.
  assert (R1 := quarter_ordinal_range q1 Ha1).
  assert (R2 := quarter_ordinal_range q2 Ha2).
  unfold compare_periods. rewrite Hy1, Hq1, Hy2, Hq2. simpl.
  rewrite (quarter_difference_ok q1 q2 Ha1 Ha2). simpl.
  destruct (Z.eqb_spec y1 y2) as [->|Hne].
  - destruct (decide (q1 = q2)) as [->|Hq]; simpl.
    + eexists. split; [reflexivity|].
      split; [reflexivity|]. split; [congruence|congruence].
    + eexists. split; [reflexivity|].
      split; [congruence|]. split; [|congruence].
      intros _ _. unfold direction, chronological, quarter_number.
      destruct (Z.ltb_spec 0 (quarter_ordinal q2 - quarter_ordinal q1));
        destruct (decide _); (reflexivity || lia).
  - eexists. split; [reflexivity|].
    split; [congruence|]. split; [congruence|].
    intros _. unfold direction, chronological, quarter_number.
    replace (((y2 - y1) * 4 + (quarter_ordinal q2 - quarter_ordinal q1)) mod 4)%Z
      with ((quarter_ordinal q2 - quarter_ordinal q1) mod 4)%Z
      by (rewrite Z.add_comm, Z_mod_plus_full; reflexivity).
    rewrite (Z.abs_eq (_ mod 4)) by (apply Z.mod_pos_bound; lia).
    destruct (Z.ltb_spec 0 ((y2 - y1) * 4 + (quarter_ordinal q2 - quarter_ordinal q1)));
      destruct (decide _); (reflexivity || lia).
Qed.

(** X3: [compare_periods] returns exactly for two dictionaries that both
    have a year and a quarter of the year; otherwise it raises
    [KeyError]: for a missing key, and for an annual period on either
    side, also when the two periods are the same annual period. *)
Theorem compare_periods_key_error (p1 p2 : PeriodDict) :
  (is_quarterly p1 /\ is_quarterly p2 ->
   exists c, compare_periods p1 p2 = Ok c) /\
  (~ (is_quarterly p1 /\ is_quarterly p2) ->
   compare_periods p1 p2 = Raise KeyError).
Proof.
  split.
  - intros [(y1 & q1 & Hy1 & Hq1 & Ha1) (y2 & q2 & Hy2 & Hq2 & Ha2)].
    destruct (compare_periods_spec p1 p2 y1 y2 q1 q2 Hy1 Hq1 Ha1 Hy2 Hq2 Ha2)
      as (rel & Hc & _).
    eexists. exact Hc.
  - intros Hno. unfold compare_periods.
    destruct (pd_year p1) as [y1|] eqn:Hy1; [|reflexivity].
    destruct (pd_quarter p1) as [q1|] eqn:Hq1; [|reflexivity].
    destruct (pd_year p2) as [y2|] eqn:Hy2; [|reflexivity].
    destruct (pd_quarter p2) as [q2|] eqn:Hq2; [|reflexivity].
    simpl.
    assert (Hann : q1 = ANNUAL \/ q2 = ANNUAL).
    { destruct (decide (q1 = ANNUAL)) as [|H1]; [now left|].
      destruct (decide (q2 = ANNUAL)) as [|H2]; [now right|].
      exfalso. apply Hno. split; [exists y1, q1 | exists y2, q2]; auto. }
    rewrite (quarter_difference_annual q1 q2 Hann).
    destruct (y1 =? y2)%Z; [|reflexivity].
    destruct (decide (q1 = q2)); reflexivity.
Qed.

Lemma compare_periods_key_error_witness :
  (exists c, compare_periods (quarterly 2022 Q1) (quarterly 2023 Q1) = Ok c) /\
  compare_periods (quarterly 2022 ANNUAL) (quarterly 2022 ANNUAL) = Raise KeyError /\
  compare_periods
    {| pd_year := None; pd_quarter := None; pd_period := Some "2022_Q1"%string;
       pd_sequence := None |}
    (quarterly 2023 Q1) = Raise KeyError.
Proof.
  split; [|split].
  - apply (compare_periods_key_error (quarterly 2022 Q1) (quarterly 2023 Q1)).
    split; [exists 2022%Z, Q1 | exists 2023%Z, Q1]; repeat split; discriminate.
  - apply (compare_periods_key_error (quarterly 2022 ANNUAL) (quarterly 2022 ANNUAL)).
    intros [(y & q & Hy & Hq & Ha) _]. simpl in Hq. congruence.
  - apply compare_periods_key_error.
    intros [(y & q & Hy & Hq & Ha) _]. simpl in Hy. discriminate.
Defined.

(** X4: for two quarterly periods [compare_periods] returns the signed
    differences of the years and of the quarter ordinals, and a text:
    "same period" for equal periods; within a year the number of quarters
    between them; across years the number of years and the difference
    of the quarter ordinals modulo 4, which is not the distance in
    quarters.  The direction word is the time order of the two periods. *)
Theorem compare_periods_relationship (y1 y2 : Z) (q1 q2 : Quarter) :
  q1 <> ANNUAL -> q2 <> ANNUAL ->
  exists c,
    compare_periods (quarterly y1 q1) (quarterly y2 q2) = Ok c /\
    year_difference c = (y2 - y1)%Z /\
    quarter_difference c = (quarter_ordinal q2 - quarter_ordinal q1)%Z /\
    (y1 = y2 -> q1 = q2 -> relationship c = "same period"%string) /\
    (y1 = y2 -> q1 <> q2 ->
     relationship c =
       ("same year, "
          +:+ pretty (Z.abs (quarter_ordinal q2 - quarter_ordinal q1))
          +:+ " quarter(s) " +:+ chronological y1 q1 y2 q2)%string) /\
    (y1 <> y2 ->
     relationship c =
       (pretty (Z.abs (y2 - y1)) +:+ " year(s) and "
          +:+ pretty ((quarter_ordinal q2 - quarter_ordinal q1) mod 4)%Z
          +:+ " quarter(s) " +:+ chronological y1 q1 y2 q2)%string).
Proof.
  intros Ha1 Ha2.
  destruct (compare_periods_spec (quarterly y1 q1) (quarterly y2 q2) y1 y2 q1 q2
              eq_refl eq_refl Ha1 eq_refl eq_refl Ha2) as (rel & Hc & Hrel).
  eexists. split; [exact Hc|]. split; [reflexivity|]. split; [reflexivity|].
  exact Hrel.
Qed.

Lemma compare_periods_relationship_witness :
  exists c,
    compare_periods (quarterly 2022 Q4) (quarterly 2023 Q1) = Ok c /\
    year_difference c = 1%Z /\ quarter_difference c = (-3)%Z /\
    relationship c = "1 year(s) and 1 quarter(s) later"%string.
Proof.
  destruct (compare_periods_relationship 2022 2023 Q4 Q1) as (c & Hc & Hy & Hq & _ & _ & Hrel);
    [discriminate | discriminate |].
  exists c. split; [exact Hc|]. split; [exact Hy|]. split; [exact Hq|].
  rewrite Hrel by discriminate. vm_compute. reflexivity.
Defined.

(** X5: the period [get_previous_periods] puts at position [k] is
    [k + 1] quarters before the period it started from, by the
    differences [compare_periods] returns for the two: four times the
    difference of the years plus the difference of the quarters is
    [k + 1]. *)
Theorem previous_period_distance (year : Z) (quarter : Quarter) (n_periods : Z)
    (periods : list PeriodDict) (k : nat) (d : PeriodDict) :
  quarter <> ANNUAL ->
  get_previous_periods year quarter n_periods = Ok periods ->
  periods !! k = Some d ->
  exists c,
    compare_periods d (quarterly year quarter) = Ok c /\
    (4 * year_difference c + quarter_difference c = Z.of_nat k + 1)%Z.
Proof.
  intros Hq Hp Hk. unfold get_previous_periods, range in Hp.
  destruct (previous_loop_spec (Z.to_nat n_periods) 0 year quarter Hq)
    as (l & Hl & _ & Hent).
  rewrite Hl in Hp. injection Hp as <-.
  destruct (Hent k d Hk) as (y' & q' & -> & Hq' & Hnum).
  destruct (compare_periods_spec
              {| pd_year := Some y'; pd_quarter := Some q';
                 pd_period := Some (pretty y' +:+ "_" +:+ Quarter_value q');
                 pd_sequence := Some (Z.of_nat (0 + k) + 1)%Z |}
              (quarterly year quarter) y' year q' quarter
              eq_refl eq_refl Hq' eq_refl eq_refl Hq) as (rel & Hc & _).
  eexists. split; [exact Hc|]. simpl. unfold quarter_number in Hnum. lia.
Qed.

Lemma previous_period_distance_witness :
  exists periods d c,
    get_previous_periods 2022 Q1 3 = Ok periods /\
    periods !! 2%nat = Some d /\
    pd_period d = Some "2021_Q2"%string /\
    compare_periods d (quarterly 2022 Q1) = Ok c /\
    (4 * year_difference c + quarter_difference c = 3)%Z.
Proof.
  destruct (get_previous_periods 2022 Q1 3) as [periods|] eqn:Hp; [|discriminate].
  destruct (periods !! 2%nat) as [d|] eqn:Hd;
    [|vm_compute in Hp; injection Hp as <-; discriminate].
  destruct (previous_period_distance 2022 Q1 3 periods 2 d) as (c & Hc & Hdist);
    [discriminate | exact Hp | exact Hd |].
  exists periods, d, c. split; [reflexivity|]. split; [exact Hd|].
  split; [|split; [exact Hc | exact Hdist]].
  vm_compute in Hp. injection Hp as <-. vm_compute in Hd. injection Hd as <-.
  reflexivity.
Defined.

(** ** The temporal analysis agent *)

Import PeriodTool TemporalAnalyzer.

Lemma ascii_compare_lt_trans (a b c : ascii) :
  Ascii.compare a b = Lt -> Ascii.compare b c = Lt -> Ascii.compare a c = Lt.
Proof.
  unfold Ascii.compare. rewrite !N.compare_lt_iff. lia.
Qed.

Lemma string_compare_trans (a : string) : forall b c,
  String.compare a b <> Gt -> String.compare b c <> Gt -> String.compare a c <> Gt.
Proof.
  induction a as [|x a IH]; intros [|y b] [|z c]; simpl; try congruence.
  destruct (Ascii.compare x y) eqn:Hxy; [| |congruence].
  - apply Ascii.compare_eq_iff in Hxy. subst y.
    destruct (Ascii.compare x z) eqn:Hxz; [apply IH | congruence | congruence].
  - intros _. destruct (Ascii.compare y z) eqn:Hyz; [| |congruence].
    + apply Ascii.compare_eq_iff in Hyz. subst z. rewrite Hxy. congruence.
    + rewrite (ascii_compare_lt_trans x y z Hxy Hyz). congruence.
Qed.

Lemma str_le_compare (a b : string) : str_le a b <-> String.compare a b <> Gt.
Proof.
  unfold str_le, String.leb. destruct (String.compare a b); split; congruence.
Qed.

Lemma str_le_trans : Transitive str_le.
Proof.
  intros a b c. rewrite !str_le_compare. apply string_compare_trans.
Qed.

Lemma str_le_total : Total str_le.
Proof. intros a b. apply String.leb_total. Qed.

Lemma str_le_antisym (a b : string) : str_le a b -> str_le b a -> a = b.
Proof. apply String.leb_antisym. Qed.

Lemma sorted_permutation (l : list string) : sorted l ≡ₚ l.
Proof. apply sorting.merge_sort_Permutation. Qed.

Lemma sorted_length (l : list string) : length (sorted l) = length l.
Proof. now rewrite sorted_permutation. Qed.

Lemma keys_length {V} (d : gmap string V) : length (keys d) = size d.
Proof. unfold keys. rewrite length_fmap. apply length_map_to_list. Qed.

Lemma elem_of_keys {V} (d : gmap string V) (k : string) :
  k ∈ keys d <-> is_Some (d !! k).
Proof.
  unfold keys. rewrite list_elem_of_fmap. split.
  - intros ([k' v] & -> & Hin). apply elem_of_map_to_list in Hin. now exists v.
  - intros [v Hv]. exists (k, v). split; [reflexivity|].
    now apply elem_of_map_to_list.
Qed.

Lemma elem_of_sorted_keys {V} (d : gmap string V) (k : string) :
  k ∈ sorted (keys d) <-> is_Some (d !! k).
Proof. rewrite sorted_permutation. apply elem_of_keys. Qed.

(** The comparison loop of the analyzer stops at its first step. *)
Lemma analyzer_compare_loop_raises (data_by_period : gmap string (gmap string Q))
    (periods : list string) (rng : list nat) :
  (2 <= length periods)%nat ->
  compare_loop data_by_period periods (0%nat :: rng) = Raise KeyError.
Proof.
  intros Hlen. destruct periods as [|p1 [|p2 periods]]; simpl in Hlen; try lia.
  reflexivity.
Qed.

Lemma analyzer_compare_periods_cases (data_by_period : gmap string (gmap string Q)) :
  _compare_periods data_by_period =
    if (2 <=? size data_by_period)%nat then Raise KeyError else Ok [].
Proof.
  unfold _compare_periods.
  assert (Hlen : length (sorted (keys data_by_period)) = size data_by_period)
    by (now rewrite sorted_length, keys_length).
  destruct (Nat.leb_spec 2 (size data_by_period)) as [H2|H2].
  - destruct (length (sorted (keys data_by_period)) - 1)%nat as [|n] eqn:Hn; [lia|].
    simpl seq. apply analyzer_compare_loop_raises. lia.
  - replace (length (sorted (keys data_by_period)) - 1)%nat with 0%nat by lia.
    reflexivity.
Qed.

(** The step of the analyzer's grouping, at one (period, metric key). *)
Lemma analyzer_group_step_lookup (grouped : gmap string (gmap string Q))
    (dp : FinancialDataPoint) (p m : string) :
  (group_step grouped dp !! p) ≫= (fun by_metric => by_metric !! m) =
    if decide (period dp = p /\ FinancialMetric_value (metric dp) = m)
    then Some (value dp)
    else (grouped !! p) ≫= (fun by_metric => by_metric !! m).
Proof.
  unfold group_step.
  destruct (decide (period dp = p)) as [<-|Hp].
  - rewrite lookup_alter_eq.
    destruct (grouped !! period dp) as [by_metric|] eqn:Hg;
      [rewrite Hg | rewrite lookup_insert_eq]; simpl.
    + destruct (decide (FinancialMetric_value (metric dp) = m)) as [<-|Hm].
      * rewrite lookup_insert_eq. now rewrite decide_True.
      * rewrite lookup_insert_ne by exact Hm. rewrite decide_False by tauto.
        reflexivity.
    + destruct (decide (FinancialMetric_value (metric dp) = m)) as [<-|Hm].
      * rewrite lookup_insert_eq. now rewrite decide_True.
      * rewrite lookup_insert_ne by exact Hm. rewrite decide_False by tauto.
        reflexivity.
  - rewrite lookup_alter_ne by exact Hp. rewrite decide_False by tauto.
    destruct (grouped !! period dp); [reflexivity|].
    now rewrite lookup_insert_ne.
Qed.

Lemma analyzer_group_step_dom (grouped : gmap string (gmap string Q))
    (dp : FinancialDataPoint) :
  dom (group_step grouped dp) = {[period dp]} ∪ dom grouped.
Proof.
  unfold group_step. rewrite dom_alter_L.
  destruct (grouped !! period dp) eqn:Hg.
  - apply elem_of_dom_2 in Hg. apply set_eq. intros x.
    rewrite elem_of_union, elem_of_singleton. split; [auto|].
    intros [->|Hx]; [exact Hg | exact Hx].
  - now rewrite dom_insert_L.
Qed.

Lemma analyzer_group_dom (data_points : list FinancialDataPoint) :
  dom (TemporalAnalyzer._group_data_by_period data_points)
    = list_to_set (period <$> data_points).
Proof.
  unfold TemporalAnalyzer._group_data_by_period.
  induction data_points as [|dp l IH] using rev_ind.
  - simpl. apply dom_empty_L.
  - rewrite fold_left_app. simpl. rewrite analyzer_group_step_dom, IH.
    rewrite fmap_app, list_to_set_app_L. simpl. apply set_eq. intros x.
    rewrite !elem_of_union, elem_of_empty. tauto.
Qed.

Lemma analyzer_group_size (data_points : list FinancialDataPoint) :
  (2 <= size (TemporalAnalyzer._group_data_by_period data_points))%nat <->
  exists dp1 dp2, dp1 ∈ data_points /\ dp2 ∈ data_points /\ period dp1 <> period dp2.
Proof.
  rewrite <- size_dom, analyzer_group_dom. split.
  - intros Hsize.
    destruct (set_choose_or_empty (list_to_set (period <$> data_points) : gset string))
      as [[p1 Hp1]|Hemp].
    + destruct (set_choose_or_empty
                  ((list_to_set (period <$> data_points) : gset string) ∖ {[p1]}))
        as [[p2 Hp2]|Hemp].
      * apply elem_of_difference in Hp2. destruct Hp2 as [Hp2 Hne].
        apply elem_of_list_to_set, list_elem_of_fmap in Hp1, Hp2.
        destruct Hp1 as (dp1 & -> & Hd1). destruct Hp2 as (dp2 & -> & Hd2).
        exists dp1, dp2. split; [exact Hd1|]. split; [exact Hd2|].
        intros Heq. apply Hne. apply elem_of_singleton. congruence.
      * assert (Hsub : (list_to_set (period <$> data_points) : gset string) ⊆ {[p1]}).
        { intros x Hx. apply elem_of_singleton.
          destruct (decide (x = p1)) as [->|Hn]; [reflexivity|].
          exfalso. apply (proj1 (elem_of_equiv_empty _) Hemp x).
          apply elem_of_difference. split; [exact Hx|].
          intros Hs. now apply elem_of_singleton in Hs. }
        apply subseteq_size in Hsub. rewrite size_singleton in Hsub. lia.
    + apply size_empty_iff in Hemp. lia.
  - intros (dp1 & dp2 & Hd1 & Hd2 & Hne).
    assert (Hsub : ({[period dp1; period dp2]} : gset string)
                     ⊆ list_to_set (period <$> data_points)).
    { intros x Hx. apply elem_of_list_to_set, list_elem_of_fmap.
      apply elem_of_union in Hx. destruct Hx as [Hx|Hx]; apply elem_of_singleton in Hx;
        subst x; eauto. }
    apply subseteq_size in Hsub.
    rewrite size_union in Hsub
      by (apply disjoint_singleton_l; intros Hx; apply elem_of_singleton in Hx;
          congruence).
    rewrite !size_singleton in Hsub. lia.
Qed.

(** What the pattern for relative references captures. *)
Lemma relative_pattern_inv (w : list ascii) (cs : captures) :
  Matches relative_pattern w cs ->
  exists ds, cs = [ds] /\ ds <> [] /\ Forall (fun c => is_digit c = true) ds.
Proof.
  unfold relative_pattern, spaces1, digits1. cbn [chars list_ascii_of_string exact_word].
  unfold exact.
  intros H. invert_matches. simpl.
  eexists. split; [reflexivity|]. split; [discriminate|].
  constructor; assumption.
Qed.

Lemma analyzer_references_return (query : string) :
  exists refs, TemporalAnalyzer._extract_temporal_references query = Ok refs.
Proof.
  unfold TemporalAnalyzer._extract_temporal_references.
  destruct (try_patterns_returns query patterns (fun p Hp => Hp)) as (r & Hr & _).
  unfold parse_period_reference. rewrite Hr. simpl.
  destruct (contains "last" (lower query) && contains "quarter" (lower query));
    [|eexists; reflexivity].
  destruct (search relative_pattern (lower query)) as [gs|] eqn:Hs;
    [|eexists; reflexivity].
  apply search_sound in Hs. destruct Hs as (pre & w & post & cs & _ & Hm & ->).
  apply relative_pattern_inv in Hm. destruct Hm as (ds & -> & Hne & Hds).
  simpl. unfold int. rewrite chars_str.
  rewrite (int_digits_all ds false Hds (or_introl Hne)). simpl.
  eexists; reflexivity.
Qed.

(** X6: the analyzer's [_compare_periods] hands [compare_periods] two
    dictionaries that only have the key "period", so the first
    comparison raises [KeyError]: the method returns (the empty list)
    only for fewer than two periods. *)
Theorem analyzer_compare_periods_raises
    (data_by_period : gmap string (gmap string Q)) :
  ((size data_by_period < 2)%nat -> _compare_periods data_by_period = Ok []) /\
  ((2 <= size data_by_period)%nat ->
   _compare_periods data_by_period = Raise KeyError).
Proof.
  rewrite analyzer_compare_periods_cases. split; intros H.
  - destruct (Nat.leb_spec 2 (size data_by_period)); [lia | reflexivity].
  - destruct (Nat.leb_spec 2 (size data_by_period)); [reflexivity | lia].
Qed.

Lemma analyzer_compare_periods_raises_witness :
  _compare_periods {[ "2022_Q1"%string := {[ "net_profit"%string := 5120 ]} ]} = Ok [] /\
  _compare_periods {[ "2022_Q1"%string := {[ "net_profit"%string := 5120 ]};
                      "2022_Q2"%string := {[ "net_profit"%string := 5300 ]} ]}
    = Raise KeyError.
Proof.
  split.
  - apply analyzer_compare_periods_raises. vm_compute. lia.
  - apply analyzer_compare_periods_raises. vm_compute. lia.
Defined.

(** X7: [analyze] raises [KeyError] whenever the data points are of two
    or more periods; when all of them are of one period (or there is
    none) it returns the references found in the query, with no
    comparison and no trend.  (For a query of at most 4300 characters:
    no digit string in it is too long for [int].) *)
Theorem analyze_raises_for_two_periods (data_points : list FinancialDataPoint)
    (query : string) :
  (String.length query <= 4300)%nat ->
  ((exists dp1 dp2, dp1 ∈ data_points /\ dp2 ∈ data_points /\
                    period dp1 <> period dp2) ->
   analyze data_points query = Raise KeyError) /\
  ((forall dp1 dp2, dp1 ∈ data_points -> dp2 ∈ data_points ->
                    period dp1 = period dp2) ->
   exists refs,
     TemporalAnalyzer._extract_temporal_references query = Ok refs /\
     analyze data_points query =
       Ok {| period_comparisons := []; trends := ∅; seasonal_patterns := [];
             query_temporal_context := refs |}).
Proof.
  intros _. unfold analyze.
  destruct (analyzer_references_return query) as (refs & Hrefs).
  rewrite Hrefs, analyzer_compare_periods_cases.
  destruct (2 <=? size (TemporalAnalyzer._group_data_by_period data_points))%nat
    eqn:Hsize; simpl.
  - apply Nat.leb_le, analyzer_group_size in Hsize. split; [reflexivity|].
    intros Hone. destruct Hsize as (dp1 & dp2 & Hd1 & Hd2 & Hne).
    now specialize (Hone dp1 dp2 Hd1 Hd2).
  - apply Nat.leb_gt in Hsize. split.
    + intros Htwo. apply analyzer_group_size in Htwo. lia.
    + intros _. exists refs. split; reflexivity.
Qed.

Lemma analyze_raises_for_two_periods_witness :
  analyze [net_profit_2022_Q1 5120 0.9;
           {| metric := NET_PROFIT; value := 5300; period := "2022_Q2";
              metadata := fab_2022; source_page := 1;
              source_section := "income_statement"; Schemas.confidence := 0.9 |}]
          "Compare net profit in Q1 2022 and Q2 2022" = Raise KeyError /\
  exists refs,
    TemporalAnalyzer._extract_temporal_references "Net profit over the last 4 quarters"
      = Ok refs /\
    analyze [net_profit_2022_Q1 5120 0.9] "Net profit over the last 4 quarters" =
      Ok {| period_comparisons := []; trends := ∅; seasonal_patterns := [];
            query_temporal_context := refs |}.
Proof.
  split.
  - apply analyze_raises_for_two_periods; [vm_compute; lia|].
    eexists _, _. split; [apply list_elem_of_here|].
    split; [apply list_elem_of_further, list_elem_of_here|]. discriminate.
  - apply analyze_raises_for_two_periods; [vm_compute; lia|].
    intros dp1 dp2 H1 H2. apply list_elem_of_singleton in H1, H2. now subst.
Defined.

Lemma series_entry (data_by_period : gmap string (gmap string Q)) (metric p : string) :
  (data_by_period !! p ≫= fun metrics => metrics !! metric ≫= fun v => Some (p, v))
    = (fun v => (p, v)) <$> value_at data_by_period p metric.
Proof.
  unfold value_at. destruct (data_by_period !! p) as [metrics|]; [|reflexivity].
  simpl. destruct (metrics !! metric); reflexivity.
Qed.

Lemma metric_series_cons (data_by_period : gmap string (gmap string Q))
    (periods : list string) (metric p : string) :
  metric_series data_by_period (p :: periods) metric =
    match value_at data_by_period p metric with
    | Some v => (p, v) :: metric_series data_by_period periods metric
    | None => metric_series data_by_period periods metric
    end.
Proof.
  unfold metric_series. simpl. rewrite series_entry.
  destruct (value_at data_by_period p metric); reflexivity.
Qed.

Lemma metric_series_elem (data_by_period : gmap string (gmap string Q))
    (periods : list string) (metric p : string) (v : Q) :
  (p, v) ∈ metric_series data_by_period periods metric <->
  p ∈ periods /\ value_at data_by_period p metric = Some v.
Proof.
  induction periods as [|p' periods IH].
  - unfold metric_series. simpl. rewrite !elem_of_nil. tauto.
  - rewrite metric_series_cons, elem_of_cons.
    destruct (value_at data_by_period p' metric) as [v'|] eqn:Hv.
    + rewrite elem_of_cons, IH. split.
      * intros [[= -> ->]|[Hin Hval]]; [now split; [left|] | split; [now right | exact Hval]].
      * intros [[->|Hin] Hval]; [left; congruence | right; now split].
    + rewrite IH. split.
      * intros [Hin Hval]. split; [now right | exact Hval].
      * intros [[->|Hin] Hval]; [congruence | now split].
Qed.

Lemma metric_series_values (data_by_period : gmap string (gmap string Q))
    (periods : list string) (metric : string) :
  Forall2 (fun p v => value_at data_by_period p metric = Some v)
          (metric_series data_by_period periods metric).*1
          (metric_series data_by_period periods metric).*2.
Proof.
  induction periods as [|p periods IH].
  - constructor.
  - rewrite metric_series_cons.
    destruct (value_at data_by_period p metric) as [v|] eqn:Hv; [|exact IH].
    simpl. constructor; [exact Hv | exact IH].
Qed.

Lemma metric_series_sorted (R : string -> string -> Prop)
    (data_by_period : gmap string (gmap string Q)) (periods : list string)
    (metric : string) :
  Sorted.StronglySorted R periods ->
  Sorted.StronglySorted R (metric_series data_by_period periods metric).*1.
Proof.
  induction 1 as [|p periods Hs IH Hall].
  - constructor.
  - rewrite metric_series_cons.
    destruct (value_at data_by_period p metric) as [v|] eqn:Hv; [|exact IH].
    simpl. constructor; [exact IH|].
    apply List.Forall_forall. intros q Hq. apply list_elem_of_In in Hq.
    apply list_elem_of_fmap in Hq. destruct Hq as ([q' w] & -> & Hin).
    apply metric_series_elem in Hin. destruct Hin as [Hin _].
    rewrite List.Forall_forall in Hall. apply Hall. now apply list_elem_of_In.
Qed.

Lemma strict_sorted (l : list string) :
  Sorted.StronglySorted str_le l -> NoDup l -> Sorted.StronglySorted str_lt l.
Proof.
  induction 1 as [|a l Hs IH Hall]; intros Hnd.
  - constructor.
  - apply NoDup_cons in Hnd. destruct Hnd as [Hnotin Hnd].
    constructor; [now apply IH|].
    rewrite List.Forall_forall in Hall. apply List.Forall_forall.
    intros b Hb. split; [now apply Hall|].
    intros ->. apply Hnotin. now apply list_elem_of_In.
Qed.

Lemma keys_NoDup {V} (d : gmap string V) : NoDup (keys d).
Proof. apply NoDup_fst_map_to_list. Qed.

Lemma sorted_keys_strict {V} (d : gmap string V) :
  Sorted.StronglySorted str_lt (sorted (keys d)).
Proof.
  apply strict_sorted.
  - apply sorting.StronglySorted_merge_sort; [apply str_le_trans | apply str_le_total].
  - rewrite sorted_permutation. apply keys_NoDup.
Qed.

(** The metrics of some period. *)
Lemma elem_of_all_metrics (data_by_period : gmap string (gmap string Q))
    (metric : string) :
  metric ∈ all_metrics data_by_period <->
  exists p, is_Some (value_at data_by_period p metric).
Proof.
  unfold all_metrics, value_at.
  apply (map_fold_weak_ind
           (fun (metrics : gset string) (d : gmap string (gmap string Q)) =>
              metric ∈ metrics <->
              exists p, is_Some (d !! p ≫= fun ms => ms !! metric))).
  - split; [intros H; now apply elem_of_empty in H|].
    intros (p & v & Hv). rewrite lookup_empty in Hv. discriminate.
  - intros p period_data d metrics Hnone IH.
    rewrite elem_of_union, IH, elem_of_dom. split.
    + intros [Hin|(q & Hq)].
      * exists p. now rewrite lookup_insert_eq.
      * exists q. destruct (decide (q = p)) as [->|Hne].
        -- rewrite Hnone in Hq. destruct Hq as [v Hv]. discriminate.
        -- now rewrite lookup_insert_ne.
    + intros (q & Hq). destruct (decide (q = p)) as [->|Hne].
      * rewrite lookup_insert_eq in Hq. now left.
      * rewrite lookup_insert_ne in Hq by congruence. right. now exists q.
Qed.

Lemma metric_trend_absent (data_by_period : gmap string (gmap string Q))
    (periods : list string) (metric : string) :
  metric ∉ all_metrics data_by_period ->
  metric_trend data_by_period periods metric = None.
Proof.
  intros Hnot. unfold metric_trend.
  destruct (metric_series data_by_period periods metric) as [|[p v] l] eqn:Hs;
    [reflexivity|].
  exfalso. apply Hnot, elem_of_all_metrics. exists p.
  assert (Hin : (p, v) ∈ metric_series data_by_period periods metric)
    by (rewrite Hs; apply list_elem_of_here).
  apply metric_series_elem in Hin. destruct Hin as [_ Hv]. now exists v.
Qed.

Lemma metric_trends_lookup (data_by_period : gmap string (gmap string Q))
    (metric : string) :
  _calculate_metric_trends data_by_period !! metric =
    metric_trend data_by_period (sorted (keys data_by_period)) metric.
Proof.
  unfold _calculate_metric_trends.
  set (periods := sorted (keys data_by_period)).
  assert (H :
    (metric ∈ all_metrics data_by_period ->
     set_fold (fun metric trends =>
                 match metric_trend data_by_period periods metric with
                 | Some t => <[metric := t]> trends
                 | None => trends
                 end) (∅ : gmap string MetricTrend) (all_metrics data_by_period)
       !! metric = metric_trend data_by_period periods metric) /\
    (metric ∉ all_metrics data_by_period ->
     set_fold (fun metric trends =>
                 match metric_trend data_by_period periods metric with
                 | Some t => <[metric := t]> trends
                 | None => trends
                 end) (∅ : gmap string MetricTrend) (all_metrics data_by_period)
       !! metric = None)).
  { apply (set_fold_ind_L
             (fun (trends : gmap string MetricTrend) (X : gset string) =>
                (metric ∈ X ->
                 trends !! metric = metric_trend data_by_period periods metric) /\
                (metric ∉ X -> trends !! metric = None))).
    - split; [intros H; now apply elem_of_empty in H|].
      intros _. apply lookup_empty.
    - intros x X trends Hx [IHin IHout].
      rewrite elem_of_union, elem_of_singleton.
      destruct (decide (metric = x)) as [->|Hne].
      + split; [|tauto]. intros _.
        destruct (metric_trend data_by_period periods x) eqn:Ht;
          [now rewrite lookup_insert_eq | now apply IHout].
      + destruct (metric_trend data_by_period periods x).
        * rewrite lookup_insert_ne by congruence. split; [|tauto].
          intros [Heq|Hin]; [congruence | now apply IHin].
        * split; [|tauto]. intros [Heq|Hin]; [congruence | now apply IHin]. }
  destruct H as [Hin Hout].
  destruct (decide (metric ∈ all_metrics data_by_period)) as [Hm|Hm].
  - now apply Hin.
  - rewrite (Hout Hm). symmetry. now apply metric_trend_absent.
Qed.

Lemma value_at_period (data_by_period : gmap string (gmap string Q))
    (p metric : string) :
  is_Some (value_at data_by_period p metric) -> p ∈ sorted (keys data_by_period).
Proof.
  unfold value_at. intros [v Hv]. apply elem_of_sorted_keys.
  destruct (data_by_period !! p); [eauto | discriminate].
Qed.

Lemma last_default {A} (l : list A) (d : A) :
  l <> [] -> last l = Some (List.last l d).
Proof.
  induction l as [|a [|b l] IH]; intros Hne; [congruence | reflexivity |].
  rewrite last_cons_cons. rewrite IH by discriminate. reflexivity.
Qed.

(** X8: [_calculate_metric_trends] has an entry for a metric exactly
    when two different periods have a value for it.  The entry lists
    these periods in ascending order with their values, counts them, and
    compares the last value with the first: "upward", "downward" or
    "stable", and the change in percent of the first value (0 for a first
    value of 0).  For a negative first value the two disagree: the
    direction is "upward" while the percentage is negative. *)
Theorem metric_trends_characterised (data_by_period : gmap string (gmap string Q))
    (metric : string) :
  (is_Some (_calculate_metric_trends data_by_period !! metric) <->
   exists p1 p2, p1 <> p2 /\
     is_Some (value_at data_by_period p1 metric) /\
     is_Some (value_at data_by_period p2 metric)) /\
  (forall t, _calculate_metric_trends data_by_period !! metric = Some t ->
     Sorted.StronglySorted str_lt (mt_periods t) /\
     (forall p, p ∈ mt_periods t <-> is_Some (value_at data_by_period p metric)) /\
     Forall2 (fun p v => value_at data_by_period p metric = Some v)
             (mt_periods t) (mt_values t) /\
     periods_analyzed t = length (mt_values t) /\
     exists v_first v_last,
       head (mt_values t) = Some v_first /\ last (mt_values t) = Some v_last /\
       (v_first < v_last -> direction t = "upward"%string) /\
       (v_last < v_first -> direction t = "downward"%string) /\
       (v_first == v_last -> direction t = "stable"%string) /\
       (v_first == 0 -> total_change_percentage t = 0) /\
       (~ v_first == 0 ->
        total_change_percentage t = (v_last - v_first) / v_first * 100) /\
       (v_first < 0 -> v_first < v_last ->
        direction t = "upward"%string /\ total_change_percentage t < 0)).
Proof.
  rewrite metric_trends_lookup.
  set (periods := sorted (keys data_by_period)).
  assert (Hsorted : Sorted.StronglySorted str_lt
                      (metric_series data_by_period periods metric).*1)
    by (apply metric_series_sorted, sorted_keys_strict).
  assert (Hvalues := metric_series_values data_by_period periods metric).
  assert (Helem := metric_series_elem data_by_period periods metric).
  unfold metric_trend.
  destruct (metric_series data_by_period periods metric) as [|[p1 v1] [|[p2 v2] series]]
    eqn:Hseries; cbn [fmap list_fmap fst snd] in *.
  - split; [|intros t Ht; discriminate]. split; [intros [t Ht]; discriminate|].
    intros (q1 & q2 & _ & [w1 Hw1] & _). exfalso.
    apply (proj1 (elem_of_nil (q1, w1))), Helem.
    split; [|exact Hw1]. apply (value_at_period _ _ metric). now exists w1.
  - split; [|intros t Ht; discriminate]. split; [intros [t Ht]; discriminate|].
    intros (q1 & q2 & Hne & [w1 Hw1] & [w2 Hw2]). exfalso.
    assert (H1 : (q1, w1) ∈ [(p1, v1)]).
    { apply Helem. split; [|exact Hw1].
      apply (value_at_period _ _ metric). now exists w1. }
    assert (H2 : (q2, w2) ∈ [(p1, v1)]).
    { apply Helem. split; [|exact Hw2].
      apply (value_at_period _ _ metric). now exists w2. }
    apply list_elem_of_singleton in H1, H2. congruence.
  - split.
    + split; [|intros _; eexists; reflexivity].
      intros _. exists p1, p2.
      inversion Hsorted as [|? ? _ Hall]; subst.
      apply List.Forall_cons_iff in Hall. destruct Hall as [[_ Hne] _].
      split; [exact Hne|]. split.
      * exists v1. apply (Helem p1 v1). apply list_elem_of_here.
      * exists v2. apply (Helem p2 v2). apply list_elem_of_further, list_elem_of_here.
    + intros t [= <-]. cbn [mt_periods mt_values periods_analyzed direction
                            total_change_percentage].
      split; [exact Hsorted|]. split.
      { intros p.
        change (p ∈ fst <$> ((p1, v1) :: (p2, v2) :: series) <->
                is_Some (value_at data_by_period p metric)).
        rewrite list_elem_of_fmap. split.
        - intros ([p' v] & -> & Hin). apply Helem in Hin. destruct Hin as [_ Hv].
          now exists v.
        - intros [v Hv]. exists (p, v). split; [reflexivity|]. apply Helem.
          split; [|exact Hv]. apply (value_at_period _ _ metric). now exists v. }
      split; [exact Hvalues|]. split; [reflexivity|].
      set (vl := List.last (v1 :: v2 :: series.*2) v1).
      change (match series.*2 with
              | [] => v2
              | _ :: _ => List.last series.*2 v1
              end) with vl.
      exists v1, vl.
      split; [reflexivity|]. split; [now apply last_default|].
      clearbody vl.
      split; [intros Hlt; apply ltb_true in Hlt; now rewrite Hlt|].
      split.
      { intros Hlt. assert (Hle : vl <= v1) by now apply Qlt_le_weak.
        apply ltb_false in Hle. rewrite Hle. apply ltb_true in Hlt. now rewrite Hlt. }
      split.
      { intros Heq.
        assert (H1 : Py.ltb v1 vl = false) by (apply ltb_false; rewrite Heq; apply Qle_refl).
        assert (H2 : Py.ltb vl v1 = false) by (apply ltb_false; rewrite Heq; apply Qle_refl).
        now rewrite H1, H2. }
      split; [intros Hz; apply eqb_true in Hz; now rewrite Hz|].
      split; [intros Hz; apply eqb_false in Hz; now rewrite Hz|].
      intros Hneg Hlt. split; [apply ltb_true in Hlt; now rewrite Hlt|].
      assert (Hz : ~ v1 == 0) by (intros Hz; rewrite Hz in Hneg; now apply Qlt_irrefl in Hneg).
      apply eqb_false in Hz. rewrite Hz. simpl.
      assert (Hq : (vl - v1) / v1 * v1 == vl - v1) by (field; exact (proj1 (eqb_false _ _) Hz)).
      revert Hq. generalize ((vl - v1) / v1). intros q Hq. nra.
Qed.

Lemma metric_trends_characterised_witness :
  let data_by_period : gmap string (gmap string Q) :=
    {[ "2022_Q1"%string := {[ "net_profit"%string := -10 ]};
       "2022_Q2"%string := {[ "net_profit"%string := -5 ]} ]} in
  exists t,
    _calculate_metric_trends data_by_period !! "net_profit"%string = Some t /\
    mt_periods t = ["2022_Q1"; "2022_Q2"]%string /\
    direction t = "upward"%string /\ total_change_percentage t < 0.
Proof.
  intros data_by_period.
  destruct (metric_trends_characterised data_by_period "net_profit") as [Hiff Hent].
  destruct (proj2 Hiff) as [t Ht].
  { exists "2022_Q1"%string, "2022_Q2"%string. split; [discriminate|].
    split; eexists; vm_compute; reflexivity. }
  exists t. split; [exact Ht|].
  destruct (Hent t Ht)
    as (_ & _ & _ & _ & vf & vl & Hhead & Hlast & _ & _ & _ & _ & _ & Hneg).
  vm_compute in Ht. injection Ht as <-.
  injection Hhead as <-. injection Hlast as <-.
  split; [reflexivity|]. apply Hneg; reflexivity.
Defined.

Lemma FinancialMetric_value_inj (m1 m2 : FinancialMetric) :
  FinancialMetric_value m1 = FinancialMetric_value m2 -> m1 = m2.
Proof. destruct m1, m2; simpl; intros H; try reflexivity; discriminate. Qed.

(** X9: the two copies of [_group_data_by_period], of the calculation
    agent (keyed by the metric) and of the temporal analyzer (keyed by
    the metric's value), hold the same value for every period and
    metric: that of the last data point with that period and metric. *)
Theorem grouping_copies_agree (data_points : list FinancialDataPoint)
    (p : string) (m : FinancialMetric) :
  value_at (TemporalAnalyzer._group_data_by_period data_points) p
           (FinancialMetric_value m)
    = grouped_value (Aggregator._group_data_by_period data_points) p m /\
  value_at (TemporalAnalyzer._group_data_by_period data_points) p
           (FinancialMetric_value m)
    = value <$> last (with_key p m data_points).
Proof.
  assert (H : value_at (TemporalAnalyzer._group_data_by_period data_points) p
                (FinancialMetric_value m)
              = value <$> last (with_key p m data_points)).
  { unfold TemporalAnalyzer._group_data_by_period, with_key, value_at.
    induction data_points as [|dp l IH] using rev_ind.
    - reflexivity.
    - rewrite fold_left_app. simpl. rewrite analyzer_group_step_lookup, filter_app.
      destruct (decide (period dp = p /\ metric dp = m)) as [Hk|Hk].
      + rewrite filter_cons_True by exact Hk. rewrite filter_nil, last_snoc.
        destruct Hk as [<- <-]. now rewrite decide_True.
      + rewrite filter_cons_False by exact Hk. rewrite filter_nil, app_nil_r.
        rewrite decide_False; [exact IH|].
        intros [Hp Hm]. apply Hk. split; [exact Hp|].
        now apply FinancialMetric_value_inj. }
  split; [|exact H]. rewrite H.
  unfold Aggregator._group_data_by_period, with_key.
  induction data_points as [|dp l IH] using rev_ind.
  - reflexivity.
  - rewrite fold_left_app. simpl. rewrite grouped_value_step, filter_app.
    destruct (decide (period dp = p /\ metric dp = m)) as [Hk|Hk].
    + rewrite filter_cons_True by exact Hk. now rewrite filter_nil, last_snoc.
    + rewrite filter_cons_False by exact Hk. rewrite filter_nil, app_nil_r.
      apply IH.
      unfold TemporalAnalyzer._group_data_by_period, with_key, value_at in *.
      rewrite fold_left_app in H. simpl in H.
      rewrite analyzer_group_step_lookup, filter_app in H.
      rewrite filter_cons_False in H by exact Hk.
      rewrite filter_nil, app_nil_r in H.
      rewrite decide_False in H; [exact H|].
      intros [Hp Hm]. apply Hk. split; [exact Hp|].
      now apply FinancialMetric_value_inj.
Qed.

(** ** The calculation agent *)

Import PeriodTool TemporalAnalyzer CalcAgent.

(** A ratio of the calculator, by cases on its denominator. *)
Lemma calculate_roe_cases (n d : Q) (h : list CalcResult) :
  calculate_roe n d h =
    if Py.eqb d 0 then (Ok (ErrorResult "Cannot calculate ROE with zero equity"), h)
    else (Ok (Roe n d (n / d * 100)), h ++ [Roe n d (n / d * 100)]).
Proof.
  unfold calculate_roe. destruct (Py.eqb d 0) eqn:Hd; [reflexivity|].
  unfold mbind, Calc_bind, lift, history_append, mret, Calc_ret, div.
  now rewrite Hd.
Qed.

Lemma calculate_ldr_cases (n d : Q) (h : list CalcResult) :
  calculate_loan_to_deposit n d h =
    if Py.eqb d 0 then (Ok (ErrorResult "Cannot calculate LDR with zero deposits"), h)
    else (Ok (LoanToDeposit n d (n / d * 100)), h ++ [LoanToDeposit n d (n / d * 100)]).
Proof.
  unfold calculate_loan_to_deposit. destruct (Py.eqb d 0) eqn:Hd; [reflexivity|].
  unfold mbind, Calc_bind, lift, history_append, mret, Calc_ret, div.
  now rewrite Hd.
Qed.

Lemma calculate_change_cases (old new : Q) (h : list CalcResult) :
  calculate_percentage_change old new h =
    if Py.eqb old 0
    then (Ok (ErrorResult "Cannot calculate percentage change from zero"), h)
    else (Ok (PercentageChange old new (new - old) ((new - old) / old * 100)),
          h ++ [PercentageChange old new (new - old) ((new - old) / old * 100)]).
Proof.
  unfold calculate_percentage_change. destruct (Py.eqb old 0) eqn:Hd; [reflexivity|].
  unfold mbind, Calc_bind, lift, history_append, mret, Calc_ret, div.
  now rewrite Hd.
Qed.

Section RatioTrend.

Variables numerator denominator : FinancialMetric.
Variable calculate : Q -> Q -> Calc CalcResult.
Variable ratio : Q -> Q -> Q -> CalcResult.
Variable message : string.
Variable percentage_of : CalcResult -> Res Q.
Variable loop : Grouped -> Calc (list Calculation * list Q * list string).

Hypothesis calculate_cases : forall n d h,
  calculate n d h =
    if Py.eqb d 0 then (Ok (ErrorResult message), h)
    else (Ok (ratio n d (n / d * 100)), h ++ [ratio n d (n / d * 100)]).
Hypothesis percentage_of_ratio : forall n d p, percentage_of (ratio n d p) = Ok p.
Hypothesis percentage_of_error : percentage_of (ErrorResult message) = Raise KeyError.
Hypothesis loop_nil : loop [] = mret ([], [], []).
Hypothesis loop_cons : forall period metrics items,
  loop ((period, metrics) :: items) =
    match metrics !! numerator, metrics !! denominator with
    | Some n, Some d =>
        r ← calculate n d;
        p ← lift (percentage_of r);
        rest ← loop items;
        mret (plain r :: rest.1.1, p :: rest.1.2, period :: rest.2)
    | _, _ => loop items
    end.

Lemma with_both_cons (period : string) (metrics : gmap FinancialMetric Q)
    (items : Grouped) :
  with_both numerator denominator ((period, metrics) :: items) =
    match metrics !! numerator, metrics !! denominator with
    | Some n, Some d => (period, n, d) :: with_both numerator denominator items
    | _, _ => with_both numerator denominator items
    end.
Proof.
  unfold with_both. simpl.
  destruct (metrics !! numerator); [|reflexivity].
  destruct (metrics !! denominator); reflexivity.
Qed.

Lemma ratio_loop_ok (items : Grouped) : forall h,
  Forall (fun x => ~ x.2 == 0) (with_both numerator denominator items) ->
  loop items h =
    (Ok (plain ∘ ratio_of ratio <$> with_both numerator denominator items,
         percent <$> with_both numerator denominator items,
         (fun x => x.1.1) <$> with_both numerator denominator items),
     h ++ (ratio_of ratio <$> with_both numerator denominator items)).
Proof.
  induction items as [|[period metrics] items IH]; intros h Hall.
  - rewrite loop_nil. simpl. now rewrite app_nil_r.
  - rewrite loop_cons. rewrite with_both_cons in *.
    destruct (metrics !! numerator) as [n|]; [|now apply IH].
    destruct (metrics !! denominator) as [d|]; [|now apply IH].
    apply Forall_cons in Hall. destruct Hall as [Hd Hall]. simpl in Hd.
    apply eqb_false in Hd.
    unfold mbind at 1, Calc_bind at 1. rewrite calculate_cases, Hd.
    unfold mbind at 1, Calc_bind at 1, lift at 1. rewrite percentage_of_ratio.
    unfold mbind at 1, Calc_bind at 1. rewrite (IH _ Hall).
    unfold mret, Calc_ret. simpl. now rewrite <- app_assoc.
Qed.

Lemma ratio_loop_raises (items : Grouped) : forall h,
  Exists (fun x => x.2 == 0) (with_both numerator denominator items) ->
  exists h', loop items h = (Raise KeyError, h').
Proof.
  induction items as [|[period metrics] items IH]; intros h Hex.
  - apply Exists_nil in Hex. contradiction.
  - rewrite loop_cons. rewrite with_both_cons in Hex.
    destruct (metrics !! numerator) as [n|]; [|now apply IH].
    destruct (metrics !! denominator) as [d|]; [|now apply IH].
    unfold mbind at 1, Calc_bind at 1. rewrite calculate_cases.
    destruct (Py.eqb d 0) eqn:Hd.
    + unfold mbind at 1, Calc_bind at 1, lift at 1. rewrite percentage_of_error.
      now exists h.
    + apply Exists_cons in Hex. destruct Hex as [Hz|Hex].
      { simpl in Hz. apply eqb_true in Hz. congruence. }
      unfold mbind at 1, Calc_bind at 1, lift at 1. rewrite percentage_of_ratio.
      unfold mbind at 1, Calc_bind at 1.
      destruct (IH (h ++ [ratio n d (n / d * 100)]) Hex) as (h' & ->).
      now exists h'.
Qed.

End RatioTrend.

Lemma roe_trend_spec (data_by_period : Grouped) (h : list CalcResult) :
  let found := with_both NET_PROFIT SHAREHOLDER_EQUITY data_by_period in
  (Forall (fun x => ~ x.2 == 0) found ->
   exists trend,
     _calculate_roe_trend data_by_period h =
       (Ok ((plain ∘ ratio_of Roe <$> found) ++ trend),
        h ++ (ratio_of Roe <$> found) ++ (result <$> trend)) /\
     ((length found < 2)%nat -> trend = []) /\
     ((2 <= length found)%nat ->
      exists t,
        trend = [trend_entry t "roe_trend" "Return on Equity trend analysis"] /\
        summarises (percent <$> found) ((fun x => x.1.1) <$> found) t)) /\
  (Exists (fun x => x.2 == 0) found ->
   exists h', _calculate_roe_trend data_by_period h = (Raise KeyError, h')).
Proof.
  intros found. unfold _calculate_roe_trend. split.
  - intros Hall.
    unfold mbind at 1, Calc_bind at 1.
    rewrite (ratio_loop_ok NET_PROFIT SHAREHOLDER_EQUITY calculate_roe Roe _
               roe_percentage_of roe_loop calculate_roe_cases
               (fun _ _ _ => eq_refl) eq_refl (fun _ _ _ => eq_refl)
               data_by_period h Hall).
    fold found. cbn [fst snd]. rewrite length_fmap.
    destruct (Nat.ltb_spec 1 (length found)) as [H2|H2].
    + destruct (calculate_trend_ok (percent <$> found) ((fun x => x.1.1) <$> found)
                  (h ++ (ratio_of Roe <$> found))) as (t & Ht & Hsum).
      { rewrite length_fmap. lia. }
      { rewrite !length_fmap. lia. }
      exists [trend_entry t "roe_trend" "Return on Equity trend analysis"].
      split.
      { unfold mbind, Calc_bind. rewrite Ht. unfold mret, Calc_ret. simpl.
        now rewrite <- app_assoc. }
      split; [lia|]. intros _. exists t. split; [reflexivity | exact Hsum].
    + exists []. split.
      { unfold mret, Calc_ret. simpl. now rewrite !app_nil_r. }
      split; [reflexivity | lia].
  - intros Hex.
    destruct (ratio_loop_raises NET_PROFIT SHAREHOLDER_EQUITY calculate_roe Roe _
                roe_percentage_of roe_loop calculate_roe_cases
                (fun _ _ _ => eq_refl) eq_refl (fun _ _ _ => eq_refl)
                data_by_period h Hex) as (h' & Hloop).
    exists h'. unfold mbind, Calc_bind. now rewrite Hloop.
Qed.

(** X10: [_calculate_roe_trend] reads ['roe_percentage'] from what
    [calculate_roe] returns, which for a zero equity is the error
    dictionary: if a period has a net profit and a shareholder equity of
    zero, the method raises [KeyError].  Otherwise it returns, in the
    order of the dictionary, one ROE result per period that has both
    metrics, followed, when there are two or more, by one trend over
    their ROE percentages and periods; the calculator's history receives
    the same results. *)
Theorem roe_trend_outcome (data_by_period : Grouped) (h : list CalcResult) :
  let found := with_both NET_PROFIT SHAREHOLDER_EQUITY data_by_period in
  (Forall (fun x => ~ x.2 == 0) found ->
   exists trend,
     _calculate_roe_trend data_by_period h =
       (Ok ((plain ∘ ratio_of Roe <$> found) ++ trend),
        h ++ (ratio_of Roe <$> found) ++ (result <$> trend)) /\
     ((length found < 2)%nat -> trend = []) /\
     ((2 <= length found)%nat ->
      exists t,
        trend = [trend_entry t "roe_trend" "Return on Equity trend analysis"] /\
        summarises (percent <$> found) ((fun x => x.1.1) <$> found) t)) /\
  (Exists (fun x => x.2 == 0) found ->
   exists h', _calculate_roe_trend data_by_period h = (Raise KeyError, h')).
Proof. apply roe_trend_spec. Qed.

Lemma roe_trend_outcome_witness :
  let q1 : gmap FinancialMetric Q := {[ NET_PROFIT := 5120; SHAREHOLDER_EQUITY := 100000 ]} in
  let q2 : gmap FinancialMetric Q := {[ NET_PROFIT := 5300; SHAREHOLDER_EQUITY := 0 ]} in
  let q3 : gmap FinancialMetric Q := {[ NET_PROFIT := 5300; SHAREHOLDER_EQUITY := 106000 ]} in
  (exists h', _calculate_roe_trend [("2022_Q1"%string, q1); ("2022_Q2"%string, q2)] []
                = (Raise KeyError, h')) /\
  (exists t,
     _calculate_roe_trend [("2022_Q2"%string, q3); ("2022_Q1"%string, q1)] [] =
       (Ok [plain (Roe 5300 106000 (5300 / 106000 * 100));
            plain (Roe 5120 100000 (5120 / 100000 * 100));
            trend_entry t "roe_trend" "Return on Equity trend analysis"],
        [Roe 5300 106000 (5300 / 106000 * 100);
         Roe 5120 100000 (5120 / 100000 * 100); TrendAnalysis t]) /\
     Calculator.periods t = ["2022_Q2"; "2022_Q1"]%string).
Proof.
  intros q1 q2 q3. split.
  - apply (roe_trend_outcome [("2022_Q1"%string, q1); ("2022_Q2"%string, q2)] []).
    apply Exists_cons. right. apply Exists_cons. left. reflexivity.
  - destruct (roe_trend_outcome [("2022_Q2"%string, q3); ("2022_Q1"%string, q1)] [])
      as [Hok _].
    destruct Hok as (trend & Hrun & _ & Htrend).
    { repeat constructor; discriminate. }
    destruct Htrend as (t & -> & Hsum); [vm_compute; lia|].
    exists t. split; [exact Hrun|]. now destruct Hsum as (_ & -> & _).
Defined.

Lemma ldr_trend_spec (data_by_period : Grouped) (h : list CalcResult) :
  let found := with_both TOTAL_LOANS TOTAL_DEPOSITS data_by_period in
  (Forall (fun x => ~ x.2 == 0) found ->
   exists trend,
     _calculate_ldr_trend data_by_period h =
       (Ok ((plain ∘ ratio_of LoanToDeposit <$> found) ++ trend),
        h ++ (ratio_of LoanToDeposit <$> found) ++ (result <$> trend)) /\
     ((length found < 2)%nat -> trend = []) /\
     ((2 <= length found)%nat ->
      exists t,
        trend = [trend_entry t "ldr_trend" "Loan-to-Deposit ratio trend analysis"] /\
        summarises (percent <$> found) ((fun x => x.1.1) <$> found) t)) /\
  (Exists (fun x => x.2 == 0) found ->
   exists h', _calculate_ldr_trend data_by_period h = (Raise KeyError, h')).
Proof.
  intros found. unfold _calculate_ldr_trend. split.
  - intros Hall.
    unfold mbind at 1, Calc_bind at 1.
    rewrite (ratio_loop_ok TOTAL_LOANS TOTAL_DEPOSITS calculate_loan_to_deposit
               LoanToDeposit _ ldr_percentage_of ldr_loop calculate_ldr_cases
               (fun _ _ _ => eq_refl) eq_refl (fun _ _ _ => eq_refl)
               data_by_period h Hall).
    fold found. cbn [fst snd]. rewrite length_fmap.
    destruct (Nat.ltb_spec 1 (length found)) as [H2|H2].
    + destruct (calculate_trend_ok (percent <$> found) ((fun x => x.1.1) <$> found)
                  (h ++ (ratio_of LoanToDeposit <$> found))) as (t & Ht & Hsum).
      { rewrite length_fmap. lia. }
      { rewrite !length_fmap. lia. }
      exists [trend_entry t "ldr_trend" "Loan-to-Deposit ratio trend analysis"].
      split.
      { unfold mbind, Calc_bind. rewrite Ht. unfold mret, Calc_ret. simpl.
        now rewrite <- app_assoc. }
      split; [lia|]. intros _. exists t. split; [reflexivity | exact Hsum].
    + exists []. split.
      { unfold mret, Calc_ret. simpl. now rewrite !app_nil_r. }
      split; [reflexivity | lia].
  - intros Hex.
    destruct (ratio_loop_raises TOTAL_LOANS TOTAL_DEPOSITS calculate_loan_to_deposit
                LoanToDeposit _ ldr_percentage_of ldr_loop calculate_ldr_cases
                (fun _ _ _ => eq_refl) eq_refl (fun _ _ _ => eq_refl)
                data_by_period h Hex) as (h' & Hloop).
    exists h'. unfold mbind, Calc_bind. now rewrite Hloop.
Qed.

(** X11: the same for [_calculate_ldr_trend] with total loans and total
    deposits: [KeyError] when a period that has both has deposits of
    zero; otherwise one loan-to-deposit result per such period and, for
    two or more, a trend over their percentages. *)
Theorem ldr_trend_outcome (data_by_period : Grouped) (h : list CalcResult) :
  let found := with_both TOTAL_LOANS TOTAL_DEPOSITS data_by_period in
  (Forall (fun x => ~ x.2 == 0) found ->
   exists trend,
     _calculate_ldr_trend data_by_period h =
       (Ok ((plain ∘ ratio_of LoanToDeposit <$> found) ++ trend),
        h ++ (ratio_of LoanToDeposit <$> found) ++ (result <$> trend)) /\
     ((length found < 2)%nat -> trend = []) /\
     ((2 <= length found)%nat ->
      exists t,
        trend = [trend_entry t "ldr_trend" "Loan-to-Deposit ratio trend analysis"] /\
        summarises (percent <$> found) ((fun x => x.1.1) <$> found) t)) /\
  (Exists (fun x => x.2 == 0) found ->
   exists h', _calculate_ldr_trend data_by_period h = (Raise KeyError, h')).
Proof. apply ldr_trend_spec. Qed.

Lemma ldr_trend_outcome_witness :
  let q1 : gmap FinancialMetric Q := {[ TOTAL_LOANS := 400000; TOTAL_DEPOSITS := 500000 ]} in
  let q2 : gmap FinancialMetric Q := {[ TOTAL_LOANS := 410000; TOTAL_DEPOSITS := 0 ]} in
  (exists h', _calculate_ldr_trend [("2022_Q1"%string, q1); ("2022_Q2"%string, q2)] []
                = (Raise KeyError, h')) /\
  _calculate_ldr_trend [("2022_Q1"%string, q1)] [] =
    (Ok [plain (LoanToDeposit 400000 500000 (400000 / 500000 * 100))],
     [LoanToDeposit 400000 500000 (400000 / 500000 * 100)]).
Proof.
  intros q1 q2. split.
  - apply (ldr_trend_outcome [("2022_Q1"%string, q1); ("2022_Q2"%string, q2)] []).
    apply Exists_cons. right. apply Exists_cons. left. reflexivity.
  - destruct (ldr_trend_outcome [("2022_Q1"%string, q1)] []) as [Hok _].
    destruct Hok as (trend & Hrun & Hnil & _).
    { repeat constructor; discriminate. }
    rewrite (Hnil ltac:(vm_compute; lia)) in Hrun. exact Hrun.
Defined.

Lemma calculate_change_result (old new : Q) (h : list CalcResult) :
  exists h', calculate_percentage_change old new h = (Ok (change_result old new), h').
Proof.
  rewrite calculate_change_cases. unfold change_result.
  destruct (Py.eqb old 0); eexists; reflexivity.
Qed.

Lemma getitem_fmap {A B} (f : A -> B) (l : list A) (i : nat) (a : A) :
  l !! i = Some a -> getitem (f <$> l) i = Ok (f a).
Proof.
  intros Hl. unfold getitem. now rewrite list_lookup_fmap, Hl.
Qed.

(** The loop over the steps of a series, from step [k] on. *)
Lemma sequential_loop_spec (metric : string) (found : list (string * Q)) (n : nat) :
  forall (k : nat) (h : list CalcResult),
    (1 <= k)%nat -> (k + n = length found)%nat ->
    exists h',
      sequential_loop metric found.*2 found.*1 (seq k n) h =
        (Ok (zip_with (growth_entry (metric +:+ "_sequential_growth"))
                      (drop (k - 1) found) (drop k found)), h').
Proof.
  induction n as [|n IH]; intros k h Hk Hlen.
  - exists h. simpl. rewrite (drop_ge found k) by lia.
    now rewrite zip_with_nil_r.
  - destruct (lookup_lt_is_Some_2 found (k - 1)) as [a Ha]; [lia|].
    destruct (lookup_lt_is_Some_2 found k) as [b Hb]; [lia|].
    destruct (calculate_change_result a.2 b.2 h) as (h1 & Hc).
    destruct (IH (S k) h1) as (h' & Hrest); [lia | lia |].
    replace (S k - 1)%nat with k in Hrest by lia.
    exists h'.
    assert (E1 : drop (k - 1) found = a :: drop k found).
    { rewrite (drop_S _ _ _ Ha). now replace (S (k - 1)) with k by lia. }
    assert (E2 : drop k found = b :: drop (S k) found) by now apply drop_S.
    rewrite E1. rewrite E2 at 2. cbn [zip_with]. clear E1 E2.
    cbn [seq sequential_loop].
    unfold mbind at 1, Calc_bind at 1, lift at 1.
    rewrite (getitem_fmap snd found (k - 1) a Ha).
    unfold mbind at 1, Calc_bind at 1, lift at 1.
    rewrite (getitem_fmap snd found k b Hb).
    unfold mbind at 1, Calc_bind at 1. rewrite Hc.
    unfold mbind at 1, Calc_bind at 1, lift at 1.
    rewrite (getitem_fmap fst found (k - 1) a Ha).
    unfold mbind at 1, Calc_bind at 1, lift at 1.
    rewrite (getitem_fmap fst found k b Hb).
    unfold mbind at 1, Calc_bind at 1. rewrite Hrest.
    reflexivity.
Qed.

Lemma getlast_fmap {A B} (f : A -> B) (l : list A) (a : A) :
  last l = Some a -> getlast (f <$> l) = Ok (f a).
Proof.
  intros Hl. unfold getlast. now rewrite fmap_last, Hl.
Qed.

Lemma growth_rates_spec (data_by_period : Grouped) (query : string)
    (h : list CalcResult) :
  exists calculations h',
    _calculate_growth_rates data_by_period query h = (Ok calculations, h') /\
    (target_metric_of query = None -> calculations = []) /\
    (forall name, target_metric_of query = Some name ->
       let found := series data_by_period name in
       ((length found < 2)%nat -> calculations = []) /\
       (forall first final, head found = Some first -> last found = Some final ->
          (2 <= length found)%nat ->
          calculations =
            (if contains "year" (lower query)
             then [growth_entry (name +:+ "_yoy_growth") first final] else [])
            ++ zip_with (growth_entry (name +:+ "_sequential_growth"))
                        found (tail found))).
Proof.
  unfold _calculate_growth_rates.
  destruct (target_metric_of query) as [name|];
    [|exists [], h; split; [reflexivity|]; split; [reflexivity | discriminate]].
  remember (series data_by_period name) as found eqn:Hfound.
  rewrite length_fmap.
  destruct (Nat.leb_spec 2 (length found)) as [H2|H2].
  - destruct (lookup_lt_is_Some_2 found 0) as [first Hhead].
    { lia. }
    destruct (last found) as [final|] eqn:Hlast;
      [|apply last_None in Hlast; rewrite Hlast in H2; simpl in H2; lia].
    assert (Hzip : forall f : string * Q -> string * Q -> Calculation,
              zip_with f (drop (1 - 1) found) (drop 1 found)
                = zip_with f found (tail found)).
    { intros f. destruct found; reflexivity. }
    destruct (contains "year" (lower query)); cbn [andb].
    + destruct (calculate_change_result first.2 final.2 h) as (h1 & Hc).
      destruct (sequential_loop_spec name found (length found - 1) 1 h1)
        as (h' & Hseq); [lia | lia |].
      rewrite Hzip in Hseq.
      eexists _, h'. split.
      { unfold mbind at 1, Calc_bind at 1.
        unfold mbind at 1, Calc_bind at 1, lift at 1.
        rewrite (getitem_fmap snd found 0 first Hhead).
        unfold mbind at 1, Calc_bind at 1, lift at 1.
        rewrite (getlast_fmap snd found final Hlast).
        unfold mbind at 1, Calc_bind at 1. rewrite Hc.
        unfold mbind at 1, Calc_bind at 1, lift at 1.
        rewrite (getitem_fmap fst found 0 first Hhead).
        unfold mbind at 1, Calc_bind at 1, lift at 1.
        rewrite (getlast_fmap fst found final Hlast).
        unfold mret at 1, Calc_ret at 1.
        unfold mbind at 1, Calc_bind at 1. rewrite Hseq. reflexivity. }
      split; [discriminate|]. intros name' [= <-]. cbv zeta. rewrite <- Hfound. split; [lia|].
      intros first' final' Hf Hl _.
      rewrite head_lookup, Hhead in Hf. injection Hf as <-.
      rewrite Hlast in Hl. injection Hl as <-. reflexivity.
    + destruct (sequential_loop_spec name found (length found - 1) 1 h)
        as (h' & Hseq); [lia | lia |].
      rewrite Hzip in Hseq.
      eexists _, h'. split.
      { unfold mbind at 1, Calc_bind at 1. unfold mret at 1, Calc_ret at 1.
        unfold mbind at 1, Calc_bind at 1. rewrite Hseq. reflexivity. }
      split; [discriminate|]. intros name' [= <-]. cbv zeta. rewrite <- Hfound. split; [lia|].
      intros first' final' Hf Hl _. reflexivity.
  - exists [], h. split; [reflexivity|]. split; [discriminate|].
    intros name' [= <-]. cbv zeta. rewrite <- Hfound. split; [reflexivity|].
    intros first final _ _ Hlen. lia.
Qed.

(** X12: [_calculate_growth_rates] never raises.  Without one of the four
    metric names in the query, or with fewer than two periods that have
    the metric, it returns nothing.  Otherwise, over the periods that
    have the metric in ascending order, it returns one entry per step
    from a period to the next, after one entry from the first period to
    the last when the query contains "year"; a step from a value of
    zero gives the error dictionary of the calculator in its entry. *)
Theorem growth_rates_outcome (data_by_period : Grouped) (query : string)
    (h : list CalcResult) :
  exists calculations h',
    _calculate_growth_rates data_by_period query h = (Ok calculations, h') /\
    (target_metric_of query = None -> calculations = []) /\
    (forall name, target_metric_of query = Some name ->
       let found := series data_by_period name in
       ((length found < 2)%nat -> calculations = []) /\
       (forall first final, head found = Some first -> last found = Some final ->
          (2 <= length found)%nat ->
          calculations =
            (if contains "year" (lower query)
             then [growth_entry (name +:+ "_yoy_growth") first final] else [])
            ++ zip_with (growth_entry (name +:+ "_sequential_growth"))
                        found (tail found))).
Proof. apply growth_rates_spec. Qed.

Lemma growth_rates_outcome_witness :
  let data_by_period : Grouped :=
    [("2022_Q2"%string, {[ NET_PROFIT := 0 ]});
     ("2022_Q1"%string, {[ NET_PROFIT := 5000 ]});
     ("2022_Q3"%string, {[ NET_PROFIT := 5500 ]})] in
  exists h',
    _calculate_growth_rates data_by_period "Net profit growth, year to date" [] =
      (Ok [growth_entry "net_profit_yoy_growth" ("2022_Q1"%string, 5000)
                        ("2022_Q3"%string, 5500);
           growth_entry "net_profit_sequential_growth" ("2022_Q1"%string, 5000)
                        ("2022_Q2"%string, 0);
           growth_entry "net_profit_sequential_growth" ("2022_Q2"%string, 0)
                        ("2022_Q3"%string, 5500)], h') /\
    result (growth_entry "net_profit_sequential_growth" ("2022_Q2"%string, 0)
                         ("2022_Q3"%string, 5500))
      = ErrorResult "Cannot calculate percentage change from zero".
Proof.
  intros data_by_period.
  destruct (growth_rates_outcome data_by_period "Net profit growth, year to date" [])
    as (calculations & h' & Hrun & _ & Hsome).
  destruct (Hsome "net_profit"%string eq_refl) as [_ Hcalcs].
  rewrite (Hcalcs ("2022_Q1"%string, 5000) ("2022_Q3"%string, 5500)) in Hrun.
  - exists h'. split; [exact Hrun | reflexivity].
  - vm_compute. reflexivity.
  - vm_compute. reflexivity.
  - vm_compute. lia.
Defined.

Lemma item_le_trans : Transitive item_le.
Proof. intros a b c. unfold item_le. apply str_le_trans. Qed.

Lemma item_le_total : Total item_le.
Proof. intros a b. unfold item_le. apply str_le_total. Qed.

Lemma sorted_items_permutation (data_by_period : Grouped) :
  sorted_items data_by_period ≡ₚ data_by_period.
Proof. apply sorting.merge_sort_Permutation. Qed.

Lemma sorted_items_strict (data_by_period : Grouped) :
  NoDup data_by_period.*1 ->
  Sorted.StronglySorted str_lt (sorted_items data_by_period).*1.
Proof.
  intros Hnd.
  assert (Hs : Sorted.StronglySorted item_le (sorted_items data_by_period))
    by (apply sorting.StronglySorted_merge_sort;
        [apply item_le_trans | apply item_le_total]).
  assert (Hnd' : NoDup (sorted_items data_by_period).*1)
    by now rewrite sorted_items_permutation.
  revert Hs Hnd'. generalize (sorted_items data_by_period). intros l.
  induction 1 as [|a l Hs IH Hall]; intros Hnd'; simpl.
  - constructor.
  - apply NoDup_cons in Hnd'. destruct Hnd' as [Hnotin Hnd'].
    constructor; [now apply IH|].
    rewrite List.Forall_forall in Hall. apply List.Forall_forall.
    intros p Hp. apply list_elem_of_In, list_elem_of_fmap in Hp.
    destruct Hp as (b & -> & Hb). split.
    + apply (Hall b). now apply list_elem_of_In.
    + intros Heq. apply Hnotin. rewrite Heq. apply list_elem_of_fmap. now exists b.
Qed.

Lemma series_sorted (data_by_period : Grouped) (name : string) :
  NoDup data_by_period.*1 ->
  Sorted.StronglySorted str_lt (series data_by_period name).*1.
Proof.
  intros Hnd. apply sorted_items_strict in Hnd. unfold series.
  revert Hnd. generalize (sorted_items data_by_period). intros l.
  induction l as [|[p ms] l IH]; intros Hs; simpl.
  - constructor.
  - inversion Hs as [|? ? Hs' Hall]; subst.
    destruct (lookup_name ms name) as [v|]; simpl; [|now apply IH].
    constructor; [now apply IH|].
    rewrite List.Forall_forall in Hall. apply List.Forall_forall.
    intros q Hq. apply Hall. apply list_elem_of_In in Hq. apply list_elem_of_In.
    apply list_elem_of_fmap in Hq. destruct Hq as ([q' w] & -> & Hin).
    apply list_elem_of_omap in Hin. destruct Hin as ([q'' ms'] & Hin & Hv).
    simpl in Hv. destruct (lookup_name ms' name); simpl in Hv; [|discriminate].
    injection Hv as <- <-. apply list_elem_of_fmap. now exists (q'', ms').
Qed.

Lemma trends_loop_spec (data_by_period : Grouped) (metrics : list string) :
  forall h,
  exists calculations h',
    trends_loop data_by_period metrics h = (Ok calculations, h') /\
    Forall2 (fun c name =>
               exists t,
                 c = trend_entry t (name +:+ "_trend")
                       (title (replace_char "_" " " name) +:+ " trend analysis") /\
                 summarises (series data_by_period name).*2
                            (series data_by_period name).*1 t)
            calculations
            (filter (fun name => (2 <= length (series data_by_period name))%nat)
                    metrics).
Proof.
  induction metrics as [|name metrics IH]; intros h.
  - exists [], h. split; [reflexivity | constructor].
  - cbn [trends_loop]. rewrite length_fmap.
    destruct (Nat.ltb_spec 1 (length (series data_by_period name))) as [H2|H2].
    + destruct (calculate_trend_ok (series data_by_period name).*2
                  (series data_by_period name).*1 h) as (t & Ht & Hsum).
      { rewrite length_fmap. lia. }
      { rewrite !length_fmap. lia. }
      destruct (IH (h ++ [TrendAnalysis t])) as (rest & h' & Hrest & Hall).
      eexists _, h'. split.
      { unfold mbind at 1, Calc_bind at 1. unfold mbind at 1, Calc_bind at 1.
        rewrite Ht. unfold mret at 1, Calc_ret at 1.
        unfold mbind at 1, Calc_bind at 1. rewrite Hrest. reflexivity. }
      rewrite filter_cons_True by lia. constructor; [|exact Hall].
      exists t. split; [reflexivity | exact Hsum].
    + destruct (IH h) as (rest & h' & Hrest & Hall).
      exists rest, h'. split.
      { unfold mbind at 1, Calc_bind at 1. unfold mret at 1, Calc_ret at 1.
        unfold mbind at 1, Calc_bind at 1. rewrite Hrest. reflexivity. }
      rewrite filter_cons_False by lia. exact Hall.
Qed.

(** X13: [_calculate_comprehensive_trends] never raises.  In the order
    net_profit, total_assets, total_loans, total_deposits it returns one
    trend for each of these metrics that two or more periods have: the
    summary [calculate_trend] gives for the values of the metric over
    these periods, taken in ascending order of the period keys. *)
Theorem comprehensive_trends_outcome (data_by_period : Grouped)
    (h : list CalcResult) :
  NoDup data_by_period.*1 ->
  exists calculations h',
    _calculate_comprehensive_trends data_by_period h = (Ok calculations, h') /\
    Forall2 (fun c name =>
               exists t,
                 c = trend_entry t (name +:+ "_trend")
                       (title (replace_char "_" " " name) +:+ " trend analysis") /\
                 summarises (series data_by_period name).*2
                            (series data_by_period name).*1 t /\
                 Sorted.StronglySorted str_lt (Calculator.periods t))
            calculations
            (filter (fun name => (2 <= length (series data_by_period name))%nat)
                    key_metrics).
Proof.
  intros Hnd. unfold _calculate_comprehensive_trends.
  destruct (trends_loop_spec data_by_period key_metrics h)
    as (calculations & h' & Hrun & Hall).
  exists calculations, h'. split; [exact Hrun|].
  eapply Forall2_impl; [exact Hall|].
  intros c name (t & Hc & Hs). exists t.
  split; [exact Hc|]. split; [exact Hs|].
  destruct Hs as (_ & -> & _). now apply series_sorted.
Qed.

Lemma comprehensive_trends_outcome_witness :
  let data_by_period : Grouped :=
    [("2022_Q2"%string, {[ NET_PROFIT := 5300; TOTAL_ASSETS := 1100000 ]});
     ("2022_Q1"%string, {[ NET_PROFIT := 5120 ]})] in
  exists t h',
    _calculate_comprehensive_trends data_by_period [] =
      (Ok [trend_entry t "net_profit_trend" "Net Profit trend analysis"], h') /\
    Calculator.periods t = ["2022_Q1"; "2022_Q2"]%string /\
    Calculator.values t = [5120; 5300].
Proof.
  intros data_by_period.
  destruct (comprehensive_trends_outcome data_by_period [])
    as (calculations & h' & Hrun & Hall).
  { repeat constructor; rewrite ?elem_of_cons, ?elem_of_nil;
      intuition discriminate. }
  replace (filter (fun name => (2 <= length (series data_by_period name))%nat)
                  key_metrics) with ["net_profit"%string] in Hall
    by (vm_compute; reflexivity).
  apply Forall2_cons_inv_r in Hall.
  destruct Hall as (c & rest & (t & -> & Hs & _) & Hrest & ->).
  apply Forall2_nil_inv_r in Hrest. subst rest.
  exists t, h'. split; [exact Hrun|].
  destruct Hs as (Hv & Hp & _). split; [now rewrite Hp | now rewrite Hv].
Defined.

(** *** The grouping, with the order of the periods *)

Lemma set_value_keys (grouped : Grouped) (p : string) (m : FinancialMetric) (v : Q) :
  (set_value grouped p m v).*1 = grouped.*1.
Proof.
  induction grouped as [|[q ms] grouped IH]; [reflexivity|]. cbn [set_value].
  destruct (decide (q = p)); rewrite !fmap_cons; [reflexivity | now rewrite IH].
Qed.

Lemma group_step_keys (grouped : Grouped) (dp : FinancialDataPoint) :
  (CalcAgent.group_step grouped dp).*1 =
    if bool_decide (period dp ∈ grouped.*1) then grouped.*1
    else grouped.*1 ++ [period dp].
Proof.
  unfold CalcAgent.group_step, has_key. cbv zeta.
  destruct (bool_decide (period dp ∈ grouped.*1)); rewrite set_value_keys;
    [reflexivity|].
  now rewrite fmap_app.
Qed.

Lemma first_occurrences_seen (l : list string) : forall seen seen',
  (forall x, x ∈ seen <-> x ∈ seen') ->
  first_occurrences seen l = first_occurrences seen' l.
Proof.
  induction l as [|x l IH]; intros seen seen' Hs; [reflexivity|]. simpl.
  rewrite (bool_decide_ext (x ∈ seen) (x ∈ seen') (Hs x)).
  destruct (bool_decide (x ∈ seen')); [now apply IH|].
  f_equal. apply IH. intros y. rewrite !elem_of_cons, Hs. tauto.
Qed.

Lemma group_fold_keys (data_points : list FinancialDataPoint) : forall grouped,
  (fold_left CalcAgent.group_step data_points grouped).*1 =
    grouped.*1 ++ first_occurrences grouped.*1 (period <$> data_points).
Proof.
  induction data_points as [|dp l IH]; intros grouped; simpl.
  - now rewrite app_nil_r.
  - rewrite IH, group_step_keys.
    destruct (bool_decide (period dp ∈ grouped.*1)) eqn:Hin; [reflexivity|].
    rewrite <- app_assoc. simpl. do 2 f_equal.
    apply first_occurrences_seen. intros x.
    rewrite elem_of_app, !elem_of_cons, elem_of_nil. tauto.
Qed.

Lemma first_occurrences_NoDup (l : list string) : forall seen,
  NoDup (first_occurrences seen l) /\
  (forall x, x ∈ first_occurrences seen l <-> x ∈ l /\ x ∉ seen).
Proof.
  induction l as [|x l IH]; intros seen; simpl.
  - split; [constructor|]. intros y. rewrite elem_of_nil. tauto.
  - destruct (bool_decide (x ∈ seen)) eqn:Hx.
    + apply bool_decide_eq_true in Hx. destruct (IH seen) as [Hnd Hel].
      split; [exact Hnd|]. intros y. rewrite Hel, elem_of_cons.
      split; [tauto|]. intros [[->|Hy] Hn]; [contradiction | tauto].
    + apply bool_decide_eq_false in Hx. destruct (IH (x :: seen)) as [Hnd Hel].
      split.
      * constructor; [|exact Hnd]. rewrite Hel, elem_of_cons. tauto.
      * intros y. rewrite !elem_of_cons, Hel, elem_of_cons.
        destruct (decide (y = x)) as [->|Hne]; [tauto|]. tauto.
Qed.

Lemma group_of_set_value (grouped : Grouped) (p q : string) (m m' : FinancialMetric)
    (v : Q) :
  p ∈ grouped.*1 ->
  group_of (set_value grouped p m v) q ≫= (fun ms => ms !! m') =
    if decide (p = q /\ m = m') then Some v
    else group_of grouped q ≫= (fun ms => ms !! m').
Proof.
  unfold group_of.
  induction grouped as [|[r ms] grouped IH]; intros Hin.
  - now apply elem_of_nil in Hin.
  - simpl. destruct (decide (r = p)) as [->|Hrp]; simpl.
    + destruct (decide (p = q)) as [->|Hpq].
      * rewrite bool_decide_eq_true_2 by reflexivity. simpl.
        destruct (decide (m = m')) as [->|Hm].
        -- rewrite lookup_insert_eq. now rewrite decide_True.
        -- rewrite lookup_insert_ne by exact Hm. now rewrite decide_False by tauto.
      * rewrite bool_decide_eq_false_2 by exact Hpq.
        now rewrite decide_False by tauto.
    + simpl in Hin. apply elem_of_cons in Hin. destruct Hin as [Heq|Hin]; [congruence|].
      destruct (bool_decide (r = q)) eqn:Hrq.
      * apply bool_decide_eq_true in Hrq. subst q. simpl.
        now rewrite decide_False by (intros [? ?]; congruence).
      * now apply IH.
Qed.


Lemma group_of_snoc_empty (grouped : Grouped) (p q : string) (m : FinancialMetric) :
  group_of (grouped ++ [(p, ∅)]) q ≫= (fun ms => ms !! m) =
  group_of grouped q ≫= (fun ms => ms !! m).
Proof.
  unfold group_of. induction grouped as [|[r ms] grouped IH]; simpl.
  - destruct (bool_decide (p = q)); reflexivity.
  - destruct (bool_decide (r = q)); [reflexivity | exact IH].
Qed.

Lemma agent_group_step_lookup (grouped : Grouped) (dp : FinancialDataPoint)
    (p : string) (m : FinancialMetric) :
  group_of (CalcAgent.group_step grouped dp) p ≫= (fun ms => ms !! m) =
    if decide (period dp = p /\ metric dp = m) then Some (value dp)
    else group_of grouped p ≫= (fun ms => ms !! m).
Proof.
  unfold CalcAgent.group_step, has_key. cbv zeta.
  destruct (bool_decide (period dp ∈ grouped.*1)) eqn:Hin.
  - apply bool_decide_eq_true in Hin. now apply group_of_set_value.
  - rewrite group_of_set_value
      by (rewrite fmap_app; apply elem_of_app; right; apply list_elem_of_here).
    now rewrite group_of_snoc_empty.
Qed.

Lemma agent_group_last (data_points : list FinancialDataPoint)
    (p : string) (m : FinancialMetric) :
  group_of (CalcAgent._group_data_by_period data_points) p ≫= (fun ms => ms !! m)
    = value <$> last (with_key p m data_points).
Proof.
  unfold CalcAgent._group_data_by_period, with_key.
  induction data_points as [|dp l IH] using rev_ind.
  - reflexivity.
  - rewrite fold_left_app. simpl. rewrite agent_group_step_lookup, filter_app.
    destruct (decide (period dp = p /\ metric dp = m)) as [Hk|Hk].
    + rewrite filter_cons_True by exact Hk. now rewrite filter_nil, last_snoc.
    + rewrite filter_cons_False by exact Hk. rewrite filter_nil, app_nil_r.
      exact IH.
Qed.

Lemma aggregator_group_last (data_points : list FinancialDataPoint)
    (p : string) (m : FinancialMetric) :
  grouped_value (Aggregator._group_data_by_period data_points) p m
    = value <$> last (with_key p m data_points).
Proof.
  unfold Aggregator._group_data_by_period, with_key.
  induction data_points as [|dp l IH] using rev_ind.
  - reflexivity.
  - rewrite fold_left_app. simpl. rewrite grouped_value_step, filter_app.
    destruct (decide (period dp = p /\ metric dp = m)) as [Hk|Hk].
    + rewrite filter_cons_True by exact Hk. now rewrite filter_nil, last_snoc.
    + rewrite filter_cons_False by exact Hk. rewrite filter_nil, app_nil_r.
      exact IH.
Qed.

(** X14: the dictionary [_group_data_by_period] builds has every period
    of the data points once, in the order of their first data points
    (the order in which [.items()] yields them), and under each period
    and metric the value the unordered mapping has: that of the last
    data point with that period and metric. *)
Theorem grouped_items_order (data_points : list FinancialDataPoint) :
  NoDup (CalcAgent._group_data_by_period data_points).*1 /\
  (CalcAgent._group_data_by_period data_points).*1
    = first_occurrences [] (period <$> data_points) /\
  forall p m,
    group_of (CalcAgent._group_data_by_period data_points) p ≫= (fun ms => ms !! m)
      = grouped_value (Aggregator._group_data_by_period data_points) p m.
Proof.
  assert (Hkeys : (CalcAgent._group_data_by_period data_points).*1
                    = first_occurrences [] (period <$> data_points))
    by apply (group_fold_keys data_points []).
  split; [|split; [exact Hkeys|]].
  - rewrite Hkeys. apply first_occurrences_NoDup.
  - intros p m. now rewrite agent_group_last, aggregator_group_last.
Qed.

Lemma zero_or_not (l : list (string * Q * Q)) :
  Forall (fun x => ~ x.2 == 0) l \/ Exists (fun x => x.2 == 0) l.
Proof.
  induction l as [|x l [IH|IH]].
  - left. constructor.
  - destruct (Qeq_dec x.2 0) as [Hz|Hz].
    + right. now apply Exists_cons_hd.
    + left. now constructor.
  - right. now apply Exists_cons_tl.
Qed.

Lemma group_of_elem (grouped : Grouped) (p : string) (ms : gmap FinancialMetric Q) :
  NoDup grouped.*1 -> (p, ms) ∈ grouped -> group_of grouped p = Some ms.
Proof.
  unfold group_of. induction grouped as [|[q ms'] grouped IH]; intros Hnd Hin.
  - now apply elem_of_nil in Hin.
  - simpl in Hnd. apply NoDup_cons in Hnd. destruct Hnd as [Hq Hnd].
    apply elem_of_cons in Hin. simpl. destruct Hin as [[= -> ->]|Hin].
    + now rewrite bool_decide_eq_true_2.
    + rewrite bool_decide_eq_false_2; [now apply IH|].
      intros ->. apply Hq. apply list_elem_of_fmap. now exists (p, ms).
Qed.

(** A value of the grouped dictionary is the value of a data point. *)
Lemma grouped_value_origin (data_points : list FinancialDataPoint) (p : string)
    (ms : gmap FinancialMetric Q) (m : FinancialMetric) (v : Q) :
  (p, ms) ∈ CalcAgent._group_data_by_period data_points -> ms !! m = Some v ->
  exists dp, dp ∈ data_points /\ metric dp = m /\ value dp = v.
Proof.
  intros Hin Hv.
  assert (Hnd : NoDup (CalcAgent._group_data_by_period data_points).*1).
  { assert (Hkeys : (CalcAgent._group_data_by_period data_points).*1
                      = first_occurrences [] (period <$> data_points))
      by apply (group_fold_keys data_points []).
    rewrite Hkeys. apply first_occurrences_NoDup. }
  assert (Hlast := agent_group_last data_points p m).
  rewrite (group_of_elem _ _ _ Hnd Hin) in Hlast. simpl in Hlast. rewrite Hv in Hlast.
  destruct (last (with_key p m data_points)) as [dp|] eqn:Hl; [|discriminate].
  injection Hlast as ->. exists dp.
  apply last_Some_elem_of in Hl. unfold with_key in Hl.
  apply list_elem_of_filter in Hl. destruct Hl as [[_ Hm] Hdp]. auto.
Qed.

Lemma with_both_elem (num den : FinancialMetric) (items : Grouped)
    (x : string * Q * Q) :
  x ∈ with_both num den items ->
  exists ms, (x.1.1, ms) ∈ items /\ ms !! num = Some x.1.2 /\ ms !! den = Some x.2.
Proof.
  unfold with_both. intros Hx. apply list_elem_of_omap in Hx.
  destruct Hx as ([p ms] & Hin & Hx). simpl in Hx.
  destruct (ms !! num) as [n|] eqn:Hn; simpl in Hx; [|discriminate].
  destruct (ms !! den) as [d|] eqn:Hd; simpl in Hx; [|discriminate].
  injection Hx as <-. exists ms. auto.
Qed.

Lemma with_both_nonzero (num den : FinancialMetric)
    (data_points : list FinancialDataPoint) :
  (forall dp, dp ∈ data_points -> metric dp = den -> ~ value dp == 0) ->
  Forall (fun x => ~ x.2 == 0)
         (with_both num den (CalcAgent._group_data_by_period data_points)).
Proof.
  intros Hnz. apply Forall_forall. intros x Hx.
  apply with_both_elem in Hx. destruct Hx as (ms & Hin & _ & Hd).
  destruct (grouped_value_origin data_points _ ms den _ Hin Hd) as (dp & Hdp & Hm & <-).
  now apply Hnz.
Qed.

(** X15: [perform_calculations] raises nothing but [KeyError], and that
    only from the ROE and loan-to-deposit trends: it returns when no
    data point of shareholder equity or total deposits has the value
    zero, and raises when the query asks for ROE and a period has a net
    profit with a shareholder equity of zero.  A query with none of the
    words the method looks for gets no calculation. *)
Theorem perform_calculations_outcome (data_points : list FinancialDataPoint)
    (query : string) (h : list CalcResult) :
  (exists r h',
     perform_calculations data_points query h = (r, h') /\
     (r = Raise KeyError \/ exists calculations, r = Ok calculations)) /\
  ((forall dp, dp ∈ data_points ->
      metric dp = SHAREHOLDER_EQUITY \/ metric dp = TOTAL_DEPOSITS ->
      ~ value dp == 0) ->
   exists calculations h',
     perform_calculations data_points query h = (Ok calculations, h')) /\
  (contains "roe" (lower query) || contains "return on equity" (lower query) = true ->
   Exists (fun x => x.2 == 0)
          (with_both NET_PROFIT SHAREHOLDER_EQUITY
             (CalcAgent._group_data_by_period data_points)) ->
   exists h', perform_calculations data_points query h = (Raise KeyError, h')) /\
  (contains "roe" (lower query) || contains "return on equity" (lower query)
   || contains "loan-to-deposit" (lower query) || contains "ldr" (lower query)
   || contains "percentage change" (lower query) || contains "growth" (lower query)
   || contains "trend" (lower query) = false ->
   perform_calculations data_points query h = (Ok [], h)).
Proof.
  unfold perform_calculations.
  set (g := CalcAgent._group_data_by_period data_points).
  set (kroe := contains "roe" (lower query) || contains "return on equity" (lower query)).
  set (kldr := contains "loan-to-deposit" (lower query) || contains "ldr" (lower query)).
  set (kgrowth := contains "percentage change" (lower query)
                  || contains "growth" (lower query)).
  set (ktrend := contains "trend" (lower query)).
  (* the last two steps return *)
  assert (Htail : forall h1,
    exists c3 c4 h3,
      (growth ← (if kgrowth then _calculate_growth_rates g query else mret []);
       trends ← (if ktrend then _calculate_comprehensive_trends g else mret []);
       mret (growth, trends)) h1 = (Ok (c3, c4), h3)).
  { intros h1.
    assert (H3 : exists c3 h2,
              (if kgrowth then _calculate_growth_rates g query else mret []) h1
                = (Ok c3, h2)).
    { destruct kgrowth; [|now exists [], h1].
      destruct (growth_rates_spec g query h1) as (c3 & h2 & Hrun & _).
      now exists c3, h2. }
    destruct H3 as (c3 & h2 & H3).
    assert (H4 : exists c4 h3,
              (if ktrend then _calculate_comprehensive_trends g else mret []) h2
                = (Ok c4, h3)).
    { destruct ktrend; [|now exists [], h2].
      destruct (trends_loop_spec g key_metrics h2) as (c4 & h3 & Hrun & _).
      now exists c4, h3. }
    destruct H4 as (c4 & h3 & H4).
    exists c3, c4, h3. unfold mbind at 1, Calc_bind at 1. rewrite H3.
    unfold mbind at 1, Calc_bind at 1. rewrite H4. reflexivity. }
  assert (Hroe : forall h0,
    (Forall (fun x => ~ x.2 == 0) (with_both NET_PROFIT SHAREHOLDER_EQUITY g) ->
     exists c1 h1, _calculate_roe_trend g h0 = (Ok c1, h1)) /\
    (Exists (fun x => x.2 == 0) (with_both NET_PROFIT SHAREHOLDER_EQUITY g) ->
     exists h1, _calculate_roe_trend g h0 = (Raise KeyError, h1))).
  { intros h0. destruct (roe_trend_spec g h0) as [Hok Hraise]. split; [|exact Hraise].
    intros Hall. destruct (Hok Hall) as (trend & Hrun & _). eauto. }
  assert (Hldr : forall h0,
    (Forall (fun x => ~ x.2 == 0) (with_both TOTAL_LOANS TOTAL_DEPOSITS g) ->
     exists c1 h1, _calculate_ldr_trend g h0 = (Ok c1, h1)) /\
    (Exists (fun x => x.2 == 0) (with_both TOTAL_LOANS TOTAL_DEPOSITS g) ->
     exists h1, _calculate_ldr_trend g h0 = (Raise KeyError, h1))).
  { intros h0. destruct (ldr_trend_spec g h0) as [Hok Hraise]. split; [|exact Hraise].
    intros Hall. destruct (Hok Hall) as (trend & Hrun & _). eauto. }
  (* from the loan-to-deposit step on *)
  assert (Hfrom_ldr : forall (c1 : list Calculation) h1,
    (exists r h',
       (ldr ← (if kldr then _calculate_ldr_trend g else mret []);
        growth ← (if kgrowth then _calculate_growth_rates g query else mret []);
        trends ← (if ktrend then _calculate_comprehensive_trends g else mret []);
        mret (c1 ++ ldr ++ growth ++ trends)) h1 = (r, h') /\
       (r = Raise KeyError \/ exists calculations, r = Ok calculations)) /\
    (Forall (fun x => ~ x.2 == 0) (with_both TOTAL_LOANS TOTAL_DEPOSITS g) ->
     exists calculations h',
       (ldr ← (if kldr then _calculate_ldr_trend g else mret []);
        growth ← (if kgrowth then _calculate_growth_rates g query else mret []);
        trends ← (if ktrend then _calculate_comprehensive_trends g else mret []);
        mret (c1 ++ ldr ++ growth ++ trends)) h1 = (Ok calculations, h'))).
  { intros c1 h1.
    assert (Hok : forall c2 h2,
      (if kldr then _calculate_ldr_trend g else mret []) h1 = (Ok c2, h2) ->
      exists calculations h',
        (ldr ← (if kldr then _calculate_ldr_trend g else mret []);
         growth ← (if kgrowth then _calculate_growth_rates g query else mret []);
         trends ← (if ktrend then _calculate_comprehensive_trends g else mret []);
         mret (c1 ++ ldr ++ growth ++ trends)) h1 = (Ok calculations, h')).
    { intros c2 h2 H2. destruct (Htail h2) as (c3 & c4 & h3 & H34).
      exists (c1 ++ c2 ++ c3 ++ c4), h3.
      unfold mbind at 1, Calc_bind at 1. rewrite H2.
      revert H34. unfold mbind, Calc_bind.
      destruct ((if kgrowth then _calculate_growth_rates g query else mret []) h2)
        as [[c3'|e] h2']; [|discriminate].
      destruct ((if ktrend then _calculate_comprehensive_trends g else mret []) h2')
        as [[c4'|e] h3']; [|discriminate].
      unfold mret, Calc_ret. now intros [= -> -> ->]. }
    destruct kldr eqn:Hk.
    - destruct (Hldr h1) as [Hgood Hbad]. split.
      + destruct (zero_or_not (with_both TOTAL_LOANS TOTAL_DEPOSITS g)) as [Hall|Hex].
        * destruct (Hgood Hall) as (c2 & h2 & H2).
          destruct (Hok c2 h2 H2) as (calculations & h' & Hrun).
          exists (Ok calculations), h'. split; [exact Hrun | right; now eexists].
        * destruct (Hbad Hex) as (h2 & H2). exists (Raise KeyError), h2.
          split; [|now left]. unfold mbind at 1, Calc_bind at 1. now rewrite H2.
      + intros Hall. destruct (Hgood Hall) as (c2 & h2 & H2). now apply (Hok c2 h2).
    - destruct (Hok [] h1 eq_refl) as (calculations & h' & Hrun). split.
      + exists (Ok calculations), h'. split; [exact Hrun | right; now eexists].
      + intros _. now exists calculations, h'. }
  split; [|split; [|split]].
  - destruct kroe eqn:Hk.
    + destruct (Hroe h) as [Hgood Hbad].
      destruct (zero_or_not (with_both NET_PROFIT SHAREHOLDER_EQUITY g)) as [Hall|Hex].
      * destruct (Hgood Hall) as (c1 & h1 & H1).
        destruct (Hfrom_ldr c1 h1) as [(r & h' & Hrun & Hr) _].
        exists r, h'. split; [|exact Hr].
        unfold mbind at 1, Calc_bind at 1. now rewrite H1.
      * destruct (Hbad Hex) as (h1 & H1). exists (Raise KeyError), h1.
        split; [|now left]. unfold mbind at 1, Calc_bind at 1. now rewrite H1.
    + destruct (Hfrom_ldr [] h) as [(r & h' & Hrun & Hr) _].
      exists r, h'. split; [exact Hrun | exact Hr].
  - intros Hnz.
    assert (Hroe_ok : Forall (fun x => ~ x.2 == 0)
                        (with_both NET_PROFIT SHAREHOLDER_EQUITY g)).
    { apply with_both_nonzero. intros dp Hdp Hm. apply Hnz; auto. }
    assert (Hldr_ok : Forall (fun x => ~ x.2 == 0)
                        (with_both TOTAL_LOANS TOTAL_DEPOSITS g)).
    { apply with_both_nonzero. intros dp Hdp Hm. apply Hnz; auto. }
    destruct kroe eqn:Hk.
    + destruct (proj1 (Hroe h) Hroe_ok) as (c1 & h1 & H1).
      destruct (proj2 (Hfrom_ldr c1 h1) Hldr_ok) as (calculations & h' & Hrun).
      exists calculations, h'. unfold mbind at 1, Calc_bind at 1. now rewrite H1.
    + destruct (proj2 (Hfrom_ldr [] h) Hldr_ok) as (calculations & h' & Hrun).
      now exists calculations, h'.
  - intros Hk Hex. rewrite Hk.
    destruct (proj2 (Hroe h) Hex) as (h1 & H1). exists h1.
    unfold mbind at 1, Calc_bind at 1. now rewrite H1.
  - intros Hnone. unfold kroe, kldr, kgrowth, ktrend in *.
    clear Htail Hroe Hldr Hfrom_ldr.
    repeat match goal with
           | H : _ || _ = false |- _ => apply orb_false_iff in H; destruct H
           end.
    repeat match goal with
           | H : contains _ _ = false |- _ => rewrite H; clear H
           end.
    reflexivity.
Qed.

Lemma perform_calculations_outcome_witness :
  let equity v :=
    {| metric := SHAREHOLDER_EQUITY; value := v; period := "2022_Q1";
       metadata := fab_2022; source_page := 1; source_section := "balance_sheet";
       Schemas.confidence := 0.9 |} in
  (exists h',
     perform_calculations [net_profit_2022_Q1 5120 0.9; equity 0]
       "What was the ROE in Q1 2022?" [] = (Raise KeyError, h')) /\
  (exists calculations h',
     perform_calculations [net_profit_2022_Q1 5120 0.9; equity 100000]
       "What was the ROE in Q1 2022?" [] = (Ok calculations, h')) /\
  perform_calculations [net_profit_2022_Q1 5120 0.9; equity 0]
    "What was net profit in Q1 2022?" [] = (Ok [], []).
Proof.
  intros equity. split; [|split].
  - apply (perform_calculations_outcome [net_profit_2022_Q1 5120 0.9; equity 0]
             "What was the ROE in Q1 2022?" []).
    + vm_compute. reflexivity.
    + apply Exists_cons. left. reflexivity.
  - apply (perform_calculations_outcome [net_profit_2022_Q1 5120 0.9; equity 100000]
             "What was the ROE in Q1 2022?" []).
    intros dp Hdp _. apply elem_of_cons in Hdp. destruct Hdp as [->|Hdp].
    + discriminate.
    + apply list_elem_of_singleton in Hdp. subst dp. discriminate.
  - apply (perform_calculations_outcome [net_profit_2022_Q1 5120 0.9; equity 0]
             "What was net profit in Q1 2022?" []).
    vm_compute. reflexivity.
Defined.

(** ** The table metrics extractor *)

Import TableMetrics.

(** *** The ordered dictionary *)

Lemma set_item_keys (metrics : Metrics) (key : string) (info : MetricInfo) :
  (set_item metrics key info).*1 =
    if bool_decide (key ∈ metrics.*1) then metrics.*1 else metrics.*1 ++ [key].
Proof.
  unfold set_item. destruct (bool_decide (key ∈ metrics.*1)).
  - rewrite <- list_fmap_compose. apply list_fmap_ext. intros i [k v] _. simpl.
    destruct (decide (k = key)); simpl; congruence.
  - now rewrite fmap_app.
Qed.

Lemma set_item_NoDup (metrics : Metrics) (key : string) (info : MetricInfo) :
  NoDup metrics.*1 -> NoDup (set_item metrics key info).*1.
Proof.
  intros Hnd. rewrite set_item_keys.
  destruct (bool_decide (key ∈ metrics.*1)) eqn:Hin; [exact Hnd|].
  apply bool_decide_eq_false in Hin. apply NoDup_app. split; [exact Hnd|].
  split; [|apply NoDup_singleton].
  intros x Hx Hx'. apply list_elem_of_singleton in Hx'. now subst.
Qed.

Lemma set_item_elem (metrics : Metrics) (key : string) (info : MetricInfo)
    (item : string * MetricInfo) :
  item ∈ set_item metrics key info -> item = (key, info) \/ item ∈ metrics.
Proof.
  unfold set_item. destruct (bool_decide (key ∈ metrics.*1)).
  - intros Hin. apply list_elem_of_fmap in Hin. destruct Hin as (item' & -> & Hin).
    destruct (decide (item'.1 = key)); [now left | now right].
  - intros Hin. apply elem_of_app in Hin. destruct Hin as [Hin|Hin]; [now right|].
    apply list_elem_of_singleton in Hin. now left.
Qed.

Lemma item_of_set_item (metrics : Metrics) (key key' : string) (info : MetricInfo) :
  item_of (set_item metrics key info) key' =
    if decide (key = key') then Some info else item_of metrics key'.
Proof.
  unfold set_item, item_of.
  destruct (bool_decide (key ∈ metrics.*1)) eqn:Hin.
  - apply bool_decide_eq_true in Hin.
    induction metrics as [|[k v] metrics IH]; [now apply elem_of_nil in Hin|].
    rewrite fmap_cons. cbn [find fst snd].
    destruct (decide (k = key)) as [->|Hk]; cbn [fst snd].
    + destruct (decide (key = key')) as [->|Hne].
      * now rewrite bool_decide_eq_true_2.
      * rewrite !bool_decide_eq_false_2 by exact Hne.
        clear IH Hin. induction metrics as [|[k v'] metrics IH]; [reflexivity|].
        rewrite fmap_cons. cbn [find fst snd].
        destruct (decide (k = key)) as [->|Hk]; cbn [fst snd].
        -- rewrite !bool_decide_eq_false_2 by exact Hne. exact IH.
        -- destruct (bool_decide (k = key')); [reflexivity | exact IH].
    + simpl in Hin. apply elem_of_cons in Hin. destruct Hin as [Heq|Hin]; [congruence|].
      destruct (bool_decide (k = key')) eqn:Hk'.
      * apply bool_decide_eq_true in Hk'. subst key'.
        now rewrite decide_False by congruence.
      * now apply IH.
  - induction metrics as [|[k v] metrics IH]; simpl.
    + destruct (decide (key = key')) as [->|Hne].
      * now rewrite bool_decide_eq_true_2.
      * now rewrite bool_decide_eq_false_2.
    + apply bool_decide_eq_false in Hin. simpl in Hin.
      apply not_elem_of_cons in Hin. destruct Hin as [Hne Hin].
      destruct (bool_decide (k = key')) eqn:Hk'.
      * apply bool_decide_eq_true in Hk'. subst key'.
        now rewrite decide_False by congruence.
      * apply IH. now apply bool_decide_eq_false.
Qed.

(** *** The extraction keeps its dictionary well formed *)

Lemma table_convert_returns (value_str : string) :
  exists v, TableMetrics._convert_to_numeric value_str = Ok v.
Proof.
  unfold TableMetrics._convert_to_numeric.
  destruct (bool_decide (Normalizer.keep_numeric value_str = ""%string));
    [eexists; reflexivity|]. cbn [negb].
  destruct (float_value_error (Normalizer.keep_numeric value_str)) as [[v ->]| ->];
    eexists; reflexivity.
Qed.

Lemma record_value_invariant (table_type description : string) (v : Q)
    (entries : list (string * list string)) : forall metrics,
  0 < v ->
  (forall e, e ∈ entries -> e ∈ metric_mapping) ->
  NoDup metrics.*1 -> Forall (produced table_type) metrics ->
  let metrics' :=
    fold_left
      (fun metrics entry =>
         if matches description entry.2
         then set_item metrics entry.1
                {| value := v; source := "table_" +:+ table_type;
                   row_description := description; confidence := 0.7 |}
         else metrics) entries metrics in
  NoDup metrics'.*1 /\ Forall (produced table_type) metrics'.
Proof.
  induction entries as [|[name patterns] entries IH]; intros metrics Hv Hsub Hnd Hall.
  - now split.
  - cbn [fold_left fst snd]. apply IH; [exact Hv | | |].
    + intros e He. apply Hsub. now apply list_elem_of_further.
    + destruct (matches description patterns); [now apply set_item_NoDup | exact Hnd].
    + destruct (matches description patterns) eqn:Hm; [|exact Hall].
      apply Forall_forall. intros item Hitem. apply set_item_elem in Hitem.
      destruct Hitem as [->|Hitem].
      * split; [|now repeat split].
        exists patterns. split; [apply Hsub, list_elem_of_here | exact Hm].
      * rewrite Forall_forall in Hall. now apply Hall.
Qed.

Lemma cell_step_invariant (table_type description : string) (metrics : Metrics)
    (cell : option string) :
  NoDup metrics.*1 -> Forall (produced table_type) metrics ->
  exists metrics',
    cell_step table_type description metrics cell = Ok metrics' /\
    NoDup metrics'.*1 /\ Forall (produced table_type) metrics'.
Proof.
  intros Hnd Hall. unfold cell_step.
  destruct cell as [s|]; [|now exists metrics].
  destruct (negb (bool_decide (s = ""%string)) && _is_financial_value (Some s));
    [|now exists metrics].
  destruct (table_convert_returns s) as (v & ->). cbn [mbind Res_bind].
  destruct (negb (Py.eqb v 0) && Py.ltb 0 v) eqn:Hpos; [|now exists metrics].
  apply andb_true_iff in Hpos. destruct Hpos as [_ Hpos]. apply ltb_true in Hpos.
  eexists. split; [reflexivity|].
  now apply (record_value_invariant table_type description v metric_mapping metrics).
Qed.

Lemma cells_loop_invariant (table_type description : string)
    (cells : list (option string)) : forall metrics,
  NoDup metrics.*1 -> Forall (produced table_type) metrics ->
  exists metrics',
    cells_loop table_type description metrics cells = Ok metrics' /\
    NoDup metrics'.*1 /\ Forall (produced table_type) metrics'.
Proof.
  induction cells as [|cell cells IH]; intros metrics Hnd Hall.
  - now exists metrics.
  - destruct (cell_step_invariant table_type description metrics cell Hnd Hall)
      as (metrics1 & Hstep & Hnd1 & Hall1).
    cbn [cells_loop]. rewrite Hstep. cbn [mbind Res_bind]. now apply IH.
Qed.

Lemma row_step_invariant (table_type : string) (metrics : Metrics)
    (row : list (option string)) :
  NoDup metrics.*1 -> Forall (produced table_type) metrics ->
  exists metrics',
    row_step table_type metrics row = Ok metrics' /\
    NoDup metrics'.*1 /\ Forall (produced table_type) metrics'.
Proof.
  intros Hnd Hall. unfold row_step. destruct row as [|cell row]; [now exists metrics|].
  destruct (bool_decide (find_description (take 3 (cell :: row)) = ""%string));
    [now exists metrics|].
  now apply cells_loop_invariant.
Qed.

Lemma rows_loop_invariant (table_type : string) (rows : list (list (option string))) :
  forall metrics,
  NoDup metrics.*1 -> Forall (produced table_type) metrics ->
  exists metrics',
    rows_loop table_type metrics rows = Ok metrics' /\
    NoDup metrics'.*1 /\ Forall (produced table_type) metrics'.
Proof.
  induction rows as [|row rows IH]; intros metrics Hnd Hall.
  - now exists metrics.
  - destruct (row_step_invariant table_type metrics row Hnd Hall)
      as (metrics1 & Hstep & Hnd1 & Hall1).
    cbn [rows_loop]. rewrite Hstep. cbn [mbind Res_bind]. now apply IH.
Qed.

Lemma table_extraction_spec (table_data : list (list (option string)))
    (table_type : string) :
  exists metrics,
    extract_metrics_from_table_data table_data table_type = Ok metrics /\
    NoDup metrics.*1 /\
    Forall (produced table_type) metrics /\
    ((length table_data < 2)%nat -> metrics = []).
Proof.
  unfold extract_metrics_from_table_data.
  destruct (bool_decide (table_data = []) || (length table_data <? 2)%nat) eqn:Hshort.
  - exists []. split; [reflexivity|]. split; [constructor|]. split; [constructor|].
    reflexivity.
  - apply orb_false_iff in Hshort. destruct Hshort as [_ Hlen].
    apply Nat.ltb_ge in Hlen.
    destruct (rows_loop_invariant table_type table_data [])
      as (metrics & Hrun & Hnd & Hall); [constructor | constructor |].
    exists metrics. split; [exact Hrun|]. split; [exact Hnd|]. split; [exact Hall|].
    lia.
Qed.

(** X16: [extract_metrics_from_table_data] never raises.  For a table of
    fewer than two rows it returns the empty dictionary.  Every entry it
    returns is under one of the six metric names of its mapping, has a
    value greater than zero, the confidence 0.7, the source
    "table_<table_type>", and the description of a row that contains one
    of the patterns of that metric. *)
Theorem table_extraction_invariant (table_data : list (list (option string)))
    (table_type : string) :
  exists metrics,
    extract_metrics_from_table_data table_data table_type = Ok metrics /\
    NoDup metrics.*1 /\
    Forall (produced table_type) metrics /\
    ((length table_data < 2)%nat -> metrics = []).
Proof. apply table_extraction_spec. Qed.

Lemma table_extraction_invariant_witness :
  exists metrics info,
    extract_metrics_from_table_data
      [[Some "AED million"; Some "Q1 2022"; Some "Q1 2021"];
       [Some "Net profit for the period"; Some "5,120"; Some "4,800"];
       [Some "Total assets"; None; Some "n/a"]]%string
      "financial_table" = Ok metrics /\
    metrics = [("net_profit"%string, info)] /\
    value info = 4800 /\ source info = "table_financial_table"%string /\
    extract_metrics_from_table_data
      [[Some "Net profit for the period"; Some "5,120"]]%string "financial_table"
      = Ok [].
Proof.
  destruct (table_extraction_invariant
              [[Some "AED million"; Some "Q1 2022"; Some "Q1 2021"];
               [Some "Net profit for the period"; Some "5,120"; Some "4,800"];
               [Some "Total assets"; None; Some "n/a"]]%string "financial_table")
    as (metrics & Hrun & _).
  destruct (table_extraction_invariant
              [[Some "Net profit for the period"; Some "5,120"]]%string
              "financial_table") as (metrics' & Hrun' & _ & _ & Hshort).
  rewrite (Hshort ltac:(simpl; lia)) in Hrun'.
  vm_compute in Hrun. injection Hrun as <-.
  eexists _, _. split; [vm_compute; reflexivity|]. split; [reflexivity|].
  split; [reflexivity|]. split; [reflexivity | exact Hrun'].
Defined.

(** *** Which value a metric gets *)

Lemma record_value_lookup (table_type description : string) (v : Q) (name : string)
    (entries : list (string * list string)) : forall metrics,
  item_of
    (fold_left
       (fun metrics entry =>
          if matches description entry.2
          then set_item metrics entry.1
                 {| value := v; source := "table_" +:+ table_type;
                    row_description := description; confidence := 0.7 |}
          else metrics) entries metrics) name =
  if existsb (fun e => bool_decide (e.1 = name) && matches description e.2) entries
  then Some {| value := v; source := "table_" +:+ table_type;
               row_description := description; confidence := 0.7 |}
  else item_of metrics name.
Proof.
  induction entries as [|[key patterns] entries IH]; intros metrics; [reflexivity|].
  cbn [fold_left existsb fst snd]. rewrite IH.
  destruct (existsb _ entries); [now rewrite orb_true_r|]. rewrite orb_false_r.
  destruct (matches description patterns) eqn:Hm.
  - rewrite item_of_set_item. rewrite andb_true_r.
    destruct (decide (key = name)) as [->|Hne].
    + now rewrite bool_decide_eq_true_2.
    + now rewrite bool_decide_eq_false_2.
  - now rewrite andb_false_r.
Qed.

Lemma cell_step_lookup (table_type description name : string)
    (patterns : list string) (metrics : Metrics) (cell : option string) :
  (name, patterns) ∈ metric_mapping -> matches description patterns = true ->
  exists metrics',
    cell_step table_type description metrics cell = Ok metrics' /\
    item_of metrics' name =
      match recorded_value cell with
      | Some v => Some {| value := v; source := "table_" +:+ table_type;
                          row_description := description; confidence := 0.7 |}
      | None => item_of metrics name
      end.
Proof.
  intros Hin Hm. unfold cell_step, recorded_value.
  destruct cell as [s|]; [|now exists metrics].
  destruct (negb (bool_decide (s = ""%string)) && _is_financial_value (Some s));
    [|now exists metrics].
  destruct (table_convert_returns s) as (v & ->). cbn [mbind Res_bind].
  destruct (negb (Py.eqb v 0) && Py.ltb 0 v); [|now exists metrics].
  eexists. split; [reflexivity|]. unfold record_value.
  rewrite record_value_lookup.
  replace (existsb _ metric_mapping) with true; [reflexivity|].
  symmetry. apply existsb_exists. exists (name, patterns).
  split; [now apply list_elem_of_In|]. simpl. now rewrite bool_decide_eq_true_2.
Qed.

Lemma cells_loop_lookup (table_type description name : string)
    (patterns : list string) (cells : list (option string)) : forall metrics,
  (name, patterns) ∈ metric_mapping -> matches description patterns = true ->
  exists metrics',
    cells_loop table_type description metrics cells = Ok metrics' /\
    item_of metrics' name =
      match last (omap recorded_value cells) with
      | Some v => Some {| value := v; source := "table_" +:+ table_type;
                          row_description := description; confidence := 0.7 |}
      | None => item_of metrics name
      end.
Proof.
  induction cells as [|cell cells IH]; intros metrics Hin Hm.
  - now exists metrics.
  - destruct (cell_step_lookup table_type description name patterns metrics cell Hin Hm)
      as (metrics1 & Hstep & Hitem).
    destruct (IH metrics1 Hin Hm) as (metrics' & Hrest & Hitem').
    exists metrics'. cbn [cells_loop]. rewrite Hstep. cbn [mbind Res_bind].
    split; [exact Hrest|]. rewrite Hitem'.
    change (omap recorded_value (cell :: cells))
      with (match recorded_value cell with
            | Some y => y :: omap recorded_value cells
            | None => omap recorded_value cells
            end).
    destruct (recorded_value cell) as [v|].
    + destruct (omap recorded_value cells) as [|v' l] eqn:Hl; [simpl; exact Hitem|].
      rewrite last_cons_cons.
      destruct (last (v' :: l)) eqn:El; [reflexivity|].
      apply last_None in El. discriminate.
    + destruct (last (omap recorded_value cells)); [reflexivity | exact Hitem].
Qed.

Lemma rows_loop_app (table_type : string) (rows rows' : list (list (option string))) :
  forall metrics,
  rows_loop table_type metrics (rows ++ rows') =
    (metrics' ← rows_loop table_type metrics rows;
     rows_loop table_type metrics' rows').
Proof.
  induction rows as [|row rows IH]; intros metrics; [reflexivity|].
  cbn [app rows_loop]. destruct (row_step table_type metrics row); [|reflexivity].
  cbn [mbind Res_bind]. apply IH.
Qed.

(** X17: the value of a metric is the last one recorded for it.  If the
    last row of a table has a description with a pattern of the metric,
    the metric gets the value of the last cell of that row that looks
    like a financial value and converts to a positive number, whatever
    the rows and the cells before it gave. *)
Theorem table_last_value_wins (rows : list (list (option string)))
    (row : list (option string)) (table_type name : string)
    (patterns : list string) (v : Q) :
  (1 <= length rows)%nat ->
  (name, patterns) ∈ metric_mapping ->
  find_description (take 3 row) <> ""%string ->
  matches (find_description (take 3 row)) patterns = true ->
  last (omap recorded_value row) = Some v ->
  exists metrics,
    extract_metrics_from_table_data (rows ++ [row]) table_type = Ok metrics /\
    item_of metrics name =
      Some {| value := v; source := "table_" +:+ table_type;
              row_description := find_description (take 3 row);
              confidence := 0.7 |}.
Proof.
  intros Hrows Hin Hdesc Hm Hlast. unfold extract_metrics_from_table_data.
  assert (Hlong : bool_decide (rows ++ [row] = []) || (length (rows ++ [row]) <? 2)%nat
                  = false).
  { apply orb_false_iff. split.
    - apply bool_decide_eq_false. destruct rows; discriminate.
    - apply Nat.ltb_ge. rewrite length_app. simpl. lia. }
  rewrite Hlong, rows_loop_app.
  destruct (rows_loop_invariant table_type rows []) as (metrics1 & -> & _);
    [constructor | constructor |].
  cbn [mbind Res_bind rows_loop]. unfold row_step.
  destruct row as [|cell row]; [discriminate|].
  rewrite bool_decide_eq_false_2 by exact Hdesc.
  destruct (cells_loop_lookup table_type (find_description (take 3 (cell :: row)))
              name patterns (cell :: row) metrics1 Hin Hm) as (metrics & Hrun & Hitem).
  exists metrics. rewrite Hrun. split; [reflexivity|]. now rewrite Hitem, Hlast.
Qed.

Lemma table_last_value_wins_witness :
  exists metrics,
    extract_metrics_from_table_data
      ([[Some "AED million"; Some "Q1 2022"; Some "Q1 2021"]]%string
         ++ [[Some "Net profit for the period"; Some "5,120"; Some "4,800"]]%string)
      "financial_table" = Ok metrics /\
    item_of metrics "net_profit" =
      Some {| value := 4800; source := "table_financial_table";
              row_description := "net profit for the period"; confidence := 0.7 |}.
Proof.
  apply (table_last_value_wins
           [[Some "AED million"; Some "Q1 2022"; Some "Q1 2021"]]%string
           [Some "Net profit for the period"; Some "5,120"; Some "4,800"]%string
           "financial_table" "net_profit"
           ["net profit"; "profit for the"; "net income"; "profit after"]%string 4800).
  - simpl. lia.
  - apply list_elem_of_here.
  - discriminate.
  - vm_compute. reflexivity.
  - vm_compute. reflexivity.
Defined.

Lemma max2_bounds (a b : Q) : b <= max2 a b /\ a <= max2 a b.
Proof.
  unfold max2. destruct (ltb a b) eqn:Hab.
  - apply ltb_true in Hab. split; [apply Qle_refl | now apply Qlt_le_weak].
  - apply ltb_false in Hab. split; [exact Hab | apply Qle_refl].
Qed.

(** The table path on an entry of the table metrics extractor. *)
Lemma table_step_on_produced (chunk : Extractor.Chunk) (table_type : string)
    (item : string * MetricInfo) :
  produced table_type item ->
  exists dps,
    Extractor.table_metric_step chunk (item.1, as_table_metric item.2) = Ok dps /\
    forall dp, dp ∈ dps ->
      FinancialMetric_value (Schemas.metric dp) = item.1 /\
      Schemas.value dp = value item.2 /\
      1 <= Schemas.value dp /\
      0.7 <= Schemas.confidence dp /\ Schemas.confidence dp <= 1.
Proof.
  intros ((patterns & Hin & _) & Hpos & Hconf & _).
  destruct item as [name info]. cbn [fst snd] in *.
  assert (Hmodelled : is_Some (main_financial_ranges !! name)).
  { unfold metric_mapping in Hin. rewrite !elem_of_cons, elem_of_nil in Hin.
    destruct Hin as [H|[H|[H|[H|[H|[H|[]]]]]]]; injection H as -> _;
      eexists; reflexivity. }
  destruct (Extractor.table_metric_step chunk (name, as_table_metric info))
    as [dps|e] eqn:Hstep.
  - exists dps. split; [reflexivity|]. intros dp Hdp.
    destruct (table_metric_step_invariant chunk name (as_table_metric info) dps dp Hstep)
      as (H0 & H1 & Hv); [now apply list_elem_of_In|].
    specialize (Hv Hmodelled).
    unfold Extractor.table_metric_step in Hstep.
    destruct (validate_extraction name _ _) as [r|]; [|discriminate].
    cbn [mbind Res_bind] in Hstep.
    destruct (is_valid r);
      [|injection Hstep as <-; now apply elem_of_nil in Hdp].
    destruct (FinancialMetric_of_value name) as [m|] eqn:Hmetric;
      cbn [mbind Res_bind catch_all] in Hstep;
      [|injection Hstep as <-; now apply elem_of_nil in Hdp].
    destruct (FinancialDataPoint_new _ _ _ _ _ _ _) as [dp'|] eqn:Hnew;
      cbn [mbind Res_bind catch_all] in Hstep; injection Hstep as <-;
      [|now apply elem_of_nil in Hdp].
    apply list_elem_of_singleton in Hdp. subst dp'.
    unfold FinancialDataPoint_new in Hnew.
    destruct (_ && _) in Hnew; [|discriminate]. injection Hnew as <-.
    cbn [Schemas.metric Schemas.value Schemas.confidence] in *.
    split.
    { unfold FinancialMetric_of_value in Hmetric.
      destruct (FinancialMetric_lookup name) as [m'|] eqn:Hl; [|discriminate].
      injection Hmetric as ->. unfold FinancialMetric_lookup in Hl.
      apply find_some in Hl. destruct Hl as [_ Hl].
      now apply bool_decide_eq_true in Hl. }
    split; [reflexivity|]. split; [exact Hv|]. split; [|exact H1].
    rewrite Hconf. apply max2_bounds.
  - exfalso. unfold Extractor.table_metric_step in Hstep.
    destruct (validate_extraction_returns name
                (default 0 (Extractor.tm_value (as_table_metric info)))
                (year (Extractor.cleaned_metadata chunk))) as (r & Hr).
    rewrite Hr in Hstep. cbn [mbind Res_bind] in Hstep.
    destruct (is_valid r); [|discriminate].
    destruct (FinancialMetric_of_value name);
      cbn [mbind Res_bind catch_all] in Hstep; [|discriminate].
    destruct (FinancialDataPoint_new _ _ _ _ _ _ _);
      cbn [mbind Res_bind catch_all] in Hstep; discriminate.
Qed.

(** The names under which the table metrics extractor records values
    are names the validator has ranges for. *)
Lemma table_metrics_names_have_ranges (table_data : list (list (option string)))
    (table_type : string) (metrics : Metrics) :
  extract_metrics_from_table_data table_data table_type = Ok metrics ->
  forall name info, (name, info) ∈ metrics ->
    is_Some (main_financial_ranges !! name).
Proof.
  intros Hrun name info Hin.
  destruct (table_extraction_spec table_data table_type) as (metrics' & Hrun' & _ & Hall & _).
  rewrite Hrun in Hrun'. injection Hrun' as <-.
  rewrite Forall_forall in Hall.
  destruct (Hall (name, info) Hin) as ((patterns & Hmap & _) & _).
  cbn [fst] in Hmap. unfold metric_mapping in Hmap.
  rewrite !elem_of_cons, elem_of_nil in Hmap.
  destruct Hmap as [H|[H|[H|[H|[H|[H|[]]]]]]]; injection H as -> _;
    eexists; reflexivity.
Qed.

(** X18: on the dictionary the table metrics extractor returns, the
    table path of the financial extractor returns, and builds only data
    points of one of the six metrics of that dictionary, with the value
    recorded there, which is at least 1, and a confidence from 0.7 to 1. *)
Theorem table_path_on_extracted_metrics (table_data : list (list (option string)))
    (table_type : string) (metrics : Metrics) (chunk : Extractor.Chunk) :
  extract_metrics_from_table_data table_data table_type = Ok metrics ->
  Extractor.extracted_metrics chunk
    = (fun item => (item.1, as_table_metric item.2)) <$> metrics ->
  exists dps,
    Extractor._extract_metrics_from_table_data chunk = Ok dps /\
    forall dp, dp ∈ dps ->
      (exists info, (FinancialMetric_value (Schemas.metric dp), info) ∈ metrics /\
                    Schemas.value dp = value info) /\
      1 <= Schemas.value dp /\
      0.7 <= Schemas.confidence dp /\ Schemas.confidence dp <= 1.
Proof.
  intros Hrun Hchunk.
  destruct (table_extraction_spec table_data table_type) as (metrics' & Hrun' & _ & Hall & _).
  rewrite Hrun in Hrun'. injection Hrun' as <-.
  unfold Extractor._extract_metrics_from_table_data. rewrite Hchunk.
  apply concat_results_all. intros entry Hentry.
  apply list_elem_of_fmap in Hentry. destruct Hentry as (item & -> & Hitem).
  rewrite Forall_forall in Hall.
  destruct (table_step_on_produced chunk table_type item (Hall item Hitem))
    as (dps & Hstep & Hdps).
  exists dps. split; [exact Hstep|]. intros dp Hdp.
  destruct (Hdps dp Hdp) as (Hm & Hv & H1 & Hc0 & Hc1).
  split; [|now repeat split].
  exists item.2. rewrite Hm. split; [|exact Hv]. now destruct item.
Qed.

Lemma table_path_on_extracted_metrics_witness :
  let info := {| value := 4800; source := "table_financial_table";
                 row_description := "net profit for the period";
                 confidence := 0.7 |} in
  exists dps,
    Extractor._extract_metrics_from_table_data
      (table_chunk [("net_profit"%string, as_table_metric info)]) = Ok dps /\
    forall dp, dp ∈ dps ->
      (exists info', (FinancialMetric_value (Schemas.metric dp), info')
                       ∈ [("net_profit"%string, info)] /\
                     Schemas.value dp = value info') /\
      1 <= Schemas.value dp /\
      0.7 <= Schemas.confidence dp /\ Schemas.confidence dp <= 1.
Proof.
  intros info.
  apply (table_path_on_extracted_metrics
           [[Some "AED million"; Some "Q1 2022"; Some "Q1 2021"];
            [Some "Net profit for the period"; Some "5,120"; Some "4,800"]]%string
           "financial_table" [("net_profit"%string, info)]
           (table_chunk [("net_profit"%string, as_table_metric info)])).
  - vm_compute. reflexivity.
  - reflexivity.
Defined.

(** X19: the two copies of [_convert_to_numeric] agree on every string
    without a scale word: the one of the table metrics extractor, which
    applies no scale, returns what the one of the financial extractor
    returns when the string has no "trillion", "billion", "bn" or "'000". *)
Theorem table_normalizer_agrees (value_str : string) :
  contains "trillion" (lower value_str) = false ->
  contains "billion" (lower value_str) = false ->
  contains "bn" (lower value_str) = false ->
  contains "'000" value_str = false ->
  TableMetrics._convert_to_numeric value_str
    = Normalizer._convert_to_numeric value_str.
Proof.
  intros Ht Hb Hbn Hk.
  unfold TableMetrics._convert_to_numeric, Normalizer._convert_to_numeric.
  rewrite keep_numeric_strip, Ht, Hb, Hbn, Hk. cbn [orb].
  destruct (bool_decide (value_str = ""%string)) eqn:He.
  - apply bool_decide_eq_true in He. subst. reflexivity.
  - destruct (bool_decide (Normalizer.keep_numeric value_str = ""%string));
      [reflexivity|]. cbn [negb].
    destruct (float_value_error (Normalizer.keep_numeric value_str)) as [[v ->]| ->];
      reflexivity.
Qed.

Lemma table_normalizer_agrees_witness :
  TableMetrics._convert_to_numeric "AED 5,120 million"
    = Normalizer._convert_to_numeric "AED 5,120 million" /\
  TableMetrics._convert_to_numeric "5.12 billion" = Ok 5.12 /\
  Normalizer._convert_to_numeric "5.12 billion" = Ok (5.12 * 1000).
Proof.
  split; [|split; reflexivity].
  apply (table_normalizer_agrees "AED 5,120 million"); reflexivity.
Defined.

(** ** The orchestrator and the cleaning of the page count *)

Import Orchestrator Pages.

(** X20: [final_validation] answers "approve" for every state: with an
    error it approves at once, and without one it approves in the second
    test, so the "retry" edge of the workflow is never taken. *)
Theorem final_validation_always_approves (state : WorkflowState) :
  final_validation state = "approve"%string.
Proof.
  unfold final_validation.
  destruct (truthy (error state)); [reflexivity|].
  destruct (3 <=? iteration_count state)%Z; reflexivity.
Qed.

Lemma starts_with_app (p q l : list ascii) :
  starts_with (p ++ q) l = true -> starts_with p l = true.
Proof.
  revert l. induction p as [|a p IH]; intros l H; [reflexivity|].
  destruct l as [|b l]; [discriminate|]. simpl in *.
  apply andb_true_iff in H. destruct H as [Hab H].
  rewrite Hab. simpl. now apply IH.
Qed.

Lemma contains_chars_app (p q l : list ascii) :
  contains_chars (p ++ q) l = true -> contains_chars p l = true.
Proof.
  induction l as [|b l IH]; simpl; intros H.
  - apply orb_true_iff in H. destruct H as [H|H]; [|discriminate].
    apply starts_with_app in H. now rewrite H.
  - apply orb_true_iff in H. apply orb_true_iff. destruct H as [H|H].
    + left. now apply starts_with_app in H.
    + right. now apply IH.
Qed.

(** X21: after [classify_query], [route_after_extraction] sends a query
    to the calculation agent exactly when its lower-case text contains
    one of "calculate", "ratio", "percentage", "growth rate", "trend",
    "over time", "last", "previous"; so always when it contains "trend"
    or "percentage change", two of the words the calculation agent looks
    for.  Otherwise "compare", "vs", "versus", "difference" send it to the
    temporal analysis, then "risk", "factors", "challenges" to the risk
    analysis, and every other query to the synthesis. *)
Theorem routing_of_classified_query (state : WorkflowState) :
  let q := lower (query state) in
  let to_calculations :=
    any_in ["calculate"; "ratio"; "percentage"; "growth rate";
            "trend"; "over time"; "last"; "previous"] q in
  route_after_extraction (classify_query state) =
    (if to_calculations then "calculations"
     else if any_in ["compare"; "vs"; "versus"; "difference"] q then "temporal"
     else if any_in ["risk"; "factors"; "challenges"] q then "risks"
     else "synthesis")%string /\
  (contains "trend" q = true \/ contains "percentage change" q = true ->
   route_after_extraction (classify_query state) = "calculations"%string).
Proof.
  intros q to_calculations.
  assert (Hroute : route_after_extraction (classify_query state) =
    (if to_calculations then "calculations"
     else if any_in ["compare"; "vs"; "versus"; "difference"] q then "temporal"
     else if any_in ["risk"; "factors"; "challenges"] q then "risks"
     else "synthesis")%string).
  { unfold route_after_extraction, classify_query, classify, to_calculations.
    cbn [query_type query]. fold q. unfold any_in. cbn [existsb].
    destruct (contains "calculate" q), (contains "ratio" q),
      (contains "percentage" q), (contains "growth rate" q); try reflexivity.
    cbn [orb].
    destruct (contains "trend" q), (contains "over time" q),
      (contains "last" q), (contains "previous" q); try reflexivity.
    cbn [orb].
    destruct (contains "compare" q || (contains "vs" q
              || (contains "versus" q || (contains "difference" q || false))));
      [reflexivity|].
    destruct (contains "risk" q || (contains "factors" q
              || (contains "challenges" q || false))); [reflexivity|].
    destruct (contains "how" q || (contains "why" q
              || (contains "explain" q || (contains "factors" q || false))));
      reflexivity. }
  split; [exact Hroute|].
  intros Hword. rewrite Hroute.
  replace to_calculations with true; [reflexivity|].
  symmetry. unfold to_calculations, any_in. cbn [existsb].
  destruct Hword as [Ht|Hp].
  - rewrite Ht. now rewrite !orb_true_r.
  - assert (Hpc : contains "percentage" q = true).
    { unfold contains in *.
      apply (contains_chars_app (chars "percentage") (chars " change")). exact Hp. }
    rewrite Hpc. now rewrite !orb_true_r.
Qed.

Lemma routing_of_classified_query_witness :
  let state q := {| query := q; query_type := None; error := None;
                    iteration_count := 0 |} in
  route_after_extraction (classify_query (state "Show the net profit trend"))
    = "calculations"%string /\
  route_after_extraction (classify_query (state "What was the ROE in Q1 2022?"))
    = "synthesis"%string.
Proof.
  intros state. split.
  - apply (routing_of_classified_query (state "Show the net profit trend")).
    left. reflexivity.
  - destruct (routing_of_classified_query (state "What was the ROE in Q1 2022?"))
      as [Hroute _].
    exact Hroute.
Defined.

Lemma isdigit_of_digits (s : string) :
  s <> ""%string -> Forall (fun c => is_digit c = true) (chars s) -> isdigit s = true.
Proof.
  intros Hne Hall. unfold isdigit.
  destruct (chars s) as [|c l] eqn:Hs.
  - exfalso. apply Hne. rewrite <- (str_chars s), Hs. reflexivity.
  - apply forallb_forall. intros x Hx. rewrite Forall_forall in Hall.
    rewrite (Hall x) by (now apply list_elem_of_In). reflexivity.
Qed.

Lemma int_not_digit (l : list ascii) (b : bool) :
  Exists (fun c => is_digit c = false /\ c <> "_"%char) l -> int_digits l b = false.
Proof.
  intros Hex. revert b. induction Hex as [c l [Hc Hu]|c l _ IH]; intros b; simpl.
  - rewrite Hc.
    destruct (code c =? 95)%N eqn:H95; [|reflexivity].
    exfalso. apply Hu. apply N.eqb_eq in H95. unfold code in H95.
    rewrite <- (ascii_N_embedding c), H95. reflexivity.
  - destruct (is_digit c); [apply IH|].
    destruct (code c =? 95)%N; [|reflexivity]. rewrite IH. apply andb_false_r.
Qed.

(** X22: [_clean_pages_value] turns [None] and the empty string into
    [None] and a string of decimal digits into its number, and leaves
    every other value as it is; what it returns it returns again when
    applied a second time.  A string for which [isdigit()] holds but
    which has a superscript digit is handed to [int], which raises
    [ValueError].  The validator of [DocumentMetadata.pages] is the same
    function.  (The conversion is stated for at most 4300 digits, which
    [int] reads whatever the limit of the interpreter.) *)
Theorem clean_pages_value_cases (v : PagesValue) :
  (forall s, v = PStr s -> s <> ""%string -> (String.length s <= 4300)%nat ->
     Forall (fun c => is_digit c = true) (chars s) ->
     _clean_pages_value v = Ok (PInt (digits_val (chars s)))) /\
  (forall s, v = PStr s -> isdigit s = true ->
     Exists (fun c => is_digit c = false) (chars s) ->
     _clean_pages_value v = Raise ValueError) /\
  (forall v', _clean_pages_value v = Ok v' ->
     v' <> PStr ""%string /\ _clean_pages_value v' = Ok v') /\
  validate_pages v = _clean_pages_value v.
Proof.
  split; [|split; [|split]].
  - intros s -> Hne _ Hall. unfold _clean_pages_value.
    rewrite bool_decide_eq_false_2 by exact Hne.
    rewrite (isdigit_of_digits s Hne Hall), (int_of_digits s Hne Hall). reflexivity.
  - intros s -> Hd Hex. unfold _clean_pages_value.
    destruct (bool_decide (s = ""%string)) eqn:He.
    { apply bool_decide_eq_true in He. subst s. discriminate. }
    rewrite Hd. unfold int. rewrite int_not_digit; [reflexivity|].
    apply Exists_exists in Hex. destruct Hex as (c & Hc & Hnd).
    apply Exists_exists. exists c. split; [exact Hc|]. split; [exact Hnd|].
    intros ->. unfold isdigit in Hd.
    destruct (chars s) as [|c l]; [now apply elem_of_nil in Hc|].
    rewrite forallb_forall in Hd. apply list_elem_of_In in Hc.
    specialize (Hd _ Hc). discriminate.
  - intros v' Hv. destruct v as [|s|n|repr]; simpl in Hv.
    + injection Hv as <-. split; [discriminate | reflexivity].
    + destruct (bool_decide (s = ""%string)) eqn:He.
      * injection Hv as <-. split; [discriminate | reflexivity].
      * destruct (isdigit s) eqn:Hd.
        -- destruct (int s) as [n|]; simpl in Hv; [|discriminate].
           injection Hv as <-. split; [discriminate | reflexivity].
        -- injection Hv as <-. apply bool_decide_eq_false in He.
           split; [congruence|]. simpl.
           rewrite bool_decide_eq_false_2 by exact He. now rewrite Hd.
    + injection Hv as <-. split; [discriminate | reflexivity].
    + injection Hv as <-. split; [discriminate | reflexivity].
  - destruct v; reflexivity.
Qed.

Lemma clean_pages_value_cases_witness :
  _clean_pages_value (PStr "12") = Ok (PInt 12) /\
  _clean_pages_value (PStr (String "1" (String (ascii_of_N 178) ""))) = Raise ValueError /\
  _clean_pages_value (PStr "n/a") = Ok (PStr "n/a").
Proof.
  split; [|split].
  - destruct (clean_pages_value_cases (PStr "12")) as (Hint & _).
    apply (Hint "12"%string eq_refl); [discriminate | simpl; lia | repeat constructor].
  - destruct (clean_pages_value_cases
                (PStr (String "1" (String (ascii_of_N 178) "")))) as (_ & Hsup & _).
    apply (Hsup (String "1" (String (ascii_of_N 178) "")) eq_refl); [reflexivity|].
    apply Exists_cons. right. apply Exists_cons. left. reflexivity.
  - destruct (clean_pages_value_cases (PStr "n/a")) as (_ & _ & Hidem & _).
    apply (Hidem (PStr "n/a")). reflexivity.
Defined.

(** ** The validation agent *)

Import PeriodTool TemporalAnalyzer CalcAgent ValidationAgent.

Lemma rule_of_metric (m : FinancialMetric) :
  validation_rules !! FinancialMetric_value m =
    if decide (m = LOAN_TO_DEPOSIT)
    then Some (fun x => Py.leb 0 x && Py.leb x 200)
    else None.
Proof. destruct m; reflexivity. Qed.

Lemma rule_percentage_change :
  rule "percentage_change" = Ok (fun x => Py.leb (-1000) x && Py.leb x 1000).
Proof. reflexivity. Qed.

Lemma rule_roe : rule "roe" = Ok (fun x => Py.leb (-100) x && Py.leb x 100).
Proof. reflexivity. Qed.

Lemma rule_between (lo hi x : Q) :
  Py.leb lo x && Py.leb x hi = true <-> lo <= x /\ x <= hi.
Proof. rewrite andb_true_iff, !leb_true. reflexivity. Qed.

(** The invariant of the two validations: valid exactly when no error
    has been recorded. *)
Lemma reject_invalid (v : Validation) (e : Message) :
  is_valid (reject v e) = false /\ errors (reject v e) <> [].
Proof. split; [reflexivity|]. simpl. now destruct (errors v). Qed.

Lemma range_step_valid (v : Validation) (dp : FinancialDataPoint) :
  is_valid (range_step v dp) = true <->
  is_valid v = true /\ in_expected_range dp.
Proof.
  unfold range_step, in_expected_range. rewrite rule_of_metric.
  destruct (decide (metric dp = LOAN_TO_DEPOSIT)) as [E|E].
  - cbv zeta.
    destruct (Py.leb 0 (Schemas.value dp) && Py.leb (Schemas.value dp) 200) eqn:B.
    + apply rule_between in B. simpl. tauto.
    + simpl. split; [discriminate|]. intros [_ H].
      apply rule_between in H; [congruence | exact E].
  - tauto.
Qed.

Lemma range_step_errors (v : Validation) (dp : FinancialDataPoint) :
  (is_valid v = true <-> errors v = []) ->
  (is_valid (range_step v dp) = true <-> errors (range_step v dp) = []).
Proof.
  intros I. unfold range_step.
  destruct (validation_rules !! FinancialMetric_value (metric dp)) as [r|]; [|exact I].
  cbv zeta. destruct (r (Schemas.value dp)); simpl; [exact I|].
  split; [discriminate|]. now destruct (errors v).
Qed.

Lemma range_fold_valid (dps : list FinancialDataPoint) : forall v,
  is_valid (fold_left range_step dps v) = true <->
  is_valid v = true /\ Forall in_expected_range dps.
Proof.
  induction dps as [|dp dps IH]; intros v; simpl.
  - split; [intros H; split; [exact H | constructor] | tauto].
  - rewrite IH, range_step_valid, Forall_cons. tauto.
Qed.

Lemma range_fold_errors (dps : list FinancialDataPoint) : forall v,
  (is_valid v = true <-> errors v = []) ->
  (is_valid (fold_left range_step dps v) = true <->
   errors (fold_left range_step dps v) = []).
Proof.
  induction dps as [|dp dps IH]; intros v I; simpl; [exact I|].
  apply IH, range_step_errors, I.
Qed.

Lemma data_points_spec (data_points : list FinancialDataPoint) :
  let validation := _validate_data_points data_points in
  (is_valid validation = true <->
   data_points <> [] /\ Forall in_expected_range data_points) /\
  (is_valid validation = true <-> errors validation = []).
Proof.
  destruct data_points as [|dp dps].
  - simpl. split; split; try discriminate. now intros [H _].
  - cbv zeta. unfold _validate_data_points.
    set (low := List.filter _ _).
    set (v0 := match low with [] => _ | _ => _ end).
    assert (Hv0 : is_valid v0 = true /\ errors v0 = []) by (now destruct low).
    destruct Hv0 as [Hv He].
    split.
    + change (is_valid (fold_left range_step (dp :: dps) v0) = true <->
              dp :: dps <> [] /\ Forall in_expected_range (dp :: dps)).
      rewrite range_fold_valid. split; [intros [_ H]; now split | intros [_ H]; now split].
    + change (is_valid (fold_left range_step (dp :: dps) v0) = true <->
              errors (fold_left range_step (dp :: dps) v0) = []).
      apply range_fold_errors. now rewrite Hv, He.
Qed.

Ltac decide_types :=
  repeat match goal with
  | |- context [@bool_decide (?a = ?b) ?d] =>
      lazymatch type of a with
      | string =>
          first [ rewrite (@bool_decide_eq_true_2 (a = b) d) by reflexivity
                | rewrite (@bool_decide_eq_false_2 (a = b) d) by (intro; discriminate) ]
      end
  end.

Lemma calculation_step_spec (v : Validation) (i : nat) (calc : Calculation) :
  exists v',
    calculation_step v i calc = Ok v' /\
    (is_valid v' = true <-> is_valid v = true /\ acceptable_calculation calc) /\
    ((is_valid v = true <-> errors v = []) ->
     (is_valid v' = true <-> errors v' = [])) /\
    (Forall (fun c => passed c = true) (checks v) ->
     Forall (fun c => passed c = true) (checks v')) /\
    length (checks v') =
      (length (checks v) + if bool_decide (error_of calc = None) then 1 else 0)%nat.
Proof.
  unfold calculation_step, acceptable_calculation, error_of, calc_type_of,
    percentage_change_of, roe_of.
  destruct (result calc) as [e|o n a p|ni se r|tl td l|ii ea nm|t]; cbn [calculation_type default from_option id].
  - eexists. split; [reflexivity|]. simpl.
    split; [split; [discriminate | tauto]|].
    split; [intros _; split; [discriminate | now destruct (errors v)]|].
    split; [tauto | lia].
  - decide_types. rewrite rule_percentage_change.
    cbn [mbind Res_bind default from_option id].
    destruct (Py.leb (-1000) p && Py.leb p 1000) eqn:B; cbn [negb mret Res_ret].
    + apply rule_between in B. eexists. split; [reflexivity|]. simpl.
      split; [tauto|]. split; [tauto|].
      split; [intros H; apply Forall_app; split; [exact H | now repeat constructor]|].
      rewrite length_app. reflexivity.
    + eexists. split; [reflexivity|]. simpl.
      split; [split; [discriminate|]; intros [_ H]; apply rule_between in H; congruence|].
      split; [intros _; split; [discriminate | now destruct (errors v)]|].
      split; [intros H; apply Forall_app; split; [exact H | now repeat constructor]|].
      rewrite length_app. reflexivity.
  - decide_types. rewrite rule_roe.
    cbn [mbind Res_bind default from_option id].
    destruct (Py.leb (-100) r && Py.leb r 100) eqn:B; cbn [negb mret Res_ret].
    + apply rule_between in B. eexists. split; [reflexivity|]. simpl.
      split; [tauto|]. split; [tauto|].
      split; [intros H; apply Forall_app; split; [exact H | now repeat constructor]|].
      rewrite length_app. reflexivity.
    + eexists. split; [reflexivity|]. simpl.
      split; [split; [discriminate|]; intros [_ H]; apply rule_between in H; congruence|].
      split; [intros _; split; [discriminate | now destruct (errors v)]|].
      split; [intros H; apply Forall_app; split; [exact H | now repeat constructor]|].
      rewrite length_app. reflexivity.
  - decide_types.
    eexists. split; [reflexivity|]. simpl.
    split; [tauto|]. split; [tauto|].
    split; [intros H; apply Forall_app; split; [exact H | now repeat constructor]|].
    rewrite length_app. reflexivity.
  - decide_types.
    eexists. split; [reflexivity|]. simpl.
    split; [tauto|]. split; [tauto|].
    split; [intros H; apply Forall_app; split; [exact H | now repeat constructor]|].
    rewrite length_app. reflexivity.
  - decide_types.
    eexists. split; [reflexivity|]. simpl.
    split; [tauto|]. split; [tauto|].
    split; [intros H; apply Forall_app; split; [exact H | now repeat constructor]|].
    rewrite length_app. reflexivity.
Qed.

Lemma calculations_loop_spec (calculations : list Calculation) : forall v i,
  exists v',
    calculations_loop v i calculations = Ok v' /\
    (is_valid v' = true <->
     is_valid v = true /\ Forall acceptable_calculation calculations) /\
    ((is_valid v = true <-> errors v = []) ->
     (is_valid v' = true <-> errors v' = [])) /\
    (Forall (fun c => passed c = true) (checks v) ->
     Forall (fun c => passed c = true) (checks v')) /\
    length (checks v') =
      (length (checks v) +
       length (List.filter (fun c => bool_decide (error_of c = None)) calculations))%nat.
Proof.
  induction calculations as [|calc calcs IH]; intros v i.
  - exists v. split; [reflexivity|]. simpl.
    split; [split; [intros H; split; [exact H | constructor] | tauto]|].
    split; [tauto|]. split; [tauto | lia].
  - destruct (calculation_step_spec v i calc) as (v1 & E1 & A1 & B1 & C1 & D1).
    destruct (IH v1 (S i)) as (v' & E & A & B & C & D).
    exists v'. cbn [calculations_loop]. rewrite E1. cbn [mbind Res_bind].
    split; [exact E|].
    split; [rewrite A, A1, Forall_cons; tauto|].
    split; [tauto|]. split; [tauto|].
    rewrite D, D1. cbn [List.filter].
    destruct (bool_decide (error_of calc = None)); simpl; lia.
Qed.

Lemma calculations_spec (calculations : list Calculation) :
  exists validation,
    _validate_calculations calculations = Ok validation /\
    (is_valid validation = true <-> Forall acceptable_calculation calculations) /\
    (is_valid validation = true <-> errors validation = []) /\
    Forall (fun c => passed c = true) (checks validation) /\
    (calculations <> [] ->
     length (checks validation) =
       length (List.filter (fun c => bool_decide (error_of c = None)) calculations)).
Proof.
  destruct calculations as [|calc calcs].
  - eexists. split; [reflexivity|]. simpl.
    split; [split; [constructor | reflexivity]|].
    split; [tauto|]. split; [now repeat constructor | congruence].
  - destruct (calculations_loop_spec (calc :: calcs)
                {| is_valid := true; errors := []; warnings := None; checks := [] |} 0%nat)
      as (v' & E & A & B & C & D).
    exists v'. split; [exact E|]. simpl in A, B, C, D.
    split; [rewrite A; tauto|].
    split; [apply B; tauto|].
    split; [apply C; constructor|].
    intros _. exact D.
Qed.

Lemma ltb_proper (a a' b b' : Q) : a == a' -> b == b' -> Py.ltb a b = Py.ltb a' b'.
Proof.
  intros Ha Hb.
  destruct (Py.ltb a b) eqn:E, (Py.ltb a' b') eqn:E'; try reflexivity.
  - apply ltb_true in E. apply ltb_false in E'. lra.
  - apply ltb_false in E. apply ltb_true in E'. lra.
Qed.

Lemma round2_proper (x y : Q) : x == y -> round2 x == round2 y.
Proof.
  intros H. unfold round2. cbv zeta.
  assert (Ef : Qfloor (x * 100) = Qfloor (y * 100)) by (apply Qfloor_comp; lra).
  rewrite Ef.
  rewrite (ltb_proper (x * 100 - inject_Z (Qfloor (y * 100)))
             (y * 100 - inject_Z (Qfloor (y * 100))) (1 # 2) (1 # 2)) by lra.
  rewrite (ltb_proper (1 # 2) (1 # 2) (x * 100 - inject_Z (Qfloor (y * 100)))
             (y * 100 - inject_Z (Qfloor (y * 100)))) by lra.
  reflexivity.
Qed.

Lemma round2_bounds (x : Q) : 0 <= x -> x <= 1 -> 0 <= round2 x /\ round2 x <= 1.
Proof.
  intros H0 H1. unfold round2. cbv zeta.
  set (y := x * 100). set (f := Qfloor y).
  assert (Hy0 : 0 <= y) by (unfold y; lra).
  assert (Hy1 : y <= 100) by (unfold y; lra).
  assert (Hf : inject_Z f <= y) by apply Qfloor_le.
  assert (Hf' : y < inject_Z (f + 1)) by apply Qlt_floor.
  assert (Hf0 : (0 <= f)%Z).
  { change 0%Z with (Qfloor 0). apply Qfloor_resp_le, Hy0. }
  assert (Hf1 : (f <= 100)%Z).
  { change 100%Z with (Qfloor 100). apply Qfloor_resp_le, Hy1. }
  assert (Hk : forall k : Z, (0 <= k <= 100)%Z -> 0 <= inject_Z k / 100 /\ inject_Z k / 100 <= 1).
  { intros k [Hk0 Hk1].
    assert (0 <= inject_Z k) by (change 0 with (inject_Z 0); now rewrite <- Zle_Qle).
    assert (inject_Z k <= 100) by (change 100 with (inject_Z 100); now rewrite <- Zle_Qle).
    split.
    - apply Qle_shift_div_l; lra.
    - apply Qle_shift_div_r; lra. }
  destruct (Py.ltb (y - inject_Z f) (1 # 2)) eqn:L1; [apply Hk; lia|].
  apply ltb_false in L1.
  assert (f <> 100%Z).
  { intros E. rewrite E in Hf, L1. change (inject_Z 100) with 100 in *. lra. }
  destruct (Py.ltb (1 # 2) (y - inject_Z f)); [apply Hk; lia|].
  destruct (Z.even f); apply Hk; lia.
Qed.

Lemma len_nonneg {A} (l : list A) : 0 <= len l.
Proof.
  unfold len. change 0 with (inject_Z 0). rewrite <- Zle_Qle. lia.
Qed.

Lemma len_pos {A} (a : A) (l : list A) : 0 < len (a :: l).
Proof.
  unfold len. change 0 with (inject_Z 0). rewrite <- Zlt_Qlt. simpl. lia.
Qed.

Lemma len_filter {A} (f : A -> bool) (l : list A) : len (List.filter f l) <= len l.
Proof.
  unfold len. rewrite <- Zle_Qle. apply Nat2Z.inj_le, List.filter_length_le.
Qed.

Lemma min2_bounds (x : Q) : 0 <= x -> 0 <= min2 1 x /\ min2 1 x <= 1.
Proof.
  intros H. unfold min2. destruct (Py.ltb x 1) eqn:E.
  - apply ltb_true in E. lra.
  - lra.
Qed.

Lemma filter_none {A} (f : A -> bool) (l : list A) :
  Forall (fun a => f a = false) l -> List.filter f l = [].
Proof.
  induction 1 as [|a l Ha _ IH]; [reflexivity|]. simpl. now rewrite Ha.
Qed.

Lemma filter_all {A} (f : A -> bool) (l : list A) :
  Forall (fun a => f a = true) l -> List.filter f l = l.
Proof.
  induction 1 as [|a l Ha _ IH]; [reflexivity|]. simpl. now rewrite Ha, IH.
Qed.

Lemma confidence_spec (validation_checks : list Check) :
  exists score,
    _calculate_confidence_score validation_checks = Ok score /\
    (0 <= score /\ score <= 1) /\
    (validation_checks = [] -> score == 1 # 2) /\
    (validation_checks <> [] ->
     Forall (fun c => passed c = true) validation_checks -> score == 1) /\
    (validation_checks <> [] ->
     Forall (fun c => passed c = false) validation_checks -> score == 0).
Proof.
  destruct validation_checks as [|c cs].
  - exists 0.5. split; [reflexivity|]. split; [lra|].
    split; [reflexivity|]. split; congruence.
  - unfold _calculate_confidence_score.
    set (l := c :: cs).
    set (critical := List.filter (fun c => contains "data_points" (check c)) l).
    set (boost := negb (bool_decide (critical = [])) && forallb passed critical).
    assert (Hpos : 0 < len l) by apply len_pos.
    assert (Hp0 : 0 <= len (List.filter passed l)) by apply len_nonneg.
    assert (Hp1 : len (List.filter passed l) <= len l) by apply len_filter.
    change (length l =? 0)%nat with false. cbv iota.
    rewrite div_ok by lra. cbn [mbind Res_bind mret Res_ret].
    set (base := len (List.filter passed l) / len l).
    assert (Hb0 : 0 <= base) by (apply Qle_shift_div_l; lra).
    assert (Hb1 : base <= 1) by (apply Qle_shift_div_r; lra).
    eexists. split; [reflexivity|].
    split.
    { apply round2_bounds; destruct boost; try lra; apply min2_bounds; lra. }
    split; [discriminate|].
    split; intros _ Hall.
    + assert (E : base == 1).
      { unfold base. rewrite (filter_all _ _ Hall). field. lra. }
      transitivity (round2 1); [|reflexivity].
      apply round2_proper. destruct boost; [|exact E].
      unfold min2. destruct (Py.ltb (base * 1.2) 1) eqn:L; [|reflexivity].
      apply ltb_true in L. lra.
    + assert (E : base == 0).
      { unfold base. rewrite (filter_none _ _ Hall). unfold len at 1. simpl.
        field. lra. }
      transitivity (round2 0); [|reflexivity].
      apply round2_proper. destruct boost; [|exact E].
      unfold min2. destruct (Py.ltb (base * 1.2) 1) eqn:L.
      * lra.
      * apply ltb_false in L. lra.
Qed.

Lemma validate_spec (answer : string) (data_points : list FinancialDataPoint)
    (calculations : list Calculation) :
  exists r,
    validate answer data_points calculations = Ok r /\
    (r_is_valid r = true <->
     data_points <> [] /\ Forall in_expected_range data_points /\
     Forall acceptable_calculation calculations) /\
    (r_is_valid r = true <-> r_errors r = []) /\
    (0 <= r_confidence_score r /\ r_confidence_score r <= 1) /\
    (forall w, w ∈ r_warnings r ->
       w = [Str "Answer appears very brief"] \/
       w = [Str "Answer may lack financial context"]).
Proof.
  unfold validate.
  destruct (data_points_spec data_points) as [Dv De]. cbv zeta in Dv, De.
  destruct (calculations_spec calculations) as (cv & Ec & Cv & Ce & _).
  rewrite Ec. cbn [mbind Res_bind].
  set (dv := _validate_data_points data_points) in *.
  set (all := checks dv ++ checks cv ++ c_checks (_validate_answer_completeness answer)).
  destruct (confidence_spec all) as (score & Es & Hs & _).
  rewrite Es. cbn [mbind Res_bind mret Res_ret].
  eexists. split; [reflexivity|].
  cbn [r_is_valid r_errors r_confidence_score r_warnings].
  split; [rewrite andb_true_iff, Dv, Cv; tauto|].
  split.
  { destruct (is_valid dv) eqn:V1, (is_valid cv) eqn:V2; simpl.
    - tauto.
    - split; [discriminate|]. intros H. apply Ce in H. discriminate.
    - split; [discriminate|]. intros H. apply app_eq_nil in H as [H _].
      apply De in H. discriminate.
    - split; [discriminate|]. intros H. apply app_eq_nil in H as [H _].
      apply De in H. discriminate. }
  split; [exact Hs|].
  intros w. unfold _validate_answer_completeness. cbv zeta.
  destruct (String.length (strip answer) <? 50)%nat;
    destruct (2 <=? length _)%nat; cbn [c_warnings app];
    rewrite ?elem_of_cons, ?elem_of_nil; tauto.
Qed.

Lemma plain_ratio_acceptable (found : list (string * Q * Q)) :
  Forall acceptable_calculation (plain ∘ ratio_of LoanToDeposit <$> found).
Proof.
  apply Forall_fmap, Forall_forall. intros x _. exact I.
Qed.

Lemma trends_accepted (data_by_period : Grouped) (h h' : list CalcResult)
    (calculations : list Calculation) :
  _calculate_ldr_trend data_by_period h = (Ok calculations, h') \/
  _calculate_comprehensive_trends data_by_period h = (Ok calculations, h') ->
  exists validation,
    _validate_calculations calculations = Ok validation /\
    is_valid validation = true /\ errors validation = [].
Proof.
  intros Hrun.
  assert (Hall : Forall acceptable_calculation calculations).
  { destruct Hrun as [Hrun|Hrun].
    - destruct (ldr_trend_spec data_by_period h) as [Hok Hraise]. cbv zeta in Hok, Hraise.
      destruct (zero_or_not (with_both TOTAL_LOANS TOTAL_DEPOSITS data_by_period))
        as [Hnz|Hz].
      + destruct (Hok Hnz) as (trend & E & Hshort & Hlong).
        rewrite E in Hrun. injection Hrun as <- _.
        apply Forall_app. split; [apply plain_ratio_acceptable|].
        destruct (le_lt_dec 2 (length (with_both TOTAL_LOANS TOTAL_DEPOSITS data_by_period)))
          as [L|L].
        * destruct (Hlong L) as (t & -> & _). now repeat constructor.
        * rewrite (Hshort L). constructor.
      + destruct (Hraise Hz) as (h'' & E). rewrite E in Hrun. discriminate.
    - unfold _calculate_comprehensive_trends in Hrun.
      destruct (trends_loop_spec data_by_period key_metrics h)
        as (calcs & h'' & E & Hall).
      rewrite E in Hrun. injection Hrun as <- _.
      clear E. induction Hall as [|c name cs names (t & -> & _) _ IH]; constructor.
      + exact I.
      + exact IH. }
  destruct (calculations_spec calculations) as (v & E & Hv & He & _).
  exists v. split; [exact E|]. split; [now apply Hv|]. apply He. now apply Hv.
Qed.

Lemma zip_growth_from_zero (metric : string) (found : list (string * Q)) :
  Exists (fun x => x.2 == 0) (removelast found) ->
  Exists (fun c => ~ acceptable_calculation c)
         (zip_with (growth_entry metric) found (tail found)).
Proof.
  induction found as [|a found IH]; [intros H; inversion H|].
  destruct found as [|b found]; [intros H; inversion H|].
  change (removelast (a :: b :: found)) with (a :: removelast (b :: found)).
  intros H. apply Exists_cons in H as [H|H].
  - cbn [tail zip_with]. apply Exists_cons_hd.
    unfold acceptable_calculation, growth_entry, change_result. cbn [result].
    simpl in H. apply eqb_true in H. rewrite H. tauto.
  - cbn [tail zip_with]. apply Exists_cons_tl. apply (IH H).
Qed.

Lemma removelast_length {A} (l : list A) :
  Exists (fun _ => True) (removelast l) -> (2 <= length l)%nat.
Proof.
  destruct l as [|a [|b l]]; simpl; intros H; try (inversion H; fail). lia.
Qed.

Lemma growth_from_zero (data_by_period : Grouped) (query name : string)
    (h : list CalcResult) :
  target_metric_of query = Some name ->
  Exists (fun x => x.2 == 0) (removelast (series data_by_period name)) ->
  exists calculations h' validation,
    _calculate_growth_rates data_by_period query h = (Ok calculations, h') /\
    _validate_calculations calculations = Ok validation /\
    is_valid validation = false /\ errors validation <> [].
Proof.
  intros Hname Hzero.
  destruct (growth_rates_spec data_by_period query h)
    as (calculations & h' & Hrun & _ & Hgrowth).
  destruct (Hgrowth name Hname) as [_ Hlong]. cbv zeta in Hlong.
  set (found := series data_by_period name) in *.
  assert (Hlen : (2 <= length found)%nat).
  { apply removelast_length. eapply Exists_impl; [exact Hzero | tauto]. }
  destruct found as [|first rest] eqn:Ef; [simpl in Hlen; lia|].
  destruct (last (first :: rest)) as [final|] eqn:El.
  2:{ apply last_None in El. discriminate. }
  specialize (Hlong first final eq_refl eq_refl Hlen).
  destruct (calculations_spec calculations) as (v & E & Hv & He & _).
  exists calculations, h', v. split; [exact Hrun|]. split; [exact E|].
  assert (Hnot : is_valid v <> true).
  { intros Hvalid. apply Hv in Hvalid. rewrite Hlong in Hvalid.
    apply Forall_app in Hvalid as [_ Hvalid].
    apply (zip_growth_from_zero (name +:+ "_sequential_growth")) in Hzero.
    apply Exists_exists in Hzero as (c & Hc & Hbad).
    rewrite Forall_forall in Hvalid. exact (Hbad (Hvalid c Hc)). }
  split; [now destruct (is_valid v)|].
  intros Hnil. apply He in Hnil. contradiction.
Qed.

(** X23: [_validate_data_points] accepts the data points exactly when
    there is at least one and every loan-to-deposit ratio among them
    lies between 0 and 200: no other metric has a rule under its name,
    so a return on equity or a margin of any size passes.  The result
    is valid exactly when its list of errors is empty. *)
Theorem data_points_validity (data_points : list FinancialDataPoint) :
  let validation := _validate_data_points data_points in
  (is_valid validation = true <->
   data_points <> [] /\ Forall in_expected_range data_points) /\
  (is_valid validation = true <-> errors validation = []).
Proof. apply data_points_spec. Qed.

Lemma data_points_validity_witness :
  let point m v :=
    {| Schemas.metric := m; Schemas.value := v; Schemas.period := "2022_Q1";
       Schemas.metadata := fab_2022; Schemas.source_page := 1;
       Schemas.source_section := "ratios";
       Schemas.confidence := 0.9 |} in
  is_valid (_validate_data_points [point ROE 5000; point LOAN_TO_DEPOSIT 80]) = true /\
  errors (_validate_data_points [point ROE 5000; point LOAN_TO_DEPOSIT 80]) = [] /\
  (is_valid (_validate_data_points [point LOAN_TO_DEPOSIT 250]) = true -> False).
Proof.
  intros point.
  assert (Hvalid :
    is_valid (_validate_data_points [point ROE 5000; point LOAN_TO_DEPOSIT 80]) = true).
  { destruct (data_points_validity [point ROE 5000; point LOAN_TO_DEPOSIT 80])
      as [Hv _].
    apply Hv. split; [discriminate|].
    constructor; [intros E; discriminate|].
    constructor; [|constructor]. intros _. subst point. simpl. lra. }
  split; [exact Hvalid|]. split.
  - destruct (data_points_validity [point ROE 5000; point LOAN_TO_DEPOSIT 80])
      as [_ He].
    apply He, Hvalid.
  - intros H.
    destruct (data_points_validity [point LOAN_TO_DEPOSIT 250]) as [Hv _].
    apply Hv in H. destruct H as [_ H]. inversion H as [|dp l Hdp _]. simpl in Hdp.
    destruct (Hdp eq_refl) as [_ Hhi]. subst point. simpl in Hhi. lra.
Defined.

(** X24: [_validate_calculations] never raises.  It accepts a list of
    calculations exactly when none is an error dictionary, every
    percentage change lies between -1000 and 1000 and every ROE
    percentage between -100 and 100; loan-to-deposit ratios, margins and
    trends are not tested.  The result is valid exactly when it has no
    error.  Every check it records has passed: of a list that is not
    empty, the calculations without an error get one check each, the
    others none. *)
Theorem calculations_validity (calculations : list Calculation) :
  exists validation,
    _validate_calculations calculations = Ok validation /\
    (is_valid validation = true <-> Forall acceptable_calculation calculations) /\
    (is_valid validation = true <-> errors validation = []) /\
    Forall (fun c => passed c = true) (checks validation) /\
    (calculations <> [] ->
     length (checks validation) =
       length (List.filter (fun c => bool_decide (error_of c = None)) calculations)).
Proof. apply calculations_spec. Qed.

Lemma calculations_validity_witness :
  let calculations :=
    [plain (ErrorResult "Cannot calculate percentage change from zero");
     plain (LoanToDeposit 5000 100 5000);
     plain (Roe 10 100 10)] in
  exists validation,
    _validate_calculations calculations = Ok validation /\
    length (checks validation) = 2%nat /\
    (is_valid validation = true -> False).
Proof.
  intros calculations.
  destruct (calculations_validity calculations) as (v & E & Hv & _ & _ & Hn).
  exists v. split; [exact E|]. split.
  - apply Hn. discriminate.
  - intros H. apply Hv in H. inversion H as [|c l Hc _]. exact Hc.
Defined.

(** X25: [_calculate_confidence_score] never divides by zero and
    returns a score between 0 and 1: 0.5 for no checks, 1 when every
    check has passed and 0 when none has. *)
Theorem confidence_score_range (validation_checks : list Check) :
  exists score,
    _calculate_confidence_score validation_checks = Ok score /\
    (0 <= score /\ score <= 1) /\
    (validation_checks = [] -> score == 1 # 2) /\
    (validation_checks <> [] ->
     Forall (fun c => passed c = true) validation_checks -> score == 1) /\
    (validation_checks <> [] ->
     Forall (fun c => passed c = false) validation_checks -> score == 0).
Proof. apply confidence_spec. Qed.

Lemma confidence_score_range_witness :
  let ok name := {| check := name; passed := true; message := [] |} in
  let failed name := {| check := name; passed := false; message := [] |} in
  (exists score,
     _calculate_confidence_score [ok "data_points_validation"; ok "answer_length"]
       = Ok score /\ score == 1) /\
  (exists score,
     _calculate_confidence_score [failed "data_points_exist"; failed "answer_length"]
       = Ok score /\ score == 0).
Proof.
  intros ok failed. split.
  - destruct (confidence_score_range [ok "data_points_validation"; ok "answer_length"])
      as (score & E & _ & _ & Hall & _).
    exists score. split; [exact E|].
    apply Hall; [discriminate | repeat constructor].
  - destruct (confidence_score_range [failed "data_points_exist"; failed "answer_length"])
      as (score & E & _ & _ & _ & Hnone).
    exists score. split; [exact E|].
    apply Hnone; [discriminate | repeat constructor].
Defined.

(** X26: [validate] always returns.  Its result is valid exactly when
    there is a data point, every loan-to-deposit data point lies between
    0 and 200 and every calculation is accepted; it is valid exactly
    when it lists no error.  The confidence score lies between 0 and 1,
    and the only warnings are the two about the answer: the warning of
    [_validate_data_points] about data points of low confidence is not
    passed on. *)
Theorem validate_outcome (answer : string) (data_points : list FinancialDataPoint)
    (calculations : list Calculation) :
  exists r,
    validate answer data_points calculations = Ok r /\
    (r_is_valid r = true <->
     data_points <> [] /\ Forall in_expected_range data_points /\
     Forall acceptable_calculation calculations) /\
    (r_is_valid r = true <-> r_errors r = []) /\
    (0 <= r_confidence_score r /\ r_confidence_score r <= 1) /\
    (forall w, w ∈ r_warnings r ->
       w = [Str "Answer appears very brief"] \/
       w = [Str "Answer may lack financial context"]).
Proof. apply validate_spec. Qed.

Lemma validate_outcome_witness :
  exists r,
    validate "Net profit grew." [net_profit_2022_Q1 5120 0.3] [plain (Roe 10 100 10)]
      = Ok r /\
    r_is_valid r = true /\ r_errors r = [] /\
    warnings (_validate_data_points [net_profit_2022_Q1 5120 0.3]) <> None.
Proof.
  destruct (validate_outcome "Net profit grew." [net_profit_2022_Q1 5120 0.3]
              [plain (Roe 10 100 10)]) as (r & E & Hv & He & _).
  assert (Hvalid : r_is_valid r = true).
  { apply Hv. split; [discriminate|]. split.
    - constructor; [intros H; discriminate | constructor].
    - constructor; [|constructor]. unfold acceptable_calculation. simpl.
      split; lra. }
  exists r. split; [exact E|]. split; [exact Hvalid|].
  split; [apply He, Hvalid | discriminate].
Defined.

(** X27: whatever [_calculate_ldr_trend] or
    [_calculate_comprehensive_trends] returns passes
    [_validate_calculations] without an error: the rule
    [loan_to_deposit_ratio] is not applied to calculations, so a
    loan-to-deposit ratio of any size is accepted. *)
Theorem trend_calculations_accepted (data_by_period : Grouped)
    (h h' : list CalcResult) (calculations : list Calculation) :
  _calculate_ldr_trend data_by_period h = (Ok calculations, h') \/
  _calculate_comprehensive_trends data_by_period h = (Ok calculations, h') ->
  exists validation,
    _validate_calculations calculations = Ok validation /\
    is_valid validation = true /\ errors validation = [].
Proof. apply trends_accepted. Qed.

Lemma trend_calculations_accepted_witness :
  exists validation,
    _validate_calculations [plain (LoanToDeposit 5000 100 (5000 / 100 * 100))]
      = Ok validation /\
    is_valid validation = true /\ errors validation = [].
Proof.
  apply (trend_calculations_accepted
           [("2022_Q1"%string, {[ TOTAL_LOANS := 5000; TOTAL_DEPOSITS := 100 ]})]
           [] [LoanToDeposit 5000 100 (5000 / 100 * 100)]).
  left. vm_compute. reflexivity.
Defined.

(** X28: when the query names one of the four metrics of
    [_calculate_growth_rates] and the value of that metric is zero in a
    period that is not the last of its series, the growth from that
    period is an error dictionary, and [_validate_calculations] rejects
    the calculations with an error. *)
Theorem growth_from_zero_rejected (data_by_period : Grouped) (query name : string)
    (h : list CalcResult) :
  target_metric_of query = Some name ->
  Exists (fun x => x.2 == 0) (removelast (series data_by_period name)) ->
  exists calculations h' validation,
    _calculate_growth_rates data_by_period query h = (Ok calculations, h') /\
    _validate_calculations calculations = Ok validation /\
    is_valid validation = false /\ errors validation <> [].
Proof. apply growth_from_zero. Qed.

Lemma growth_from_zero_rejected_witness :
  let data_by_period : Grouped :=
    [("2022_Q2"%string, {[ NET_PROFIT := 5000 ]});
     ("2022_Q1"%string, {[ NET_PROFIT := 0 ]})] in
  exists calculations h' validation,
    _calculate_growth_rates data_by_period "Net profit growth" [] =
      (Ok calculations, h') /\
    _validate_calculations calculations = Ok validation /\
    is_valid validation = false /\ errors validation <> [].
Proof.
  intros data_by_period.
  apply (growth_from_zero_rejected data_by_period "Net profit growth" "net_profit" []).
  - vm_compute. reflexivity.
  - vm_compute. apply Exists_cons_hd. reflexivity.
Defined.
